(** * Whale Curve Analyzer: the merge / summarise / rank pipeline

    A shallow embedding of [whale_curve_analyzer.py].  The program is a
    sequence of pandas calls on two uploaded sheets; the pandas operations it
    relies on ([merge], [fillna], column selection and assignment, [groupby]
    / [agg], [sort_values], [cumsum], [head]) are written out here at the
    level of cells, and the program's own functions ([load_sales_data],
    [load_cost_data], [merge_data], [generate_summary], [get_top_bottom]) are
    transcribed on top of them, statement by statement.

    Numbers.  A numeric cell is a float64 whose finite values are taken to be
    exact rationals (the `decimal` of the data model): rounding is not
    modelled, zero is unsigned, and the non-finite values [PInf], [NInf] and
    [NaN] behave as IEEE 754 and numpy prescribe.  An empty cell is [NaN], as
    in pandas.  Since float64 rounds, a statement below either relates a
    result to the operations the program performs on its operands, in the
    program's order, or it is made for whole-number amounts small enough for
    float64 to add them exactly ([exact_amounts]); none relies on sums taken
    in two different orders agreeing otherwise. *)

From Stdlib Require Import QArith Qcanon.
From Stdlib Require OrderedTypeEx.
From stdpp Require Import base option list gmap strings fin_maps numbers sorting.

Local Open Scope Qc_scope.
Local Set Warnings "-clear-no-such-hyp".

(** ** float64 *)

Inductive float64 : Set :=
  | Finite (q : Qc)
  | PInf
  | NInf
  | NaN.

#[global] Instance float64_eq_dec : EqDecision float64.
Proof. solve_decision. Defined.

Definition Zq (z : Z) : Qc := Qc_of_Z z.

Definition fneg (x : float64) : float64 :=
  match x with
  | Finite a => Finite (- a)
  | PInf => NInf
  | NInf => PInf
  | NaN => NaN
  end.

Definition fadd (x y : float64) : float64 :=
  match x, y with
  | NaN, _ | _, NaN => NaN
  | Finite a, Finite b => Finite (a + b)
  | PInf, NInf | NInf, PInf => NaN
  | PInf, _ | _, PInf => PInf
  | NInf, _ | _, NInf => NInf
  end.

Definition fsub (x y : float64) : float64 := fadd x (fneg y).

(** Sign of a non-NaN value: [Some Lt] negative, [Some Eq] zero,
    [Some Gt] positive. *)
Definition fsign (x : float64) : option comparison :=
  match x with
  | Finite a => Some (if decide (a = 0) then Eq else if decide (0 < a) then Gt else Lt)
  | PInf => Some Gt
  | NInf => Some Lt
  | NaN => None
  end.

Definition finf (s : comparison) : float64 :=
  match s with Gt => PInf | Lt => NInf | Eq => NaN end.

Definition sign_mul (s t : comparison) : comparison :=
  match s, t with
  | Eq, _ | _, Eq => Eq
  | Gt, u => u
  | Lt, u => CompOpp u
  end.

Definition fmul (x y : float64) : float64 :=
  match x, y with
  | Finite a, Finite b => Finite (a * b)
  | _, _ =>
      match fsign x, fsign y with
      | Some s, Some t => finf (sign_mul s t)
      | _, _ => NaN
      end
  end.

(** True division.  A finite value over zero is an infinity carrying the sign
    of the numerator, zero over zero is [NaN]; no exception is raised. *)
Definition fdiv (x y : float64) : float64 :=
  match x, y with
  | NaN, _ | _, NaN => NaN
  | Finite a, Finite b =>
      if decide (b = 0) then
        (if decide (a = 0) then NaN else if decide (0 < a) then PInf else NInf)
      else Finite (a / b)
  | Finite _, _ => Finite 0
  | _, Finite b => if decide (b < 0) then fneg x else x
  | _, _ => NaN
  end.

(** [x > y]; any comparison with [NaN] is false. *)
Definition fgtb (x y : float64) : bool :=
  match x, y with
  | NaN, _ | _, NaN => false
  | Finite a, Finite b => bool_decide (b < a)
  | PInf, PInf => false
  | PInf, _ => true
  | NInf, _ => false
  | Finite _, PInf => false
  | Finite _, NInf => true
  end.

(** [x <= y] on values that are not [NaN]. *)
Definition fleb (x y : float64) : bool :=
  match x, y with
  | NaN, _ | _, NaN => false
  | Finite a, Finite b => bool_decide (a ≤ b)
  | NInf, _ => true
  | _, PInf => true
  | _, _ => false
  end.

Definition is_finite (x : float64) : bool :=
  match x with Finite _ => true | _ => false end.

(** ** Cells, exceptions, frames *)

Inductive cell : Set :=
  | Num (x : float64)
  | Str (s : string).

#[global] Instance cell_eq_dec : EqDecision cell.
Proof. solve_decision. Defined.

Definition isna (c : cell) : bool :=
  match c with Num NaN => true | _ => false end.

Definition is_num (c : cell) : bool := match c with Num _ => true | Str _ => false end.
Definition is_str (c : cell) : bool := match c with Str _ => true | Num _ => false end.

Inductive exn : Set :=
  | KeyError (c : string)
  | TypeError
  | ValueError.

Inductive result (A : Type) : Type :=
  | Ok (a : A)
  | Raise (e : exn).
Arguments Ok {A} a.
Arguments Raise {A} e.

#[global] Instance exn_eq_dec : EqDecision exn.
Proof. solve_decision. Defined.
#[global] Instance result_eq_dec {A} `{EqDecision A} : EqDecision (result A).
Proof. solve_decision. Defined.

#[global] Instance result_ret : MRet result := @Ok.
#[global] Instance result_bind : MBind result := λ A B f m,
  match m with Ok a => f a | Raise e => Raise e end.

(** A row maps a column label to its cell; a label that is not stored reads as
    an empty cell.  The labels of a frame are distinct, as [read_excel] makes
    them. *)
Abbreviation row := (gmap string cell).

Record DataFrame : Type := {
  columns : list string;
  rows : list row
}.

Definition cell_of (r : row) (c : string) : cell := default (Num NaN) (r !! c).

(** [df[c]]: the column as a list of cells, or [KeyError]. *)
Definition getitem (df : DataFrame) (c : string) : result (list cell) :=
  if decide (c ∈ columns df) then Ok ((λ r, cell_of r c) <$> rows df)
  else Raise (KeyError c).

(** [df[c] = vals]: overwrite the column, or append it when it is new. *)
Definition setitem (df : DataFrame) (c : string) (vals : list cell) : DataFrame :=
  {| columns := if decide (c ∈ columns df) then columns df else columns df ++ [c];
     rows := zip_with (λ r v, <[c := v]> r) (rows df) vals |}.

(** [df.fillna(v, inplace=True)]: every empty cell of every column becomes
    [v].  That is what pandas 1 and 2 do.  pandas 3 reads a column of text
    as a string column and refuses to put a number into it ([TypeError]), so
    that the two agree only on frames in which no column holding text has an
    empty cell ([text_columns_full]).  A statement with the hypothesis
    [no_text_gap] holds for either; the others are about pandas 1 and 2
    where such a column occurs. *)
Definition fill_row (v : cell) (cols : list string) (r : row) : row :=
  foldr (λ c acc, if isna (cell_of r c) then <[c := v]> acc else acc) r cols.

Definition fillna (v : cell) (df : DataFrame) : DataFrame :=
  {| columns := columns df; rows := fill_row v (columns df) <$> rows df |}.

(** ** pd.merge(left, right, on=key, how='left') *)

(** Labels shared by both frames, other than the key, get the suffixes
    [_x] (left) and [_y] (right). *)
Definition suffix_x (key : string) (right_cols : list string) (c : string) : string :=
  if decide (c ≠ key ∧ c ∈ right_cols) then c +:+ "_x" else c.

Definition suffix_y (left_cols : list string) (c : string) : string :=
  if decide (c ∈ left_cols) then c +:+ "_y" else c.

Definition right_labels (key : string) (right_cols : list string) : list string :=
  filter (λ c, c ≠ key) right_cols.

Definition merge_columns (key : string) (lcols rcols : list string) : list string :=
  (suffix_x key rcols <$> lcols) ++ (suffix_y lcols <$> right_labels key rcols).

Definition left_part (key : string) (lcols rcols : list string) (l : row) : row :=
  list_to_map ((λ c, (suffix_x key rcols c, cell_of l c)) <$> lcols).

Definition right_part (key : string) (lcols rcols : list string) (r : row) : row :=
  list_to_map ((λ c, (suffix_y lcols c, cell_of r c)) <$> right_labels key rcols).

(** The rows of the right frame whose key equals that of [l], in the order of
    the right frame.  Empty keys match each other, as in pandas. *)
Definition matches (key : string) (right : DataFrame) (l : row) : list row :=
  filter (λ r, cell_of r key = cell_of l key) (rows right).

(** One output row per match; a left row without a match is kept once, with
    the right-hand cells empty. *)
Definition join_row (key : string) (left right : DataFrame) (l : row) : list row :=
  let lp := left_part key (columns left) (columns right) l in
  match matches key right l with
  | [] => [lp]
  | ms => (λ r, lp ∪ right_part key (columns left) (columns right) r) <$> ms
  end.

(** pandas refuses to merge a key column of text with a key column of
    numbers.  The test goes by what it infers from each key column as read
    from a sheet: a column without rows is [KEmpty]; a column holding text is
    an object column, [KString] when it holds nothing else, [KMixedInteger]
    when it also holds a whole number, [KMixed] otherwise; a column of
    numbers is [KInteger] when all are whole, [KFloating] otherwise. *)
Inductive key_kind : Set :=
  | KEmpty
  | KString
  | KMixed
  | KMixedInteger
  | KInteger
  | KFloating.

Definition is_integer_cell (c : cell) : bool :=
  match c with
  | Num (Finite q) => bool_decide (Qden (this q) = 1%positive)
  | _ => false
  end.

Definition key_kind_of (s : list cell) : key_kind :=
  match s with
  | [] => KEmpty
  | _ =>
      if existsb is_str s then
        (if forallb is_str s then KString
         else if existsb is_integer_cell s then KMixedInteger else KMixed)
      else if forallb is_integer_cell s then KInteger else KFloating
  end.

Definition object_kind (k : key_kind) : bool :=
  match k with KEmpty | KString | KMixed | KMixedInteger => true | _ => false end.

Definition integer_like (k : key_kind) : bool :=
  match k with KInteger | KMixedInteger | KEmpty => true | _ => false end.

Definition string_like (k : key_kind) : bool :=
  match k with KString | KMixed | KEmpty => true | _ => false end.

Definition keys_incompatible (lk rk : key_kind) : bool :=
  xorb (object_kind lk) (object_kind rk)
  && negb (integer_like lk && integer_like rk)
  && xorb (string_like lk) (string_like rk).

(** The test is left out when exactly one of the two key columns has no
    rows. *)
Definition keys_refused (lk rk : list cell) : bool :=
  negb (xorb (bool_decide (lk = [])) (bool_decide (rk = [])))
  && keys_incompatible (key_kind_of lk) (key_kind_of rk).

(** pandas also refuses a merge whose suffixes give one frame two equal
    labels that were different before ([MergeError], a [ValueError]): a
    label counts when it has occurred earlier among the renamed labels and
    its original has not occurred earlier among the originals. *)
Fixpoint new_dups (f : string → string) (seen cols : list string) : bool :=
  match cols with
  | [] => false
  | c :: cols' =>
      (bool_decide (f c ∈ f <$> seen) && negb (bool_decide (c ∈ seen)))
      || new_dups f (seen ++ [c]) cols'
  end.

Definition suffix_clash (key : string) (lcols rcols : list string) : bool :=
  new_dups (suffix_x key rcols) [] lcols
  || new_dups (suffix_y lcols) [] (right_labels key rcols).

Definition merge (left right : DataFrame) (key : string) : result DataFrame :=
  if decide (key ∈ columns left) then
    if decide (key ∈ columns right) then
      if keys_refused ((λ r, cell_of r key) <$> rows left)
           ((λ r, cell_of r key) <$> rows right)
      then Raise ValueError
      else if suffix_clash key (columns left) (columns right) then Raise ValueError
      else
        Ok {| columns := merge_columns key (columns left) (columns right);
              rows := rows left ≫= join_row key left right |}
    else Raise (KeyError key)
  else Raise (KeyError key).

(** ** Element-wise column arithmetic *)

Fixpoint traverse {A B} (f : A → result B) (l : list A) : result (list B) :=
  match l with
  | [] => Ok []
  | a :: l' => b ← f a; bs ← traverse f l'; Ok (b :: bs)
  end.

(** [c > 0]; text is not comparable with a number. *)
Definition cell_gt0 (c : cell) : result bool :=
  match c with
  | Num x => Ok (fgtb x (Finite 0))
  | Str _ => Raise TypeError
  end.

(** [a + b]; two texts concatenate, text and number do not add. *)
Definition cell_add (ab : cell * cell) : result cell :=
  match ab with
  | (Num x, Num y) => Ok (Num (fadd x y))
  | (Str s, Str t) => Ok (Str (s +:+ t))
  | _ => Raise TypeError
  end.

Definition cell_sub (ab : cell * cell) : result cell :=
  match ab with
  | (Num x, Num y) => Ok (Num (fsub x y))
  | _ => Raise TypeError
  end.

Definition series_gt0 (s : list cell) : result (list bool) := traverse cell_gt0 s.
Definition series_add (s t : list cell) : result (list cell) := traverse cell_add (zip s t).
Definition series_sub (s t : list cell) : result (list cell) := traverse cell_sub (zip s t).

(** [np.where(cond, a, b)] *)
Definition np_where (cond : list bool) (a b : list cell) : list cell :=
  zip_with (λ (c : bool) (ab : cell * cell), if c then ab.1 else ab.2) cond (zip a b).

(** ** The program: loading and merging *)

Definition merge_data (sales cost : DataFrame) : result DataFrame :=
  merged ← merge sales cost "Product ID";
  let merged := fillna (Num (Finite 0)) merged in
  stc ← getitem merged "Standard Total Cost";
  cond ← series_gt0 stc;
  material ← getitem merged "Material Cost";
  labor ← getitem merged "Labor Cost";
  s1 ← series_add material labor;
  overhead ← getitem merged "Overhead Cost";
  s2 ← series_add s1 overhead;
  service ← getitem merged "Service Cost";
  s3 ← series_add s2 service;
  let merged := setitem merged "Unit Cost" (np_where cond stc s3) in
  net ← getitem merged "Net Sales $";
  unit ← getitem merged "Unit Cost";
  margin ← series_sub net unit;
  Ok (setitem merged "Gross Margin $" margin).

(** ** Ordering and sorting *)

(** Order of cells: numbers by value, text by code point, numbers before
    text (the order pandas gives mixed group keys).  Only used on cells that
    are not empty. *)
Definition cell_leb (a b : cell) : bool :=
  match a, b with
  | Num x, Num y => fleb x y
  | Num _, Str _ => true
  | Str _, Num _ => false
  | Str s, Str t => String.leb s t
  end.

(** The sort behind [argsort].  [sort_values] is called with its default
    kind, which sorts correctly but does not fix the order of elements that
    compare equal.  The sort written here is one such sort (by insertion);
    the order in which it leaves equal elements is its own and no statement
    below relies on it. *)
Fixpoint insert_by {A} (leb : A → A → bool) (x : A) (l : list A) : list A :=
  match l with
  | [] => [x]
  | y :: l' => if leb x y then x :: l else y :: insert_by leb x l'
  end.

Definition sort_by {A} (leb : A → A → bool) (l : list A) : list A :=
  foldr (insert_by leb) [] l.

Definition keyed_leb (a b : cell * row) : bool := cell_leb a.1 b.1.

(** [df.sort_values(by, ascending=...)], following pandas' [nargsort]: the
    empty keys are set aside and placed last; for a descending sort the
    remaining keys are reversed, sorted ascending, and reversed again.  Keys
    that mix text and numbers cannot be compared. *)
Definition sort_values (df : DataFrame) (by_ : string) (ascending : bool)
    : result DataFrame :=
  k ← getitem df by_;
  let keyed := zip k (rows df) in
  let non_nans := filter (λ kr, isna kr.1 = false) keyed in
  let nans := filter (λ kr, isna kr.1 = true) keyed in
  if forallb is_num non_nans.*1 || forallb is_str non_nans.*1 then
    let sorted :=
      if ascending then sort_by keyed_leb non_nans
      else reverse (sort_by keyed_leb (reverse non_nans)) in
    Ok {| columns := columns df; rows := (sorted ++ nans).*2 |}
  else Raise TypeError.

(** [df.head(n)] for a row count [n]. *)
Definition df_head (n : nat) (df : DataFrame) : DataFrame :=
  {| columns := columns df; rows := take n (rows df) |}.

(** ** Reductions *)

(** [Series.sum()]: empty cells are skipped; the sum of nothing is 0. *)
Fixpoint sum_from (acc : float64) (s : list cell) : result float64 :=
  match s with
  | [] => Ok acc
  | Num NaN :: s' => sum_from acc s'
  | Num x :: s' => sum_from (fadd acc x) s'
  | Str _ :: _ => Raise TypeError
  end.

Definition series_sum (s : list cell) : result float64 := sum_from (Finite 0) s.

(** [Series.cumsum()]: an empty cell stays empty and is skipped by the
    running total. *)
Fixpoint cumsum_from (acc : float64) (s : list cell) : result (list cell) :=
  match s with
  | [] => Ok []
  | Num NaN :: s' => r ← cumsum_from acc s'; Ok (Num NaN :: r)
  | Num x :: s' => r ← cumsum_from (fadd acc x) s'; Ok (Num (fadd acc x) :: r)
  | Str _ :: _ => Raise TypeError
  end.

Definition cumsum (s : list cell) : result (list cell) := cumsum_from (Finite 0) s.

(** [100 * a / b] *)
Definition cell_pct (ab : cell * cell) : result cell :=
  match ab with
  | (Num x, Num y) => Ok (Num (fdiv (fmul (Finite (Zq 100)) x) y))
  | _ => Raise TypeError
  end.

Definition series_pct_scalar (s : list cell) (d : float64) : result (list cell) :=
  traverse (λ a, cell_pct (a, Num d)) s.

Definition series_pct (s t : list cell) : result (list cell) :=
  traverse cell_pct (zip s t).

(** ** df.groupby(group_field).agg({c1: 'sum', c2: 'sum'}).reset_index() *)

(** The distinct, non-empty keys in ascending order (groupby sorts its
    keys). *)
Definition group_keys (ks : list cell) : list cell :=
  sort_by cell_leb (remove_dups (filter (λ k, isna k = false) ks)).

Definition members (df : DataFrame) (group_field : string) (k : cell) : list row :=
  filter (λ r, cell_of r group_field = k) (rows df).

Definition group_row (df : DataFrame) (group_field c1 c2 : string) (k : cell)
    : result row :=
  let ms := members df group_field k in
  x1 ← series_sum ((λ r, cell_of r c1) <$> ms);
  x2 ← series_sum ((λ r, cell_of r c2) <$> ms);
  Ok (<[group_field := k]> (<[c1 := Num x1]> (<[c2 := Num x2]> ∅))).

Definition groupby_sum (df : DataFrame) (group_field c1 c2 : string)
    : result DataFrame :=
  keys ← getitem df group_field;
  _ ← getitem df c1;
  _ ← getitem df c2;
  rs ← traverse (group_row df group_field c1 c2) (group_keys keys);
  if decide (group_field = c1 ∨ group_field = c2) then Raise ValueError
  else Ok {| columns := [group_field; c1; c2]; rows := rs |}.

(** ** The program: summary and ranking *)

Definition generate_summary (df : DataFrame) (group_field : string)
    : result DataFrame :=
  net ← getitem df "Net Sales $";
  total_sales ← series_sum net;
  grouped ← groupby_sum df group_field "Net Sales $" "Gross Margin $";
  summary ← sort_values grouped "Gross Margin $" false;
  s_net ← getitem summary "Net Sales $";
  pct ← series_pct_scalar s_net total_sales;
  let summary := setitem summary "% of Sales" pct in
  s_net ← getitem summary "Net Sales $";
  cum_sales ← cumsum s_net;
  let summary := setitem summary "Cumulative Sales $" cum_sales in
  cum_sales ← getitem summary "Cumulative Sales $";
  cum_sales_pct ← series_pct_scalar cum_sales total_sales;
  let summary := setitem summary "Cumulative Sales %" cum_sales_pct in
  s_margin ← getitem summary "Gross Margin $";
  s_net ← getitem summary "Net Sales $";
  margin_pct ← series_pct s_margin s_net;
  let summary := setitem summary "Margin %" margin_pct in
  s_margin ← getitem summary "Gross Margin $";
  cum_margin ← cumsum s_margin;
  let summary := setitem summary "Cumulative Margin $" cum_margin in
  cum_margin ← getitem summary "Cumulative Margin $";
  s_margin ← getitem summary "Gross Margin $";
  total_margin ← series_sum s_margin;
  cum_profit_pct ← series_pct_scalar cum_margin total_margin;
  Ok (setitem summary "Cumulative Profit %" cum_profit_pct).

Definition top_n_default : nat := 20.

(** [get_top_bottom(summary, field, top_n=20)]; [top_n] is a row count and
    [None] stands for the argument left out. *)
Definition get_top_bottom (summary : DataFrame) (field : string) (top_n : option nat)
    : result (DataFrame * DataFrame) :=
  let n := default top_n_default top_n in
  descending ← sort_values summary field false;
  let top_20 := df_head n descending in
  ascending ← sort_values summary field true;
  let bottom_20 := df_head n ascending in
  Ok (top_20, bottom_20).

(** ** The program: loading and the top-level run *)

(** What [pd.read_excel] made of an uploaded file. *)
Inductive upload : Type :=
  | Unreadable
  | Sheet (df : DataFrame).

(** The notices the program puts on the page. *)
Inductive message : Set :=
  | SalesColumnsMissing
  | SalesReadError
  | CostColumnsMissing
  | CostReadError
  | SalesRowsWarning
  | CostRowsWarning
  | UploadBothInfo.

#[global] Instance message_eq_dec : EqDecision message.
Proof. solve_decision. Defined.

Definition sales_required_cols : list string :=
  ["Customer ID"; "Product ID"; "Net Sales $"; "Salesperson"; "Region"].

Definition cost_required_cols : list string := ["Product ID"].

Definition has_columns (required : list string) (df : DataFrame) : bool :=
  forallb (λ col, bool_decide (col ∈ columns df)) required.

Definition load_sales_data (uploaded_file : upload) : option DataFrame * list message :=
  match uploaded_file with
  | Sheet sales =>
      if has_columns sales_required_cols sales then (Some sales, [])
      else (None, [SalesColumnsMissing])
  | Unreadable => (None, [SalesReadError])
  end.

Definition load_cost_data (uploaded_file : upload) : option DataFrame * list message :=
  match uploaded_file with
  | Sheet cost =>
      if has_columns cost_required_cols cost then (Some cost, [])
      else (None, [CostColumnsMissing])
  | Unreadable => (None, [CostReadError])
  end.

Record view : Type := {
  view_name : string;
  view_summary : DataFrame;
  top_sales : DataFrame;
  top_margin : DataFrame;
  bottom_margin : DataFrame
}.

Definition dimensions : list (string * string) :=
  [("Customer", "Customer ID"); ("Product", "Product ID");
   ("Salesperson", "Salesperson"); ("Region", "Region")].

Definition build_view (merged_data : DataFrame) (d : string * string) : result view :=
  summary ← generate_summary merged_data d.2;
  by_sales ← get_top_bottom summary "Net Sales $" None;
  by_margin ← get_top_bottom summary "Margin %" None;
  Ok {| view_name := d.1; view_summary := summary; top_sales := by_sales.1;
        top_margin := by_margin.1; bottom_margin := by_margin.2 |}.

Definition row_warning (m : message) (df : DataFrame) : list message :=
  if bool_decide (10000 < Z.of_nat (length (rows df)))%Z then [m] else [].

(** The outcome of one run: the notices, and the analysis when both sheets
    were accepted ([None] when the run stopped before merging). *)
Definition main (sales_file cost_file : option upload)
    : list message * option (result (list view)) :=
  match sales_file, cost_file with
  | Some sf, Some cf =>
      let '(sales_data, m1) := load_sales_data sf in
      let '(cost_data, m2) := load_cost_data cf in
      match sales_data, cost_data with
      | Some sales, Some cost =>
          (m1 ++ m2 ++ row_warning SalesRowsWarning sales
              ++ row_warning CostRowsWarning cost,
           Some (merged_data ← merge_data sales cost;
                 traverse (build_view merged_data) dimensions))
      | _, _ => (m1 ++ m2, None)
      end
  | _, _ => ([UploadBothInfo], None)
  end.

(** ** Sample sheets *)

(** The two sample sheets displayed by the program. *)
Definition mk_row (kvs : list (string * cell)) : row := list_to_map kvs.
Definition num (z : Z) : cell := Num (Finite (Zq z)).
Definition empty_cell : cell := Num NaN.

Definition sample_sales : DataFrame :=
  {| columns := ["Customer ID"; "Product ID"; "Net Sales $"; "Salesperson"; "Region"];
     rows := [ mk_row [("Customer ID", Str "C001"); ("Product ID", Str "P101");
                       ("Net Sales $", num 12000); ("Salesperson", Str "Sally");
                       ("Region", Str "North")];
               mk_row [("Customer ID", Str "C002"); ("Product ID", Str "P102");
                       ("Net Sales $", num 9500); ("Salesperson", Str "Jim");
                       ("Region", Str "West")] ] |}.

Definition sample_cost : DataFrame :=
  {| columns := ["Product ID"; "Standard Total Cost"; "Material Cost"; "Labor Cost";
                 "Overhead Cost"; "Service Cost"];
     rows := [ mk_row [("Product ID", Str "P101"); ("Standard Total Cost", num 7200);
                       ("Material Cost", empty_cell); ("Labor Cost", empty_cell);
                       ("Overhead Cost", empty_cell); ("Service Cost", empty_cell)];
               mk_row [("Product ID", Str "P102"); ("Standard Total Cost", empty_cell);
                       ("Material Cost", num 3000); ("Labor Cost", num 2000);
                       ("Overhead Cost", num 1500); ("Service Cost", num 1000)] ] |}.

(** ** Vocabulary of the specification *)

(** What [fillna(0)] does to one cell. *)
Definition fill0 (c : cell) : cell := if isna c then Num (Finite 0) else c.

(** The amount in a numeric cell, an empty cell counting as zero. *)
Definition decimal_of (c : cell) : Qc :=
  match c with Num (Finite a) => a | _ => 0 end.

(** A cell of a numeric column of a sheet: a finite number, or empty. *)
Definition is_decimal (c : cell) : bool :=
  match c with Num (Finite _) | Num NaN => true | _ => false end.

Definition cost_cols : list string :=
  ["Standard Total Cost"; "Material Cost"; "Labor Cost"; "Overhead Cost"; "Service Cost"].

Definition derived_cols : list string := ["Unit Cost"; "Gross Margin $"].

Definition component_sum (k : row) : Qc :=
  decimal_of (cell_of k "Material Cost") + decimal_of (cell_of k "Labor Cost")
  + decimal_of (cell_of k "Overhead Cost") + decimal_of (cell_of k "Service Cost").

(** The cost rule in the words of the specification (section 4.1): the
    standard total cost when present and greater than zero, otherwise the sum
    of the four components with an absent component counting as zero. *)
Definition resolveUnitCost (k : row) : Qc :=
  match cell_of k "Standard Total Cost" with
  | Num (Finite s) => if decide (0 < s) then s else component_sum k
  | _ => component_sum k
  end.

(** A product found in no cost record costs nothing. *)
Definition unit_cost_of (k : option row) : Qc := from_option resolveUnitCost 0 k.

(** The left join as a list of pairs: each transaction with each of its cost
    records in turn, or with none. *)
Definition joined (sales cost : DataFrame) : list (row * option row) :=
  rows sales ≫= λ l,
    match matches "Product ID" cost l with
    | [] => [(l, None)]
    | ms => (λ k, (l, Some k)) <$> ms
    end.

(** The two sheets as the pipeline expects them: the labels it reads are
    there, the two Product ID columns are of kinds that pandas merges (both
    text, or both numbers), the sheets share no label but the key, and the
    numeric columns hold finite numbers or nothing. *)
Record sheets_ok (sales cost : DataFrame) : Prop := {
  sales_has_key : "Product ID" ∈ columns sales;
  sales_has_net : "Net Sales $" ∈ columns sales;
  cost_has_key : "Product ID" ∈ columns cost;
  keys_compatible :
    keys_incompatible (key_kind_of ((λ r, cell_of r "Product ID") <$> rows sales))
      (key_kind_of ((λ r, cell_of r "Product ID") <$> rows cost)) = false;
  cost_has_costs : ∀ c, c ∈ cost_cols → c ∈ columns cost;
  no_shared_label : ∀ c, c ∈ columns sales → c ∈ columns cost → c = "Product ID";
  net_decimal : ∀ r, r ∈ rows sales → is_decimal (cell_of r "Net Sales $");
  costs_decimal : ∀ r c, r ∈ rows cost → c ∈ cost_cols → is_decimal (cell_of r c)
}.

(** What an enriched row [m] owes to the transaction and the cost record it
    was joined from. *)
Record enriches (sales cost : DataFrame) (p : row * option row) (m : row) : Prop := {
  keeps_sales : ∀ c, c ∈ columns sales → c ∉ derived_cols →
    cell_of m c = fill0 (cell_of p.1 c);
  keeps_cost : ∀ c, c ∈ columns cost → c ≠ "Product ID" → c ∉ derived_cols →
    cell_of m c = fill0 (from_option (λ k, cell_of k c) (Num NaN) p.2);
  unit_cost_resolved : cell_of m "Unit Cost" = Num (Finite (unit_cost_of p.2));
  margin_derived :
    cell_of m "Gross Margin $"
    = Num (Finite (decimal_of (cell_of p.1 "Net Sales $") - unit_cost_of p.2))
}.

(** The joined row before any filling or arithmetic. *)
Definition pre_row (sales cost : DataFrame) (p : row * option row) : row :=
  let lp := left_part "Product ID" (columns sales) (columns cost) p.1 in
  match p.2 with
  | None => lp
  | Some k => lp ∪ right_part "Product ID" (columns sales) (columns cost) k
  end.

(** The merged row once emptied cells are zero. *)
Definition filled_row (sales cost : DataFrame) (p : row * option row) : row :=
  fill_row (Num (Finite 0))
    (merge_columns "Product ID" (columns sales) (columns cost)) (pre_row sales cost p).

(** The two derived cells of a row whose cost cells are numbers. *)
Definition unit_cost_cell (r : row) : cell :=
  let s := decimal_of (cell_of r "Standard Total Cost") in
  Num (Finite (if decide (0 < s) then s else component_sum r)).

Definition margin_cell (r : row) : cell :=
  Num (Finite (decimal_of (cell_of r "Net Sales $") - decimal_of (unit_cost_cell r))).

Definition enriched_row (r : row) : row :=
  <["Gross Margin $" := margin_cell r]> (<["Unit Cost" := unit_cost_cell r]> r).

(** [sort_values] read on the rows themselves, [f] giving the key of a row. *)
Definition key_leb (f : row → cell) (a b : row) : bool := cell_leb (f a) (f b).

Definition sort_rows (ascending : bool) (f : row → cell) (l : list row) : list row :=
  let non_nans := filter (λ r, isna (f r) = false) l in
  let nans := filter (λ r, isna (f r) = true) l in
  (if ascending then sort_by (key_leb f) non_nans
   else reverse (sort_by (key_leb f) (reverse non_nans))) ++ nans.

(** The order in which [sort_values] leaves two consecutive keys: empty keys
    last, the others ascending or descending. *)
Definition na_last_leb (ascending : bool) (a b : cell) : bool :=
  isna b || (negb (isna a) && (if ascending then cell_leb a b else cell_leb b a)).

Definition cell_ltb (a b : cell) : bool := cell_leb a b && negb (bool_decide (a = b)).

(** Sum and running sum of amounts. *)
Definition qsum (l : list Qc) : Qc := foldr Qcplus 0 l.

Fixpoint running_from (acc : Qc) (l : list Qc) : list Qc :=
  match l with
  | [] => []
  | x :: l' => (acc + x) :: running_from (acc + x) l'
  end.

Definition amount (c : string) (r : row) : Qc := decimal_of (cell_of r c).

Definition cell_finite (c : cell) : bool :=
  match c with Num (Finite _) => true | _ => false end.

Definition money (a : Qc) : cell := Num (Finite a).

(** [100 * a / b] on amounts. *)
Definition pct (a b : Qc) : cell := Num (fdiv (fmul (Finite (Zq 100)) (Finite a)) (Finite b)).

(** The labels [generate_summary] writes. *)
Definition summary_value_cols : list string :=
  ["Net Sales $"; "Gross Margin $"; "% of Sales"; "Cumulative Sales $";
   "Cumulative Sales %"; "Margin %"; "Cumulative Margin $"; "Cumulative Profit %"].

(** The group of key [k], and the groups in the order [groupby] emits them
    and in the order of the summary. *)
Definition group_record (df : DataFrame) (g : string) (k : cell) : row :=
  <[g := k]>
    (<["Net Sales $" := money (qsum (amount "Net Sales $" <$> members df g k))]>
       (<["Gross Margin $" := money (qsum (amount "Gross Margin $" <$> members df g k))]>
          ∅)).

Definition groups (df : DataFrame) (g : string) : list row :=
  group_record df g <$> group_keys ((λ r, cell_of r g) <$> rows df).

Definition sorted_groups (df : DataFrame) (g : string) : list row :=
  sort_rows false (λ r, cell_of r "Gross Margin $") (groups df g).

(** The columns of a summary of [df] by [g], read off the sorted groups:
    [ns] and [ms] are their net sales and gross margins, in rank order. *)
Record summarises (df : DataFrame) (g : string) (summary : DataFrame) : Prop := {
  sum_columns : columns summary = g :: summary_value_cols;
  sum_key : getitem summary g = Ok ((λ r, cell_of r g) <$> sorted_groups df g);
  sum_net :
    getitem summary "Net Sales $"
    = Ok (money <$> (amount "Net Sales $" <$> sorted_groups df g));
  sum_margin :
    getitem summary "Gross Margin $"
    = Ok (money <$> (amount "Gross Margin $" <$> sorted_groups df g));
  sum_pct_sales :
    getitem summary "% of Sales"
    = Ok ((λ n, pct n (qsum (amount "Net Sales $" <$> rows df)))
            <$> (amount "Net Sales $" <$> sorted_groups df g));
  sum_cum_sales :
    getitem summary "Cumulative Sales $"
    = Ok (money <$> running_from 0 (amount "Net Sales $" <$> sorted_groups df g));
  sum_cum_sales_pct :
    getitem summary "Cumulative Sales %"
    = Ok ((λ c, pct c (qsum (amount "Net Sales $" <$> rows df)))
            <$> running_from 0 (amount "Net Sales $" <$> sorted_groups df g));
  sum_margin_pct :
    getitem summary "Margin %"
    = Ok ((λ r, pct (amount "Gross Margin $" r) (amount "Net Sales $" r))
            <$> sorted_groups df g);
  sum_cum_margin :
    getitem summary "Cumulative Margin $"
    = Ok (money <$> running_from 0 (amount "Gross Margin $" <$> sorted_groups df g));
  sum_cum_profit_pct :
    getitem summary "Cumulative Profit %"
    = Ok ((λ c, pct c (qsum (amount "Gross Margin $" <$> sorted_groups df g)))
            <$> running_from 0 (amount "Gross Margin $" <$> sorted_groups df g))
}.

(** Enriched records as [generate_summary] expects them for the grouping
    label [g]: the labels are there, [g] is not one the summary writes, the
    two amounts are finite numbers and no grouping cell is empty. *)
Record enriched (df : DataFrame) (g : string) : Prop := {
  has_net : "Net Sales $" ∈ columns df;
  has_margin : "Gross Margin $" ∈ columns df;
  has_group : g ∈ columns df;
  group_not_written : g ∉ summary_value_cols;
  net_finite : ∀ r, r ∈ rows df → cell_finite (cell_of r "Net Sales $");
  margin_finite : ∀ r, r ∈ rows df → cell_finite (cell_of r "Gross Margin $");
  group_present : ∀ r, r ∈ rows df → isna (cell_of r g) = false
}.

Definition enrichedb (df : DataFrame) (g : string) : bool :=
  bool_decide ("Net Sales $" ∈ columns df)
  && bool_decide ("Gross Margin $" ∈ columns df)
  && bool_decide (g ∈ columns df)
  && bool_decide (g ∉ summary_value_cols)
  && forallb (λ r, cell_finite (cell_of r "Net Sales $")) (rows df)
  && forallb (λ r, cell_finite (cell_of r "Gross Margin $")) (rows df)
  && forallb (λ r, negb (isna (cell_of r g))) (rows df).

(** The two totals of the enriched records. *)
Definition total_net_sales (df : DataFrame) : Qc :=
  qsum (amount "Net Sales $" <$> rows df).

Definition total_gross_margin (df : DataFrame) : Qc :=
  qsum (amount "Gross Margin $" <$> rows df).

(** The float64 quotient of a nonzero multiple of [a] by zero. *)
Definition over_zero (a : Qc) : cell :=
  Num (if decide (a = 0) then NaN else if decide (0 < a) then PInf else NInf).

(** The pipeline from the two sheets to the summary by [g]. *)
Definition summary_of (sales cost : DataFrame) (g : string) : result DataFrame :=
  merged ← merge_data sales cost; generate_summary merged g.

(** [sheets_ok] as a check that can be run. *)
Definition sheets_okb (sales cost : DataFrame) : bool :=
  bool_decide ("Product ID" ∈ columns sales)
  && bool_decide ("Net Sales $" ∈ columns sales)
  && bool_decide ("Product ID" ∈ columns cost)
  && negb (keys_incompatible
             (key_kind_of ((λ r, cell_of r "Product ID") <$> rows sales))
             (key_kind_of ((λ r, cell_of r "Product ID") <$> rows cost)))
  && forallb (λ c, bool_decide (c ∈ columns cost)) cost_cols
  && forallb (λ c, bool_decide (c ∈ columns cost → c = "Product ID")) (columns sales)
  && forallb (λ r, is_decimal (cell_of r "Net Sales $")) (rows sales)
  && forallb (λ r, forallb (λ c, is_decimal (cell_of r c)) cost_cols) (rows cost).

(** Observations on the outcome of a step. *)
Definition row_count (r : result DataFrame) : option nat :=
  match r with Ok df => Some (length (rows df)) | Raise _ => None end.

Definition column_of (c : string) (r : result DataFrame) : result (list cell) :=
  df ← r; getitem df c.

(** The frame that [merge] hands to [fillna]. *)
Definition joined_frame (sales cost : DataFrame) : DataFrame :=
  {| columns := merge_columns "Product ID" (columns sales) (columns cost);
     rows := rows sales ≫= join_row "Product ID" sales cost |}.

(** No column that holds text has an empty cell: the frames on which
    [fillna(0)] does the same in every version of pandas. *)
Definition text_columns_full (df : DataFrame) : Prop :=
  Forall (λ c, Exists (λ r, is_str (cell_of r c)) (rows df) →
               Forall (λ r, isna (cell_of r c) = false) (rows df))
    (columns df).

Definition no_text_gap (sales cost : DataFrame) : Prop :=
  text_columns_full (joined_frame sales cost).

(** The two sheets as [merge_data] needs them, labels shared by the two
    sheets allowed: both have Product ID, with key columns that pandas
    merges; Net Sales $ is a label of the sales sheet only and the five cost
    labels are labels of the cost sheet only; the labels of the merged frame
    are distinct; the amounts are finite numbers or empty; and no column of
    the merged frame that holds text has an empty cell. *)
Record sheets_fit (sales cost : DataFrame) : Prop := {
  fit_sales_key : "Product ID" ∈ columns sales;
  fit_cost_key : "Product ID" ∈ columns cost;
  fit_keys :
    keys_refused ((λ r, cell_of r "Product ID") <$> rows sales)
      ((λ r, cell_of r "Product ID") <$> rows cost) = false;
  fit_net : "Net Sales $" ∈ columns sales ∧ ("Net Sales $" ∉ columns cost);
  fit_costs : ∀ c, c ∈ cost_cols → c ∈ columns cost ∧ (c ∉ columns sales);
  fit_labels : NoDup (merge_columns "Product ID" (columns sales) (columns cost));
  fit_net_decimal : ∀ r, r ∈ rows sales → is_decimal (cell_of r "Net Sales $");
  fit_costs_decimal : ∀ r c, r ∈ rows cost → c ∈ cost_cols → is_decimal (cell_of r c);
  fit_text : no_text_gap sales cost
}.

(** Whole-number amounts under the label [c], small enough for float64 to
    add them, and to multiply their sums by 100, without rounding: on such
    amounts the exact sums written here are the sums the program computes,
    in whatever order it adds. *)
Definition magnitude (a : Qc) : Qc := if decide (0 ≤ a) then a else - a.

Definition exact_amounts (c : string) (df : DataFrame) : Prop :=
  Forall (λ r, is_integer_cell (cell_of r c)) (rows df)
  ∧ Zq 100 * qsum ((λ r, magnitude (amount c r)) <$> rows df) < Zq (2 ^ 53).

(** ** Further sheets used as examples *)

Definition sales_cols : list string :=
  ["Customer ID"; "Product ID"; "Net Sales $"; "Salesperson"; "Region"].

Definition all_cost_cols : list string :=
  ["Product ID"; "Standard Total Cost"; "Material Cost"; "Labor Cost";
   "Overhead Cost"; "Service Cost"].

Definition sale (customer product : string) (net : cell) (person region : string) : row :=
  mk_row [("Customer ID", Str customer); ("Product ID", Str product);
          ("Net Sales $", net); ("Salesperson", Str person); ("Region", Str region)].

Definition cost_record (product : string) (total material labor overhead service : cell)
    : row :=
  mk_row [("Product ID", Str product); ("Standard Total Cost", total);
          ("Material Cost", material); ("Labor Cost", labor);
          ("Overhead Cost", overhead); ("Service Cost", service)].

(** One invoice line, as in the end-to-end example. *)
Definition one_sale : DataFrame :=
  {| columns := sales_cols;
     rows := [sale "C001" "P101" (num 12000) "Sally" "North"] |}.

(** Two cost records for the same product. *)
Definition twice_costed : DataFrame :=
  {| columns := all_cost_cols;
     rows := [cost_record "P101" (num 7200) empty_cell empty_cell empty_cell empty_cell;
              cost_record "P101" (num 7000) empty_cell empty_cell empty_cell empty_cell] |}.

(** A cost sheet with the standard total cost only, one with the four
    components only, and one with the product label alone. *)
Definition cost_total_only : DataFrame :=
  {| columns := ["Product ID"; "Standard Total Cost"];
     rows := [mk_row [("Product ID", Str "P101"); ("Standard Total Cost", num 7200)]] |}.

Definition cost_components_only : DataFrame :=
  {| columns := ["Product ID"; "Material Cost"; "Labor Cost"; "Overhead Cost";
                 "Service Cost"];
     rows := [mk_row [("Product ID", Str "P102"); ("Material Cost", num 3000);
                      ("Labor Cost", num 2000); ("Overhead Cost", num 1500);
                      ("Service Cost", num 1000)]] |}.

Definition cost_ids_only : DataFrame :=
  {| columns := ["Product ID"]; rows := [mk_row [("Product ID", Str "P101")]] |}.

(** A transaction whose Net Sales $ cell is empty. *)
Definition sales_with_gap : DataFrame :=
  {| columns := sales_cols;
     rows := [sale "C001" "P101" empty_cell "Sally" "North";
              sale "C002" "P102" (num 9500) "Jim" "West"] |}.

(** A cost record with a standard total cost and all components set, and one
    with the components only. *)
Definition cost_total_and_components : row :=
  cost_record "P101" (num 7200) (num 100) (num 200) (num 300) (num 400).

Definition cost_components : row :=
  cost_record "P102" empty_cell (num 3000) (num 2000) (num 1500) (num 1000).

(** A small summary to rank: four customers, one of them without sales. *)
Definition ranked_example : DataFrame :=
  {| columns := ["Customer ID"; "Net Sales $"; "Margin %"];
     rows := [ mk_row [("Customer ID", Str "C001"); ("Net Sales $", num 500);
                       ("Margin %", num 40)];
               mk_row [("Customer ID", Str "C002"); ("Net Sales $", num 900);
                       ("Margin %", num 25)];
               mk_row [("Customer ID", Str "C003"); ("Net Sales $", num 0);
                       ("Margin %", Num NaN)];
               mk_row [("Customer ID", Str "C004"); ("Net Sales $", num 700);
                       ("Margin %", num 40)] ] |}.

(** Enriched records as they come out of the merge, cut down to the labels
    the summary reads: customer C003 sold nothing and lost its cost. *)
Definition enriched_example : DataFrame :=
  {| columns := ["Customer ID"; "Net Sales $"; "Gross Margin $"];
     rows := [ mk_row [("Customer ID", Str "C002"); ("Net Sales $", num 9500);
                       ("Gross Margin $", num 2000)];
               mk_row [("Customer ID", Str "C001"); ("Net Sales $", num 12000);
                       ("Gross Margin $", num 4800)];
               mk_row [("Customer ID", Str "C003"); ("Net Sales $", num 0);
                       ("Gross Margin $", num (-300))];
               mk_row [("Customer ID", Str "C001"); ("Net Sales $", num 3500);
                       ("Gross Margin $", num 1500)] ] |}.

(** One costed product per sale, the cost given as a standard total cost. *)
Definition costed (product : string) (total : Z) : row :=
  cost_record product (num total) empty_cell empty_cell empty_cell empty_cell.

(** A profitable customer and a loss-making one. *)
Definition swing_sales : DataFrame :=
  {| columns := sales_cols;
     rows := [sale "C001" "P101" (num 100) "Sally" "North";
              sale "C002" "P102" (num 10) "Jim" "West"] |}.

Definition swing_cost : DataFrame :=
  {| columns := all_cost_cols; rows := [costed "P101" 50; costed "P102" 40] |}.

(** A sale at price zero of a product that costs 5. *)
Definition free_sale : DataFrame :=
  {| columns := sales_cols; rows := [sale "C001" "P101" (num 0) "Sally" "North"] |}.

Definition free_cost : DataFrame :=
  {| columns := all_cost_cols; rows := [costed "P101" 5] |}.

(** Two customers with the same margin, Zed invoiced before Amy. *)
Definition tied_sales : DataFrame :=
  {| columns := sales_cols;
     rows := [sale "Zed" "P101" (num 100) "Sally" "North";
              sale "Amy" "P101" (num 100) "Jim" "West"] |}.

Definition tied_cost : DataFrame :=
  {| columns := all_cost_cols; rows := [costed "P101" 50] |}.

(** The same two invoices, Amy's first. *)
Definition tied_sales_swapped : DataFrame :=
  {| columns := sales_cols;
     rows := [sale "Amy" "P101" (num 100) "Jim" "West";
              sale "Zed" "P101" (num 100) "Sally" "North"] |}.

(** A sales sheet with a Notes column, which the cost sheet has too. *)
Definition noted_sales : DataFrame :=
  {| columns := sales_cols ++ ["Notes"];
     rows := [<["Notes" := Str "rush"]> (sale "C001" "P101" (num 12000) "Sally" "North");
              <["Notes" := Str "none"]> (sale "C002" "P101" (num 9500) "Jim" "West")] |}.

Definition noted_cost : DataFrame :=
  {| columns := all_cost_cols ++ ["Notes"];
     rows := [<["Notes" := Str "list price"]> (costed "P101" 7200)] |}.

(** A sales sheet of which only the header row is there, against a cost
    sheet whose Product IDs are floating numbers. *)
Definition header_only_sales : DataFrame := {| columns := sales_cols; rows := [] |}.

Definition float_key_cost : DataFrame :=
  {| columns := all_cost_cols;
     rows := [<["Product ID" := Num (Finite (Q2Qc (3 # 2)))]> (costed "P101" 7200)] |}.

(** Sheets whose labels collide once the merge has added its suffixes: the
    sales sheet has A and A_x, the cost sheet has A. *)
Definition clash_sales : DataFrame :=
  {| columns := sales_cols ++ ["A"; "A_x"];
     rows := [<["A" := num 1]> (<["A_x" := num 2]>
                (sale "C001" "P101" (num 12000) "Sally" "North"))] |}.

Definition clash_cost : DataFrame :=
  {| columns := all_cost_cols ++ ["A"];
     rows := [<["A" := num 3]> (costed "P101" 7200)] |}.

(** * Properties *)

(** ** The exception monad *)

Lemma bind_Ok_inv {A B} (m : result A) (f : A → result B) (b : B) :
  m ≫= f = Ok b → ∃ a, m = Ok a ∧ f a = Ok b.
Proof. destruct m as [a|e]; [eauto | discriminate]. Qed.

Lemma traverse_fmap {A B C} (f : B → result C) (g : A → B) (h : A → C) (l : list A) :
  (∀ x, x ∈ l → f (g x) = Ok (h x)) →
  traverse f (g <$> l) = Ok (h <$> l).
Proof.
  induction l as [|x l IH]; intros Hf; [done|].
  cbn. rewrite (Hf x) by left. cbn.
  rewrite IH; [done|]. intros y Hy. apply Hf. by right.
Qed.

Lemma traverse_id_fmap {A C} (f : A → result C) (h : A → C) (l : list A) :
  (∀ x, x ∈ l → f x = Ok (h x)) → traverse f l = Ok (h <$> l).
Proof.
  intros Hf. rewrite <- (list_fmap_id l) at 1. by apply traverse_fmap.
Qed.

Lemma traverse_length {A B} (f : A → result B) (l : list A) (l' : list B) :
  traverse f l = Ok l' → length l' = length l.
Proof.
  revert l'. induction l as [|x l IH]; intros l' H; cbn in H.
  - by inversion H.
  - apply bind_Ok_inv in H as (b & _ & H).
    apply bind_Ok_inv in H as (bs & Hbs & H). inversion H; subst.
    cbn. f_equal. by apply IH.
Qed.

Lemma zip_fmap_same {A B C} (g : A → B) (h : A → C) (l : list A) :
  zip (g <$> l) (h <$> l) = (λ x, (g x, h x)) <$> l.
Proof. induction l; cbn; [done | by f_equal]. Qed.

Lemma np_where_fmap {A} (c : A → bool) (a b : A → cell) (l : list A) :
  np_where (c <$> l) (a <$> l) (b <$> l) = (λ x, if c x then a x else b x) <$> l.
Proof. unfold np_where. induction l; cbn; [done | by f_equal]. Qed.

(** ** Rows and columns *)

Lemma cell_of_insert (r : row) (c c' : string) (v : cell) :
  cell_of (<[c := v]> r) c' = if decide (c = c') then v else cell_of r c'.
Proof.
  unfold cell_of. rewrite lookup_insert. by destruct (decide (c = c')).
Qed.

Lemma cell_of_fill_row (v : cell) (cols : list string) (r : row) (c : string) :
  cell_of (fill_row v cols r) c
  = if decide (c ∈ cols) then (if isna (cell_of r c) then v else cell_of r c)
    else cell_of r c.
Proof.
  unfold fill_row. induction cols as [|c0 cols IH]; cbn.
  - rewrite decide_False; [done | by apply not_elem_of_nil].
  - destruct (decide (c0 = c)) as [->|Hne].
    + rewrite (decide_True (P := c ∈ c :: cols)) by left.
      destruct (isna (cell_of r c)) eqn:Hna.
      * rewrite cell_of_insert. by rewrite decide_True.
      * rewrite IH. by destruct (decide (c ∈ cols)).
    + assert (Hiff : c ∈ c0 :: cols ↔ c ∈ cols).
      { rewrite elem_of_cons. naive_solver. }
      rewrite (decide_ext _ _ _ _ Hiff).
      destruct (isna (cell_of r c0)); [|done].
      rewrite cell_of_insert. by rewrite decide_False.
Qed.

Lemma cell_of_from_labels (f : string → cell) (cols : list string) (c : string) :
  cell_of (list_to_map ((λ c, (c, f c)) <$> cols)) c
  = if decide (c ∈ cols) then f c else Num NaN.
Proof.
  unfold cell_of. induction cols as [|c0 cols IH]; cbn.
  - rewrite lookup_empty. cbn. rewrite decide_False; [done | by apply not_elem_of_nil].
  - rewrite lookup_insert. destruct (decide (c0 = c)) as [->|Hne].
    + cbn. by rewrite decide_True by left.
    + rewrite IH. apply decide_ext. rewrite elem_of_cons. naive_solver.
Qed.

Lemma getitem_Ok (df : DataFrame) (c : string) :
  c ∈ columns df → getitem df c = Ok ((λ r, cell_of r c) <$> rows df).
Proof. intros H. unfold getitem. by rewrite decide_True. Qed.

Lemma getitem_Ok_inv (df : DataFrame) (c : string) (s : list cell) :
  getitem df c = Ok s → c ∈ columns df ∧ s = (λ r, cell_of r c) <$> rows df.
Proof. unfold getitem. case_decide; [|discriminate]. by inversion 1. Qed.

Lemma setitem_fmap (df : DataFrame) (c : string) (f : row → cell) :
  rows (setitem df c (f <$> rows df)) = (λ r, <[c := f r]> r) <$> rows df.
Proof.
  cbn. induction (rows df) as [|r l IH]; cbn; [done | by f_equal].
Qed.

Lemma elem_of_setitem_columns (df : DataFrame) (c c' : string) (v : list cell) :
  c' ∈ columns (setitem df c v) ↔ c' = c ∨ c' ∈ columns df.
Proof.
  cbn. case_decide.
  - naive_solver.
  - rewrite elem_of_app, list_elem_of_singleton. naive_solver.
Qed.

(** With a value for every row, the assigned column reads back as assigned
    and the other columns are untouched. *)
Lemma getitem_setitem (df : DataFrame) (c c' : string) (v : list cell) :
  length v = length (rows df) →
  getitem (setitem df c v) c'
  = if decide (c' = c) then Ok v else getitem df c'.
Proof.
  intros Hlen. unfold getitem.
  assert (Hrows : ∀ v l, length v = length l →
    (λ r, cell_of r c') <$> zip_with (λ r x, <[c := x]> r) l v
    = if decide (c' = c) then v else (λ r, cell_of r c') <$> l).
  { clear. intros v l. revert v. induction l as [|r l IH]; intros [|x v] Hl;
      try discriminate.
    - by case_decide.
    - cbn. rewrite cell_of_insert, IH by (cbn in Hl; lia).
      destruct (decide (c' = c)) as [->|Hne].
      + by rewrite decide_True.
      + by rewrite decide_False by done. }
  pose proof (elem_of_setitem_columns df c c' v) as Hcol.
  destruct (decide (c' = c)) as [->|Hne].
  - case_decide as Hin; [|naive_solver].
    f_equal. cbn [rows setitem]. by rewrite Hrows.
  - repeat case_decide; try naive_solver.
    f_equal. cbn [rows setitem]. by rewrite Hrows.
Qed.

Lemma setitem_length (df : DataFrame) (c : string) (v : list cell) :
  length v = length (rows df) → length (rows (setitem df c v)) = length (rows df).
Proof. intros H. cbn. rewrite length_zip_with. lia. Qed.

(** ** Labels after the merge *)

Lemma string_length_app (s t : string) :
  String.length (s +:+ t) = (String.length s + String.length t)%nat.
Proof. induction s as [|a s IH]; [done|]. simpl. by f_equal. Qed.

Lemma app_last_char (c : string) (a b : Ascii.ascii) :
  String.get (S (String.length c)) (c +:+ String a (String b EmptyString)) = Some b.
Proof. induction c as [|x c IH]; [done|]. exact IH. Qed.

(** A label whose last character is not [b] is no label with a two-character
    suffix ending in [b]. *)
Lemma plain_label (L : string) (a b : Ascii.ascii) (c : string) :
  String.get (String.length L - 1) L ≠ Some b →
  L ≠ c +:+ String a (String b EmptyString).
Proof.
  intros Hne ->. apply Hne. rewrite string_length_app. cbn.
  replace (String.length c + 2 - 1)%nat with (S (String.length c)) by lia.
  apply app_last_char.
Qed.

Lemma amount_labels_plain (L : string) :
  L ∈ "Net Sales $" :: cost_cols →
  (∀ c, L ≠ c +:+ "_x") ∧ (∀ c, L ≠ c +:+ "_y") ∧ L ≠ "Product ID".
Proof.
  unfold cost_cols. rewrite !elem_of_cons, elem_of_nil.
  intros H. repeat split; try intros c;
    destruct H as [->|[->|[->|[->|[->|[->|[]]]]]]];
    try (apply plain_label; cbn; discriminate); discriminate.
Qed.

(** A label without suffix is a label of the merged frame exactly when it is
    a label of one of the two frames and not of the other. *)
Lemma elem_of_merge_columns (key L : string) (lcols rcols : list string) :
  (∀ c, L ≠ c +:+ "_x") → (∀ c, L ≠ c +:+ "_y") → L ≠ key →
  L ∈ merge_columns key lcols rcols
  ↔ (L ∈ lcols ∧ L ∉ rcols) ∨ (L ∈ rcols ∧ L ∉ lcols).
Proof.
  intros Hx Hy Hk. unfold merge_columns, right_labels.
  rewrite elem_of_app, !list_elem_of_fmap. split.
  - intros [(c & HL & Hc) | (c & HL & Hc)].
    + unfold suffix_x in HL. case_decide as Hd; [by destruct (Hx c)|]. subst c.
      left. split; [done|]. intros ?. apply Hd. done.
    + apply list_elem_of_filter in Hc as [Hck Hc].
      unfold suffix_y in HL. case_decide as Hd; [by destruct (Hy c)|]. subst c.
      right. done.
  - intros [[Hl Hr] | [Hr Hl]].
    + left. exists L. split; [|done]. unfold suffix_x.
      rewrite decide_False; [done|]. tauto.
    + right. exists L. split.
      * unfold suffix_y. by rewrite decide_False.
      * apply list_elem_of_filter. done.
Qed.

(** ** The tests of the merge *)

Lemma new_dups_id (f : string → string) (seen cols : list string) :
  (∀ c, c ∈ seen ++ cols → f c = c) → new_dups f seen cols = false.
Proof.
  revert seen. induction cols as [|c cols IH]; intros seen Hf; [done|].
  cbn [new_dups]. rewrite IH; cycle 1.
  { intros c' Hc'. apply Hf. rewrite <- app_assoc in Hc'. done. }
  rewrite orb_false_r.
  assert (f <$> seen = seen) as ->.
  { rewrite <- (list_fmap_id seen) at 2. apply list_fmap_ext.
    intros i c' Hc'. apply Hf, elem_of_app. left. by eapply list_elem_of_lookup_2. }
  rewrite Hf by (apply elem_of_app; right; left).
  by destruct (bool_decide (c ∈ seen)).
Qed.

Lemma new_dups_NoDup (f : string → string) (seen cols : list string) :
  NoDup (f <$> (seen ++ cols)) → new_dups f seen cols = false.
Proof.
  revert seen. induction cols as [|c cols IH]; intros seen Hnd; [done|].
  cbn [new_dups]. rewrite IH; cycle 1.
  { by rewrite <- app_assoc. }
  rewrite orb_false_r. rewrite fmap_app, fmap_cons in Hnd.
  apply NoDup_app in Hnd as (_ & Hdisj & _).
  rewrite bool_decide_eq_false_2; [done|].
  intros Hin. apply (Hdisj _ Hin). left.
Qed.

Lemma keys_refused_compatible (lk rk : list cell) :
  keys_incompatible (key_kind_of lk) (key_kind_of rk) = false →
  keys_refused lk rk = false.
Proof. intros H. unfold keys_refused. by rewrite H, andb_false_r. Qed.

Lemma cell_finite_decimal (c : cell) :
  cell_finite c → c = Num (Finite (decimal_of c)).
Proof. by destruct c as [[| | |]|]. Qed.

(** ** The merge *)

Section merge_facts.
Context (sales cost : DataFrame).
Hypothesis Hok : sheets_ok sales cost.

Lemma suffix_x_id (c : string) :
  c ∈ columns sales → suffix_x "Product ID" (columns cost) c = c.
Proof using Hok.
  intros Hc. unfold suffix_x. case_decide as H; [|done].
  destruct H as [Hne Hin]. destruct Hne. by apply (no_shared_label _ _ Hok).
Qed.

Lemma suffix_y_id (c : string) :
  c ∈ right_labels "Product ID" (columns cost) → suffix_y (columns sales) c = c.
Proof using Hok.
  unfold right_labels. rewrite list_elem_of_filter. intros [Hne Hin].
  unfold suffix_y. case_decide as H; [|done].
  destruct Hne. by apply (no_shared_label _ _ Hok).
Qed.

Lemma left_part_labels (l : row) :
  left_part "Product ID" (columns sales) (columns cost) l
  = list_to_map ((λ c, (c, cell_of l c)) <$> columns sales).
Proof using Hok.
  unfold left_part. f_equal. apply list_fmap_ext.
  intros i c Hc. f_equal. apply suffix_x_id. by eapply list_elem_of_lookup_2.
Qed.

Lemma right_part_labels (k : row) :
  right_part "Product ID" (columns sales) (columns cost) k
  = list_to_map ((λ c, (c, cell_of k c)) <$> right_labels "Product ID" (columns cost)).
Proof using Hok.
  unfold right_part. f_equal. apply list_fmap_ext.
  intros i c Hc. f_equal. apply suffix_y_id. by eapply list_elem_of_lookup_2.
Qed.

Lemma merge_columns_labels :
  merge_columns "Product ID" (columns sales) (columns cost)
  = columns sales ++ right_labels "Product ID" (columns cost).
Proof using Hok.
  unfold merge_columns. f_equal.
  - rewrite <- (list_fmap_id (columns sales)) at 2. apply list_fmap_ext.
    intros i c Hc. apply suffix_x_id. by eapply list_elem_of_lookup_2.
  - rewrite <- (list_fmap_id (right_labels _ _)) at 2. apply list_fmap_ext.
    intros i c Hc. apply suffix_y_id. by eapply list_elem_of_lookup_2.
Qed.

Lemma merge_rows_joined :
  rows sales ≫= join_row "Product ID" sales cost = pre_row sales cost <$> joined sales cost.
Proof.
  unfold joined. induction (rows sales) as [|l ls IH]; [done|].
  rewrite !bind_cons, fmap_app, IH. f_equal.
  unfold join_row. destruct (matches "Product ID" cost l) as [|k ms]; [done|].
  by rewrite <- list_fmap_compose.
Qed.

Lemma cell_of_pre_row (p : row * option row) (c : string) :
  cell_of (pre_row sales cost p) c
  = if decide (c ∈ columns sales) then cell_of p.1 c
    else if decide (c ∈ columns cost ∧ c ≠ "Product ID")
         then from_option (λ k, cell_of k c) (Num NaN) p.2
         else Num NaN.
Proof using Hok.
  unfold pre_row. rewrite left_part_labels.
  pose proof (cell_of_from_labels (cell_of p.1) (columns sales) c) as Hl.
  destruct p as [l [k|]]; cbn [fst snd from_option] in *.
  - rewrite right_part_labels.
    pose proof (cell_of_from_labels (cell_of k) (right_labels "Product ID" (columns cost)) c) as Hr.
    unfold cell_of at 1. rewrite lookup_union.
    unfold cell_of at 1 in Hl. unfold cell_of at 1 in Hr.
    destruct (decide (c ∈ columns sales)) as [Hin|Hnin].
    + destruct (list_to_map _ !! c) as [x|] eqn:Hx at 1.
      * rewrite Hx in Hl. cbn in Hl. subst x.
        by destruct (list_to_map _ !! c).
      * apply not_elem_of_list_to_map in Hx. destruct Hx.
        rewrite <- list_fmap_compose. cbn. by rewrite list_fmap_id.
    + assert (list_to_map ((λ c0, (c0, cell_of l c0)) <$> columns sales)
                !! c = (None : option cell)) as ->.
      { apply not_elem_of_list_to_map.
        rewrite <- list_fmap_compose. cbn. by rewrite list_fmap_id. }
      rewrite (left_id_L None _). rewrite Hr.
      apply decide_ext. unfold right_labels. rewrite list_elem_of_filter. tauto.
  - rewrite Hl. case_decide; [done|]. by case_decide.
Qed.

Lemma elem_of_joined (p : row * option row) :
  p ∈ joined sales cost →
  p.1 ∈ rows sales ∧ ∀ k, p.2 = Some k → k ∈ rows cost.
Proof.
  unfold joined. rewrite list_elem_of_bind. intros (l & Hp & Hl).
  destruct (matches "Product ID" cost l) as [|k0 ms] eqn:Hm.
  - apply list_elem_of_singleton in Hp as ->. by split.
  - apply list_elem_of_fmap in Hp as (k & -> & Hk). split; [done|].
    intros k' [= <-]. rewrite <- Hm in Hk.
    unfold matches in Hk. by apply list_elem_of_filter in Hk as [_ ?].
Qed.

Lemma cost_col_facts (c : string) :
  c ∈ cost_cols →
  c ∈ columns cost ∧ c ≠ "Product ID" ∧ (c ∉ columns sales) ∧ (c ∉ derived_cols).
Proof using Hok.
  intros Hc. assert (c ≠ "Product ID" ∧ c ∉ derived_cols) as [Hne Hnd].
  { unfold cost_cols, derived_cols in *.
    repeat (apply elem_of_cons in Hc as [->|Hc]); [..|by apply elem_of_nil in Hc];
      (split; [done|]); rewrite !not_elem_of_cons; (repeat split; [done..|]);
      apply not_elem_of_nil. }
  repeat split; try done.
  - by apply (cost_has_costs _ _ Hok).
  - intros Hs. apply Hne, (no_shared_label _ _ Hok); [done|].
    by apply (cost_has_costs _ _ Hok).
Qed.

Lemma cell_of_filled_row (p : row * option row) (c : string) :
  cell_of (filled_row sales cost p) c
  = if decide (c ∈ columns sales) then fill0 (cell_of p.1 c)
    else if decide (c ∈ columns cost ∧ c ≠ "Product ID")
         then fill0 (from_option (λ k, cell_of k c) (Num NaN) p.2)
         else Num NaN.
Proof using Hok.
  unfold filled_row. rewrite cell_of_fill_row, merge_columns_labels.
  rewrite cell_of_pre_row. unfold fill0.
  assert (Hiff : c ∈ columns sales ++ right_labels "Product ID" (columns cost)
                 ↔ c ∈ columns sales ∨ (c ∈ columns cost ∧ c ≠ "Product ID")).
  { rewrite elem_of_app. unfold right_labels. rewrite list_elem_of_filter. tauto. }
  repeat case_decide; try done; tauto.
Qed.

Lemma fill0_decimal (c : cell) :
  is_decimal c → fill0 c = Num (Finite (decimal_of c)).
Proof. by destruct c as [[| | |]|]. Qed.

Lemma filled_cost_cell (p : row * option row) (c : string) :
  p ∈ joined sales cost → c ∈ cost_cols →
  cell_of (filled_row sales cost p) c
  = Num (Finite (decimal_of (from_option (λ k, cell_of k c) (Num NaN) p.2))).
Proof using Hok.
  intros Hp Hc. destruct (cost_col_facts c Hc) as (Hin & Hne & Hns & _).
  rewrite cell_of_filled_row. rewrite decide_False by done.
  rewrite decide_True by done. apply fill0_decimal.
  destruct (elem_of_joined p Hp) as [_ Hk].
  destruct (p.2) as [k|]; [|done]. cbn.
  apply (costs_decimal _ _ Hok); [by apply Hk | done].
Qed.

Lemma filled_net_cell (p : row * option row) :
  p ∈ joined sales cost →
  cell_of (filled_row sales cost p) "Net Sales $"
  = Num (Finite (decimal_of (cell_of p.1 "Net Sales $"))).
Proof using Hok.
  intros Hp. rewrite cell_of_filled_row.
  rewrite decide_True by apply (sales_has_net _ _ Hok).
  apply fill0_decimal, (net_decimal _ _ Hok). by apply elem_of_joined.
Qed.

Lemma getitem_fmap {A} (df : DataFrame) (h : A → row) (L : list A) (c : string) :
  rows df = h <$> L → c ∈ columns df →
  getitem df c = Ok ((λ x, cell_of (h x) c) <$> L).
Proof.
  intros Hr Hc. rewrite getitem_Ok by done. rewrite Hr.
  by rewrite <- list_fmap_compose.
Qed.

Lemma setitem_rows_fmap {A} (df : DataFrame) (h : A → row) (f : A → cell)
    (L : list A) (c : string) :
  rows df = h <$> L →
  rows (setitem df c (f <$> L)) = (λ x, <[c := f x]> (h x)) <$> L.
Proof.
  intros Hr. cbn. rewrite Hr. clear. induction L; cbn; [done | by f_equal].
Qed.

(** The steps of [merge_data] after the merge, row by row, from what they
    need: the labels they read are labels of the merged frame, and the cells
    under them are finite numbers once filled. *)
Lemma merge_data_rows_core :
  merge sales cost "Product ID" = Ok (joined_frame sales cost) →
  (∀ c, c ∈ "Net Sales $" :: cost_cols →
        c ∈ merge_columns "Product ID" (columns sales) (columns cost)) →
  (∀ c p, c ∈ "Net Sales $" :: cost_cols → p ∈ joined sales cost →
          cell_finite (cell_of (filled_row sales cost p) c)) →
  ∃ merged, merge_data sales cost = Ok merged
    ∧ rows merged = (enriched_row ∘ filled_row sales cost) <$> joined sales cost
    ∧ ∀ c, c ∈ columns merged
           ↔ c ∈ merge_columns "Product ID" (columns sales) (columns cost)
             ∨ c ∈ derived_cols.
Proof using Type.
  intros Hmerge Hlabels Hfinite.
  set (J := joined sales cost). set (g := filled_row sales cost).
  set (M1 := fillna (Num (Finite 0)) (joined_frame sales cost)).
  assert (HM1 : rows M1 = g <$> J).
  { unfold M1, joined_frame. cbn. rewrite merge_rows_joined.
    by rewrite <- list_fmap_compose. }
  assert (Hin : ∀ c, c ∈ "Net Sales $" :: cost_cols ↔ c = "Net Sales $"
            ∨ c = "Standard Total Cost" ∨ c = "Material Cost"
            ∨ c = "Labor Cost" ∨ c = "Overhead Cost" ∨ c = "Service Cost").
  { intros c. unfold cost_cols. rewrite !elem_of_cons, elem_of_nil. tauto. }
  assert (Hcc : ∀ c, c ∈ "Net Sales $" :: cost_cols → c ∈ columns M1).
  { intros c Hc. by apply Hlabels. }
  assert (Hnum : ∀ c p, c ∈ "Net Sales $" :: cost_cols → p ∈ J →
            cell_of (g p) c = Num (Finite (decimal_of (cell_of (g p) c)))).
  { intros c p Hc Hp. by apply cell_finite_decimal, Hfinite. }
  unfold merge_data, series_gt0, series_add, series_sub.
  rewrite Hmerge. cbn [mbind result_bind]. fold M1.
  rewrite (getitem_fmap M1 g J "Standard Total Cost") by (auto; apply Hcc, Hin; tauto).
  cbn [mbind result_bind].
  rewrite (traverse_fmap _ _
    (λ p, bool_decide (0 < decimal_of (cell_of (g p) "Standard Total Cost")))); cycle 1.
  { intros p Hp. rewrite (Hnum "Standard Total Cost" p) by (auto; apply Hin; tauto).
    done. }
  cbn [mbind result_bind].
  rewrite (getitem_fmap M1 g J "Material Cost") by (auto; apply Hcc, Hin; tauto).
  rewrite (getitem_fmap M1 g J "Labor Cost") by (auto; apply Hcc, Hin; tauto).
  cbn [mbind result_bind]. rewrite zip_fmap_same.
  rewrite (traverse_fmap _ _
    (λ p, Num (Finite (decimal_of (cell_of (g p) "Material Cost")
                       + decimal_of (cell_of (g p) "Labor Cost"))))); cycle 1.
  { intros p Hp. rewrite (Hnum "Material Cost" p) by (auto; apply Hin; tauto).
    rewrite (Hnum "Labor Cost" p) by (auto; apply Hin; tauto). done. }
  cbn [mbind result_bind].
  rewrite (getitem_fmap M1 g J "Overhead Cost") by (auto; apply Hcc, Hin; tauto).
  cbn [mbind result_bind]. rewrite zip_fmap_same.
  rewrite (traverse_fmap _ _
    (λ p, Num (Finite (decimal_of (cell_of (g p) "Material Cost")
                       + decimal_of (cell_of (g p) "Labor Cost")
                       + decimal_of (cell_of (g p) "Overhead Cost"))))); cycle 1.
  { intros p Hp. rewrite (Hnum "Overhead Cost" p) by (auto; apply Hin; tauto). done. }
  cbn [mbind result_bind].
  rewrite (getitem_fmap M1 g J "Service Cost") by (auto; apply Hcc, Hin; tauto).
  cbn [mbind result_bind]. rewrite zip_fmap_same.
  rewrite (traverse_fmap _ _ (λ p, Num (Finite (component_sum (g p))))); cycle 1.
  { intros p Hp. rewrite (Hnum "Service Cost" p) by (auto; apply Hin; tauto). done. }
  cbn [mbind result_bind]. rewrite np_where_fmap.
  set (uc := λ p, if bool_decide (0 < decimal_of (cell_of (g p) "Standard Total Cost"))
                  then cell_of (g p) "Standard Total Cost"
                  else Num (Finite (component_sum (g p)))).
  assert (Huc : ∀ p, p ∈ J → uc p = unit_cost_cell (g p)).
  { intros p Hp. unfold uc, unit_cost_cell. cbn zeta.
    case_bool_decide; [|by rewrite decide_False].
    rewrite decide_True by done.
    apply (Hnum "Standard Total Cost" p); [apply Hin; tauto | done]. }
  set (M2 := setitem M1 "Unit Cost" (uc <$> J)).
  assert (HM2 : rows M2 = (λ p, <["Unit Cost" := uc p]> (g p)) <$> J).
  { by apply setitem_rows_fmap. }
  rewrite (getitem_fmap M2 _ J "Net Sales $" HM2); cycle 1.
  { apply elem_of_setitem_columns. right. apply Hcc, Hin. tauto. }
  rewrite (getitem_fmap M2 _ J "Unit Cost" HM2); cycle 1.
  { apply elem_of_setitem_columns. by left. }
  cbn [mbind result_bind]. rewrite zip_fmap_same.
  rewrite (traverse_fmap _ _ (λ p, margin_cell (g p))); cycle 1.
  { intros p Hp. rewrite !cell_of_insert.
    rewrite decide_False by done. rewrite decide_True by done.
    rewrite (Hnum "Net Sales $" p), Huc by (done || (apply Hin; tauto)). done. }
  cbn [mbind result_bind]. eexists. split; [done|]. split.
  - rewrite (setitem_rows_fmap M2 _ _ J _ HM2).
    apply list_fmap_ext. intros i p Hp.
    unfold compose, enriched_row.
    by rewrite Huc by (by eapply list_elem_of_lookup_2).
  - intros c. rewrite elem_of_setitem_columns. unfold M2.
    rewrite elem_of_setitem_columns.
    unfold derived_cols. rewrite !elem_of_cons, elem_of_nil.
    unfold M1, joined_frame. cbn [columns fillna]. tauto.
Qed.

Lemma merge_Ok :
  merge sales cost "Product ID" = Ok (joined_frame sales cost).
Proof using Hok.
  unfold merge.
  rewrite (decide_True (P := "Product ID" ∈ columns sales))
    by apply (sales_has_key _ _ Hok).
  rewrite (decide_True (P := "Product ID" ∈ columns cost))
    by apply (cost_has_key _ _ Hok).
  rewrite keys_refused_compatible by apply (keys_compatible _ _ Hok).
  unfold suffix_clash.
  rewrite !new_dups_id; [done | |].
  - intros c Hc. by apply suffix_y_id.
  - intros c Hc. by apply suffix_x_id.
Qed.

(** The result of [merge_data], row by row. *)
Lemma merge_data_rows :
  ∃ merged, merge_data sales cost = Ok merged
    ∧ rows merged = (enriched_row ∘ filled_row sales cost) <$> joined sales cost
    ∧ ∀ c, c ∈ columns merged
           ↔ c ∈ columns sales ∨ c ∈ columns cost ∨ c ∈ derived_cols.
Proof using Hok.
  assert (Hcols : ∀ c, c ∈ merge_columns "Product ID" (columns sales) (columns cost)
                       ↔ c ∈ columns sales ∨ (c ∈ columns cost ∧ c ≠ "Product ID")).
  { intros c. rewrite merge_columns_labels.
    rewrite elem_of_app. unfold right_labels. rewrite list_elem_of_filter. tauto. }
  destruct (merge_data_rows_core merge_Ok) as (merged & Hm & Hrows & Hmc).
  - intros c [->|Hc]%elem_of_cons; apply Hcols.
    + left. apply (sales_has_net _ _ Hok).
    + right. destruct (cost_col_facts c Hc) as (? & ? & _). done.
  - intros c p [->|Hc]%elem_of_cons Hp.
    + by rewrite filled_net_cell.
    + by rewrite filled_cost_cell.
  - exists merged. split; [done|]. split; [done|].
    intros c. rewrite Hmc, Hcols.
    pose proof (no_shared_label _ _ Hok c). pose proof (sales_has_key _ _ Hok).
    destruct (decide (c = "Product ID")) as [->|]; tauto.
Qed.
End merge_facts.

Section enriched_rows.
Context (sales cost : DataFrame).
Hypothesis Hok : sheets_ok sales cost.

Lemma cell_of_enriched_row (r : row) (c : string) :
  c ∉ derived_cols → cell_of (enriched_row r) c = cell_of r c.
Proof.
  unfold derived_cols. rewrite !not_elem_of_cons. intros (H1 & H2 & _).
  unfold enriched_row. rewrite !cell_of_insert.
  by rewrite !decide_False by done.
Qed.

Lemma component_sum_filled (p : row * option row) :
  p ∈ joined sales cost →
  component_sum (filled_row sales cost p) = from_option component_sum 0 p.2.
Proof using Hok.
  intros Hp. unfold component_sum.
  rewrite !(filled_cost_cell sales cost Hok p) by
    (done || (unfold cost_cols; rewrite !elem_of_cons; tauto)).
  destruct (p.2) as [k|]; [done|]. cbn. apply Qc_is_canon. reflexivity.
Qed.

Lemma unit_cost_filled (p : row * option row) :
  p ∈ joined sales cost →
  unit_cost_cell (filled_row sales cost p) = Num (Finite (unit_cost_of p.2)).
Proof using Hok.
  intros Hp. unfold unit_cost_cell. cbn zeta.
  rewrite component_sum_filled by done.
  rewrite (filled_cost_cell sales cost Hok p "Standard Total Cost") by
    (done || (unfold cost_cols; rewrite !elem_of_cons; tauto)).
  destruct (elem_of_joined sales cost p Hp) as [_ Hk].
  destruct (p.2) as [k|]; cbn.
  - unfold resolveUnitCost.
    assert (Hd : is_decimal (cell_of k "Standard Total Cost")).
    { apply (costs_decimal _ _ Hok); [by apply Hk|].
      unfold cost_cols; rewrite !elem_of_cons; tauto. }
    by destruct (cell_of k "Standard Total Cost") as [[s| | |]|].
  - done.
Qed.

Lemma enriched_row_enriches (p : row * option row) :
  p ∈ joined sales cost →
  enriches sales cost p (enriched_row (filled_row sales cost p)).
Proof using Hok.
  intros Hp. split.
  - intros c Hc Hd. rewrite cell_of_enriched_row by done.
    rewrite cell_of_filled_row by done. by rewrite decide_True.
  - intros c Hc Hne Hd. rewrite cell_of_enriched_row by done.
    rewrite cell_of_filled_row by done.
    rewrite decide_False; [by rewrite decide_True|].
    intros Hs. by apply Hne, (no_shared_label _ _ Hok).
  - unfold enriched_row. rewrite !cell_of_insert.
    rewrite decide_False by done. rewrite decide_True by done.
    by apply unit_cost_filled.
  - unfold enriched_row. rewrite !cell_of_insert.
    rewrite decide_True by done. unfold margin_cell.
    rewrite unit_cost_filled, filled_net_cell by done. done.
Qed.

(** [merge_data] succeeds and enriches each joined pair in turn. *)
Lemma merge_data_enriches :
  ∃ merged, merge_data sales cost = Ok merged
    ∧ Forall2 (enriches sales cost) (joined sales cost) (rows merged)
    ∧ ∀ c, c ∈ columns merged
           ↔ c ∈ columns sales ∨ c ∈ columns cost ∨ c ∈ derived_cols.
Proof using Hok.
  destruct (merge_data_rows sales cost Hok) as (merged & Hm & Hrows & Hcols).
  exists merged. split; [done|]. split; [|done].
  rewrite Hrows. apply Forall2_fmap_r, Forall_Forall2_diag, Forall_forall.
  intros p Hp. by apply enriched_row_enriches.
Qed.

(** With one cost record per product at most, the join pairs each
    transaction with its cost record, if any. *)
Lemma matches_at_most_one (l : row) :
  NoDup ((λ k, cell_of k "Product ID") <$> rows cost) →
  matches "Product ID" cost l = option_list (head (matches "Product ID" cost l)).
Proof.
  unfold matches. generalize (cell_of l "Product ID"). intros v.
  induction (rows cost) as [|k ks IH]; [done|].
  rewrite fmap_cons, NoDup_cons. intros [Hnin Hnd].
  rewrite filter_cons. case_decide as Hk; [|by apply IH].
  cbn. f_equal. destruct (filter _ ks) as [|k' ?] eqn:Hf; [done|].
  destruct Hnin. rewrite Hk.
  assert (k' ∈ filter (λ r, cell_of r "Product ID" = v) ks) as Hin
    by (rewrite Hf; left).
  apply list_elem_of_filter in Hin as [<- Hin].
  apply list_elem_of_fmap. eauto.
Qed.

Lemma joined_unique :
  NoDup ((λ k, cell_of k "Product ID") <$> rows cost) →
  joined sales cost
  = (λ l, (l, head (matches "Product ID" cost l))) <$> rows sales.
Proof.
  intros Hnd. unfold joined. induction (rows sales) as [|l ls IH]; [done|].
  rewrite bind_cons, IH, fmap_cons. rewrite (matches_at_most_one l Hnd) at 1.
  by destruct (head _).
Qed.
End enriched_rows.

(** ** Running the checks *)

Lemma sheets_okb_sound (sales cost : DataFrame) :
  sheets_okb sales cost = true → sheets_ok sales cost.
Proof.
  unfold sheets_okb. rewrite !andb_true_iff, !forallb_forall.
  intros (((((((H1 & H2) & H3) & Hk) & H4) & H5) & H6) & H7).
  apply bool_decide_eq_true in H1, H2, H3. split; try done.
  - by apply negb_true_iff.
  - intros c Hc. apply list_elem_of_In, H4 in Hc. by apply bool_decide_eq_true in Hc.
  - intros c Hc Hc'. apply list_elem_of_In, H5 in Hc.
    apply bool_decide_eq_true in Hc. by apply Hc.
  - intros r Hr. apply list_elem_of_In, H6 in Hr. by apply Is_true_true.
  - intros r c Hr Hc. apply list_elem_of_In, H7 in Hr.
    rewrite forallb_forall in Hr. apply list_elem_of_In, Hr in Hc.
    by apply Is_true_true.
Qed.

(** ** The merge when the sheets share labels *)

(** The unit cost of a row from its cost cells. *)
Lemma unit_cost_of_cells (r : row) (ko : option row) :
  (∀ c, c ∈ cost_cols →
     cell_of r c
     = Num (Finite (decimal_of (from_option (λ k, cell_of k c) (Num NaN) ko)))) →
  (∀ k, ko = Some k → is_decimal (cell_of k "Standard Total Cost")) →
  unit_cost_cell r = Num (Finite (unit_cost_of ko)).
Proof.
  intros Hcells Hd.
  assert (Hin : ∀ c, c = "Standard Total Cost" ∨ c = "Material Cost"
            ∨ c = "Labor Cost" ∨ c = "Overhead Cost" ∨ c = "Service Cost" →
            c ∈ cost_cols).
  { intros c. unfold cost_cols. rewrite !elem_of_cons, elem_of_nil. tauto. }
  assert (Hsum : component_sum r = from_option component_sum 0 ko).
  { unfold component_sum. rewrite !Hcells by (apply Hin; tauto).
    destruct ko as [k|]; [done|]. cbn. apply Qc_is_canon. reflexivity. }
  unfold unit_cost_cell. cbn zeta. rewrite Hsum.
  rewrite (Hcells "Standard Total Cost") by (apply Hin; tauto).
  destruct ko as [k|]; cbn; [|done].
  unfold resolveUnitCost. specialize (Hd k eq_refl).
  by destruct (cell_of k "Standard Total Cost") as [[s1| | |]|].
Qed.

Section merge_fit.
Context (sales cost : DataFrame).
Hypothesis Hfit : sheets_fit sales cost.

Lemma fit_renamed_NoDup :
  NoDup (suffix_x "Product ID" (columns cost) <$> columns sales)
  ∧ NoDup (suffix_y (columns sales) <$> right_labels "Product ID" (columns cost))
  ∧ ∀ c, c ∈ right_labels "Product ID" (columns cost) →
      suffix_y (columns sales) c
      ∉ suffix_x "Product ID" (columns cost) <$> columns sales.
Proof using Hfit.
  pose proof (fit_labels _ _ Hfit) as Hnd. unfold merge_columns in Hnd.
  apply NoDup_app in Hnd as (Hl & Hdisj & Hr). split_and!; [done..|].
  intros c Hc Hin. apply (Hdisj _ Hin). apply list_elem_of_fmap. eauto.
Qed.

Lemma fit_merge_Ok :
  merge sales cost "Product ID" = Ok (joined_frame sales cost).
Proof using Hfit.
  destruct fit_renamed_NoDup as (Hl & Hr & _).
  unfold merge.
  rewrite (decide_True (P := "Product ID" ∈ columns sales))
    by apply (fit_sales_key _ _ Hfit).
  rewrite (decide_True (P := "Product ID" ∈ columns cost))
    by apply (fit_cost_key _ _ Hfit).
  rewrite (fit_keys _ _ Hfit). unfold suffix_clash.
  by rewrite !new_dups_NoDup.
Qed.

Lemma left_part_lookup (l : row) (c : string) :
  c ∈ columns sales →
  left_part "Product ID" (columns sales) (columns cost) l
    !! suffix_x "Product ID" (columns cost) c = Some (cell_of l c).
Proof using Hfit.
  intros Hc. destruct fit_renamed_NoDup as (Hl & _ & _).
  apply elem_of_list_to_map_1.
  - by rewrite <- list_fmap_compose.
  - apply list_elem_of_fmap. eauto.
Qed.

Lemma right_part_lookup (k : row) (c : string) :
  c ∈ right_labels "Product ID" (columns cost) →
  right_part "Product ID" (columns sales) (columns cost) k
    !! suffix_y (columns sales) c = Some (cell_of k c).
Proof using Hfit.
  intros Hc. destruct fit_renamed_NoDup as (_ & Hr & _).
  apply elem_of_list_to_map_1.
  - by rewrite <- list_fmap_compose.
  - apply list_elem_of_fmap. eauto.
Qed.

Lemma left_part_lookup_None (l : row) (c : string) :
  c ∈ right_labels "Product ID" (columns cost) →
  left_part "Product ID" (columns sales) (columns cost) l
    !! suffix_y (columns sales) c = None.
Proof using Hfit.
  intros Hc. destruct fit_renamed_NoDup as (_ & _ & Hdisj).
  apply not_elem_of_list_to_map. rewrite <- list_fmap_compose. by apply Hdisj.
Qed.

(** A cell of a transaction is found under its label as the merge renames
    it; a cell of a cost record likewise. *)
Lemma pre_row_sales_cell (p : row * option row) (c : string) :
  c ∈ columns sales →
  cell_of (pre_row sales cost p) (suffix_x "Product ID" (columns cost) c)
  = cell_of p.1 c.
Proof using Hfit.
  intros Hc. unfold pre_row, cell_of at 1. cbn zeta.
  destruct (p.2) as [k|].
  - by rewrite (lookup_union_Some_l _ _ _ _ (left_part_lookup p.1 c Hc)).
  - by rewrite left_part_lookup.
Qed.

Lemma pre_row_cost_cell (p : row * option row) (c : string) :
  c ∈ right_labels "Product ID" (columns cost) →
  cell_of (pre_row sales cost p) (suffix_y (columns sales) c)
  = from_option (λ k, cell_of k c) (Num NaN) p.2.
Proof using Hfit.
  intros Hc. unfold pre_row, cell_of at 1. cbn zeta.
  destruct (p.2) as [k|]; cbn [from_option].
  - rewrite lookup_union_r by by apply left_part_lookup_None.
    by rewrite right_part_lookup.
  - by rewrite left_part_lookup_None.
Qed.

Lemma filled_row_sales_cell (p : row * option row) (c : string) :
  c ∈ columns sales →
  cell_of (filled_row sales cost p) (suffix_x "Product ID" (columns cost) c)
  = fill0 (cell_of p.1 c).
Proof using Hfit.
  intros Hc. unfold filled_row. rewrite cell_of_fill_row.
  rewrite decide_True; [by rewrite pre_row_sales_cell|].
  unfold merge_columns. apply elem_of_app. left. apply list_elem_of_fmap. eauto.
Qed.

Lemma filled_row_cost_cell (p : row * option row) (c : string) :
  c ∈ right_labels "Product ID" (columns cost) →
  cell_of (filled_row sales cost p) (suffix_y (columns sales) c)
  = fill0 (from_option (λ k, cell_of k c) (Num NaN) p.2).
Proof using Hfit.
  intros Hc. unfold filled_row. rewrite cell_of_fill_row.
  rewrite decide_True; [by rewrite pre_row_cost_cell|].
  unfold merge_columns. apply elem_of_app. right. apply list_elem_of_fmap. eauto.
Qed.

Lemma fit_net_label :
  suffix_x "Product ID" (columns cost) "Net Sales $" = "Net Sales $".
Proof using Hfit.
  unfold suffix_x. rewrite decide_False; [done|].
  intros [_ ?]. by apply (proj2 (fit_net _ _ Hfit)).
Qed.

Lemma fit_cost_label (c : string) :
  c ∈ cost_cols →
  c ∈ right_labels "Product ID" (columns cost) ∧ suffix_y (columns sales) c = c.
Proof using Hfit.
  intros Hc. destruct (fit_costs _ _ Hfit c Hc) as [Hin Hnin].
  assert (c ∈ "Net Sales $" :: cost_cols) as Hc' by by right.
  destruct (amount_labels_plain c Hc') as (_ & _ & Hne). split.
  - unfold right_labels. by apply list_elem_of_filter.
  - unfold suffix_y. by rewrite decide_False.
Qed.

Lemma fit_net_cell (p : row * option row) :
  p ∈ joined sales cost →
  cell_of (filled_row sales cost p) "Net Sales $"
  = Num (Finite (decimal_of (cell_of p.1 "Net Sales $"))).
Proof using Hfit.
  intros Hp. rewrite <- fit_net_label at 1.
  rewrite filled_row_sales_cell by apply (fit_net _ _ Hfit).
  apply fill0_decimal, (fit_net_decimal _ _ Hfit).
  apply (elem_of_joined sales cost p Hp).
Qed.

Lemma fit_cost_cell (p : row * option row) (c : string) :
  p ∈ joined sales cost → c ∈ cost_cols →
  cell_of (filled_row sales cost p) c
  = Num (Finite (decimal_of (from_option (λ k, cell_of k c) (Num NaN) p.2))).
Proof using Hfit.
  intros Hp Hc. destruct (fit_cost_label c Hc) as [Hr Hy].
  rewrite <- Hy at 1. rewrite filled_row_cost_cell by done.
  apply fill0_decimal. destruct (elem_of_joined sales cost p Hp) as [_ Hk].
  destruct (p.2) as [k|]; [|done]. cbn.
  apply (fit_costs_decimal _ _ Hfit); [by apply Hk | done].
Qed.

Lemma fit_merge_data_rows :
  ∃ merged, merge_data sales cost = Ok merged
    ∧ rows merged = (enriched_row ∘ filled_row sales cost) <$> joined sales cost
    ∧ ∀ c, c ∈ columns merged
           ↔ c ∈ merge_columns "Product ID" (columns sales) (columns cost)
             ∨ c ∈ derived_cols.
Proof using Hfit.
  apply (merge_data_rows_core sales cost fit_merge_Ok).
  - intros c [->|Hc]%elem_of_cons; unfold merge_columns; apply elem_of_app.
    + left. apply list_elem_of_fmap. exists "Net Sales $".
      split; [by rewrite fit_net_label | apply (fit_net _ _ Hfit)].
    + right. destruct (fit_cost_label c Hc) as [Hr Hy].
      apply list_elem_of_fmap. exists c. by rewrite Hy.
  - intros c p [->|Hc]%elem_of_cons Hp.
    + by rewrite fit_net_cell.
    + by rewrite fit_cost_cell.
Qed.

(** The enriched row of a joined pair. *)
Lemma fit_enriched_row (p : row * option row) :
  p ∈ joined sales cost →
  let m := enriched_row (filled_row sales cost p) in
  (∀ c, c ∈ columns sales →
        suffix_x "Product ID" (columns cost) c ∉ derived_cols →
        cell_of m (suffix_x "Product ID" (columns cost) c) = fill0 (cell_of p.1 c))
  ∧ (∀ c, c ∈ columns cost → c ≠ "Product ID" →
          suffix_y (columns sales) c ∉ derived_cols →
          cell_of m (suffix_y (columns sales) c)
          = fill0 (from_option (λ k, cell_of k c) (Num NaN) p.2))
  ∧ cell_of m "Net Sales $" = Num (Finite (decimal_of (cell_of p.1 "Net Sales $")))
  ∧ cell_of m "Unit Cost" = Num (Finite (unit_cost_of p.2))
  ∧ cell_of m "Gross Margin $"
    = Num (Finite (decimal_of (cell_of p.1 "Net Sales $") - unit_cost_of p.2)).
Proof using Hfit.
  intros Hp m.
  assert (Huc : unit_cost_cell (filled_row sales cost p) = Num (Finite (unit_cost_of p.2))).
  { apply unit_cost_of_cells.
    - intros c Hc. by apply fit_cost_cell.
    - intros k Hk. apply (fit_costs_decimal _ _ Hfit).
      + by apply (elem_of_joined sales cost p Hp).
      + unfold cost_cols. left. }
  split_and!.
  - intros c Hc Hd. unfold m. rewrite cell_of_enriched_row by done.
    by apply filled_row_sales_cell.
  - intros c Hc Hne Hd. unfold m. rewrite cell_of_enriched_row by done.
    apply filled_row_cost_cell. unfold right_labels. by apply list_elem_of_filter.
  - unfold m. rewrite cell_of_enriched_row; [by apply fit_net_cell|].
    unfold derived_cols. rewrite !elem_of_cons, elem_of_nil. naive_solver.
  - unfold m, enriched_row. rewrite !cell_of_insert.
    rewrite decide_False by done. by rewrite decide_True.
  - unfold m, enriched_row. rewrite !cell_of_insert.
    rewrite decide_True by done. unfold margin_cell.
    by rewrite Huc, fit_net_cell.
Qed.
End merge_fit.

Lemma sheets_fit_intro (sales cost : DataFrame) :
  "Product ID" ∈ columns sales → "Product ID" ∈ columns cost →
  keys_refused ((λ r, cell_of r "Product ID") <$> rows sales)
    ((λ r, cell_of r "Product ID") <$> rows cost) = false →
  "Net Sales $" ∈ columns sales → "Net Sales $" ∉ columns cost →
  Forall (λ c, c ∈ columns cost ∧ (c ∉ columns sales)) cost_cols →
  NoDup (merge_columns "Product ID" (columns sales) (columns cost)) →
  Forall (λ r, is_decimal (cell_of r "Net Sales $")) (rows sales) →
  Forall (λ r, Forall (λ c, is_decimal (cell_of r c)) cost_cols) (rows cost) →
  no_text_gap sales cost →
  sheets_fit sales cost.
Proof.
  intros H1 H2 H3 H4 H5 H6 H7 H8 H9 H10. split; try done.
  - by rewrite Forall_forall in H6.
  - by rewrite Forall_forall in H8.
  - intros r c Hr Hc. rewrite Forall_forall in H9. specialize (H9 r Hr).
    rewrite Forall_forall in H9. by apply H9.
Qed.

(** * The claims *)

(** ** Merging *)






(** C4, evaluated.  A cost sheet is accepted by [load_cost_data] as soon as
    it has a Product ID column, yet [merge_data] reads all five cost columns:
    with the standard total cost only, the four components only, or no cost
    column at all, it stops with a KeyError instead of resolving the absent
    columns to zero cost. *)
Theorem merge_data_missing_cost_column :
  (load_cost_data (Sheet cost_total_only)).1 = Some cost_total_only
  ∧ merge_data sample_sales cost_total_only = Raise (KeyError "Material Cost")
  ∧ (load_cost_data (Sheet cost_components_only)).1 = Some cost_components_only
  ∧ merge_data sample_sales cost_components_only
    = Raise (KeyError "Standard Total Cost")
  ∧ (load_cost_data (Sheet cost_ids_only)).1 = Some cost_ids_only
  ∧ merge_data sample_sales cost_ids_only = Raise (KeyError "Standard Total Cost").
Proof. repeat split; vm_compute; reflexivity. Qed.

(** ** Loading *)

Lemma has_columns_spec (required : list string) (df : DataFrame) :
  has_columns required df = false ↔ ∃ c, c ∈ required ∧ c ∉ columns df.
Proof.
  unfold has_columns. induction required as [|c0 cs IH]; cbn.
  - split; [discriminate|]. intros (c & Hc & _). by apply elem_of_nil in Hc.
  - rewrite andb_false_iff, IH, bool_decide_eq_false. split.
    + intros [H|(c & Hc & Hn)]; [exists c0 | exists c]; split; try done;
        by constructor.
    + intros (c & Hc & Hn). apply elem_of_cons in Hc as [->|Hc]; eauto.
Qed.

#[local] Arguments has_columns : simpl never.

(** C9.  A sales sheet is refused exactly when one of the five labels
    Customer ID, Product ID, Net Sales $, Salesperson, Region is missing from
    its columns; an accepted sheet is handed on unchanged.  A refusal is
    reported as a notice about the sales sheet and the run stops before any
    merging, whatever the cost file; the cost sheet is checked on its own
    and reported by its own notice. *)
Theorem sales_validation (sales : DataFrame) (cost_file : upload) :
  ((load_sales_data (Sheet sales)).1 = None
     ↔ ∃ c, c ∈ ["Customer ID"; "Product ID"; "Net Sales $"; "Salesperson"; "Region"]
            ∧ c ∉ columns sales)
  ∧ ((load_sales_data (Sheet sales)).1 = None →
       (load_sales_data (Sheet sales)).2 = [SalesColumnsMissing]
       ∧ (main (Some (Sheet sales)) (Some cost_file)).2 = None
       ∧ SalesColumnsMissing ∈ (main (Some (Sheet sales)) (Some cost_file)).1)
  ∧ ((load_sales_data (Sheet sales)).1 ≠ None →
       load_sales_data (Sheet sales) = (Some sales, []))
  ∧ (∀ cost, CostColumnsMissing ∈ (main (Some (Sheet sales)) (Some (Sheet cost))).1
       ↔ ("Product ID" ∉ columns cost))
  ∧ (SalesColumnsMissing ∈ (main (Some (Sheet sales)) (Some cost_file)).1
       ↔ (load_sales_data (Sheet sales)).1 = None).
Proof.
  pose proof (has_columns_spec sales_required_cols sales) as Hs.
  assert (Hload : (load_sales_data (Sheet sales)).1 = None
                  ↔ has_columns sales_required_cols sales = false).
  { cbn. destruct (has_columns sales_required_cols sales); cbn; split; done. }
  assert (Hw : ∀ m df, m ≠ SalesColumnsMissing → m ≠ CostColumnsMissing →
                 (SalesColumnsMissing ∉ row_warning m df)
                 ∧ (CostColumnsMissing ∉ row_warning m df)).
  { intros m df ? ?. unfold row_warning. case_bool_decide;
      rewrite ?not_elem_of_cons; repeat split; try done; apply not_elem_of_nil. }
  assert (Hc : ∀ cost, has_columns cost_required_cols cost = false
                 ↔ "Product ID" ∉ columns cost).
  { intros cost. rewrite has_columns_spec. unfold cost_required_cols. split.
    - intros (c & Hc & Hn). by apply list_elem_of_singleton in Hc as ->.
    - intros Hn. exists "Product ID". split; [by left | done]. }
  split; [by rewrite Hload|]. split; [|split; [|split]].
  - intros Hn. apply Hload in Hn. cbn. rewrite Hn. cbn.
    split; [done|]. destruct cost_file as [|cost]; cbn.
    + split; [done|]. by left.
    + destruct (has_columns cost_required_cols cost); cbn; (split; [done|]); by left.
  - intros Hn. cbn in *. by destruct (has_columns sales_required_cols sales).
  - intros cost. rewrite <- Hc. cbn.
    pose proof (Hw SalesRowsWarning sales). pose proof (Hw CostRowsWarning cost).
    destruct (has_columns sales_required_cols sales),
      (has_columns cost_required_cols cost); cbn;
      rewrite ?elem_of_app, ?elem_of_cons, ?elem_of_nil; naive_solver.
  - rewrite Hload. cbn. destruct cost_file as [|cost]; cbn.
    + destruct (has_columns sales_required_cols sales); cbn;
        rewrite ?elem_of_app, ?elem_of_cons, ?elem_of_nil; naive_solver.
    + pose proof (Hw SalesRowsWarning sales). pose proof (Hw CostRowsWarning cost).
      destruct (has_columns sales_required_cols sales),
        (has_columns cost_required_cols cost); cbn;
        rewrite ?elem_of_app, ?elem_of_cons, ?elem_of_nil; naive_solver.
Qed.

Lemma isna_fill0 (c : cell) : isna (fill0 c) = false.
Proof. by destruct c as [[| | |]|]. Qed.



(** ** Insertion sort *)

Section sort_by_facts.
Context {A : Type} (leb : A → A → bool).

Lemma insert_by_Permutation (x : A) (l : list A) : insert_by leb x l ≡ₚ x :: l.
Proof.
  induction l as [|y l IH]; cbn; [done|].
  destruct (leb x y); [done|]. rewrite IH. apply Permutation_swap.
Qed.

Lemma sort_by_cons (x : A) (l : list A) :
  sort_by leb (x :: l) = insert_by leb x (sort_by leb l).
Proof. done. Qed.

Lemma sort_by_Permutation (l : list A) : sort_by leb l ≡ₚ l.
Proof.
  induction l as [|x l IH]; [done|].
  rewrite sort_by_cons, insert_by_Permutation. by f_equiv.
Qed.

(** The order need only be total and transitive on the elements at hand. *)
Context (P : A → Prop).
Hypothesis leb_total : ∀ x y, P x → P y → leb x y = true ∨ leb y x = true.
Hypothesis leb_trans :
  ∀ x y z, P x → P y → P z → leb x y = true → leb y z = true → leb x z = true.

Lemma insert_by_sorted (x : A) (l : list A) :
  P x → Forall P l →
  StronglySorted (λ a b, leb a b = true) l →
  StronglySorted (λ a b, leb a b = true) (insert_by leb x l).
Proof using leb_total leb_trans.
  intros Hx Hl Hs. induction Hs as [|y l Hs IH Hy]; cbn.
  - repeat constructor.
  - apply Forall_cons in Hl as [HPy HPl].
    destruct (leb x y) eqn:Hxy.
    + constructor; [by constructor|]. constructor; [done|].
      rewrite Forall_forall in Hy, HPl. apply Forall_forall. intros z Hz.
      apply (leb_trans x y z); auto.
    + constructor; [by apply IH|].
      rewrite insert_by_Permutation. constructor; [|done].
      destruct (leb_total x y Hx HPy); congruence.
Qed.

Lemma sort_by_sorted (l : list A) :
  Forall P l → StronglySorted (λ a b, leb a b = true) (sort_by leb l).
Proof using leb_total leb_trans.
  induction l as [|x l IH]; [constructor|].
  rewrite Forall_cons, sort_by_cons. intros [Hx Hl]. apply insert_by_sorted; auto.
  by rewrite sort_by_Permutation.
Qed.

Lemma sort_by_desc_Permutation (l : list A) :
  reverse (sort_by leb (reverse l)) ≡ₚ l.
Proof. by rewrite reverse_Permutation, sort_by_Permutation, reverse_Permutation. Qed.

Lemma StronglySorted_reverse (R : A → A → Prop) (l : list A) :
  StronglySorted R l → StronglySorted (flip R) (reverse l).
Proof.
  induction 1 as [|x l Hs IH Hx]; [constructor|].
  rewrite reverse_cons. apply StronglySorted_app_2; [|done|repeat constructor].
  intros a b Ha Hb. apply list_elem_of_singleton in Hb as ->.
  rewrite elem_of_reverse in Ha. rewrite Forall_forall in Hx.
  unfold flip. by apply Hx.
Qed.

Lemma sort_by_desc_sorted (l : list A) :
  Forall P l →
  StronglySorted (λ a b, leb b a = true) (reverse (sort_by leb (reverse l))).
Proof using leb_total leb_trans.
  intros Hl. apply (StronglySorted_reverse (λ a b, leb a b = true)).
  apply sort_by_sorted. by apply Forall_reverse.
Qed.

End sort_by_facts.

Lemma insert_by_fmap {A B} (g : A → B) (lebA : A → A → bool) (lebB : B → B → bool)
    (x : A) (l : list A) :
  (∀ a b, lebB (g a) (g b) = lebA a b) →
  insert_by lebB (g x) (g <$> l) = g <$> insert_by lebA x l.
Proof.
  intros Hg. induction l as [|y l IH]; cbn; [done|].
  rewrite Hg. destruct (lebA x y); [done|]. cbn. by rewrite IH.
Qed.

Lemma sort_by_fmap {A B} (g : A → B) (lebA : A → A → bool) (lebB : B → B → bool)
    (l : list A) :
  (∀ a b, lebB (g a) (g b) = lebA a b) →
  sort_by lebB (g <$> l) = g <$> sort_by lebA l.
Proof.
  intros Hg. induction l as [|x l IH]; [done|].
  rewrite fmap_cons, !sort_by_cons, IH. by apply insert_by_fmap.
Qed.

(** ** The order of cells *)

Lemma string_leb_trans (s t u : string) :
  String.leb s t = true → String.leb t u = true → String.leb s u = true.
Proof.
  unfold String.leb. intros Hst Htu.
  destruct (String.compare s t) eqn:H1; [| |done].
  - apply String.compare_eq_iff in H1 as ->. done.
  - destruct (String.compare t u) eqn:H2; [| |done].
    + apply String.compare_eq_iff in H2 as <-. by rewrite H1.
    + apply OrderedTypeEx.String_as_OT.cmp_lt in H1, H2.
      pose proof (OrderedTypeEx.String_as_OT.lt_trans _ _ _ H1 H2) as H3.
      apply OrderedTypeEx.String_as_OT.cmp_lt in H3.
      unfold OrderedTypeEx.String_as_OT.cmp in H3. by rewrite H3.
Qed.

Lemma fleb_total (x y : float64) :
  x ≠ NaN → y ≠ NaN → fleb x y = true ∨ fleb y x = true.
Proof.
  destruct x as [a| | |], y as [b| | |]; cbn; try (by auto).
  intros _ _. rewrite !bool_decide_eq_true. apply Qc_le_total.
Qed.

Lemma fleb_trans (x y z : float64) :
  fleb x y = true → fleb y z = true → fleb x z = true.
Proof.
  destruct x as [a| | |], y as [b| | |], z as [c| | |]; cbn; try done.
  rewrite !bool_decide_eq_true. apply Qcle_trans.
Qed.

Lemma fleb_antisym (x y : float64) :
  fleb x y = true → fleb y x = true → x = y.
Proof.
  destruct x as [a| | |], y as [b| | |]; cbn; try done.
  rewrite !bool_decide_eq_true. intros. f_equal. by apply Qcle_antisym.
Qed.

Lemma isna_false (c : cell) : isna c = false ↔ c ≠ Num NaN.
Proof. destruct c as [[| | |]|]; cbn; split; congruence. Qed.

Lemma cell_leb_total (a b : cell) :
  isna a = false → isna b = false → cell_leb a b = true ∨ cell_leb b a = true.
Proof.
  destruct a as [x|s], b as [y|t]; cbn [cell_leb]; auto.
  - rewrite !isna_false. intros Hx Hy. apply fleb_total; congruence.
  - intros _ _. apply String.leb_total.
Qed.

Lemma cell_leb_trans (a b c : cell) :
  cell_leb a b = true → cell_leb b c = true → cell_leb a c = true.
Proof.
  destruct a as [x|s], b as [y|t], c as [z|u]; cbn [cell_leb]; try done.
  - apply fleb_trans.
  - apply string_leb_trans.
Qed.

Lemma cell_leb_antisym (a b : cell) :
  cell_leb a b = true → cell_leb b a = true → a = b.
Proof.
  destruct a as [x|s], b as [y|t]; cbn [cell_leb]; try done.
  - intros. f_equal. by apply fleb_antisym.
  - intros. f_equal. by apply String.leb_antisym.
Qed.

(** ** sort_values, on rows *)

Lemma filter_fmap_pairs (f : row → cell) (b : bool) (l : list row) :
  filter (λ kr : cell * row, isna kr.1 = b) ((λ r, (f r, r)) <$> l)
  = (λ r, (f r, r)) <$> filter (λ r, isna (f r) = b) l.
Proof.
  induction l as [|r l IH]; [done|].
  rewrite fmap_cons, !filter_cons, IH. cbn [fst].
  by destruct (decide (isna (f r) = b)).
Qed.

Lemma zip_fmap_self {A B} (f : A → B) (l : list A) :
  zip (f <$> l) l = (λ x, (f x, x)) <$> l.
Proof. induction l; cbn; [done | by f_equal]. Qed.

Lemma snd_fmap_pairs {A B} (f : A → B) (l : list A) :
  ((λ x, (f x, x)) <$> l).*2 = l.
Proof. rewrite <- list_fmap_compose. apply list_fmap_id. Qed.

Lemma fst_fmap_pairs {A B} (f : A → B) (l : list A) :
  ((λ x, (f x, x)) <$> l).*1 = f <$> l.
Proof. by rewrite <- list_fmap_compose. Qed.

(** [sort_values] succeeds on a column of numbers and sorts the rows by
    their own cell of that column. *)
Lemma sort_values_rows (df : DataFrame) (c : string) (ascending : bool) :
  c ∈ columns df →
  (∀ r, r ∈ rows df → is_num (cell_of r c)) →
  sort_values df c ascending
  = Ok {| columns := columns df;
          rows := sort_rows ascending (λ r, cell_of r c) (rows df) |}.
Proof.
  intros Hc Hnum. unfold sort_values. rewrite getitem_Ok by done.
  cbn [mbind result_bind]. rewrite zip_fmap_self, !filter_fmap_pairs.
  rewrite fst_fmap_pairs.
  assert (forallb is_num ((λ r, cell_of r c) <$>
            filter (λ r, isna (cell_of r c) = false) (rows df)) = true) as ->.
  { apply forallb_forall. intros k Hk. apply list_elem_of_In, list_elem_of_fmap in Hk
      as (r & -> & Hr). apply list_elem_of_filter in Hr as [_ Hr].
    apply Is_true_true. by apply Hnum. }
  cbn [orb]. do 2 f_equal. unfold sort_rows.
  rewrite fmap_app, snd_fmap_pairs. f_equal.
  destruct ascending.
  - rewrite (sort_by_fmap _ (key_leb (λ r, cell_of r c))) by done.
    apply snd_fmap_pairs.
  - rewrite <- fmap_reverse.
    rewrite (sort_by_fmap _ (key_leb (λ r, cell_of r c))) by done.
    rewrite <- fmap_reverse. apply snd_fmap_pairs.
Qed.

Section sort_rows_facts.
Context (f : row → cell) (ascending : bool).

Lemma sort_rows_Permutation (l : list row) : sort_rows ascending f l ≡ₚ l.
Proof.
  unfold sort_rows.
  assert (Hsplit : filter (λ r, isna (f r) = false) l
                   ++ filter (λ r, isna (f r) = true) l ≡ₚ l).
  { induction l as [|r l IH]; [done|]. rewrite !filter_cons.
    destruct (isna (f r)); repeat case_decide; try done; cbn.
    - rewrite <- Permutation_middle. by f_equiv.
    - by f_equiv. }
  etrans; [|exact Hsplit]. f_equiv.
  destruct ascending; [apply sort_by_Permutation | apply sort_by_desc_Permutation].
Qed.

Lemma sort_rows_sorted (l : list row) :
  StronglySorted (λ a b, na_last_leb ascending (f a) (f b) = true)
    (sort_rows ascending f l).
Proof.
  unfold sort_rows.
  set (nn := filter (λ r, isna (f r) = false) l).
  set (na := filter (λ r, isna (f r) = true) l).
  assert (Hnn : Forall (λ r, isna (f r) = false) nn).
  { apply Forall_forall. intros r Hr. by apply list_elem_of_filter in Hr as [? _]. }
  assert (Hna : Forall (λ r, isna (f r) = true) na).
  { apply Forall_forall. intros r Hr. by apply list_elem_of_filter in Hr as [? _]. }
  assert (Htot : ∀ x y : row, isna (f x) = false → isna (f y) = false →
            key_leb f x y = true ∨ key_leb f y x = true).
  { intros x y. apply cell_leb_total. }
  assert (Htr : ∀ x y z : row, isna (f x) = false → isna (f y) = false →
            isna (f z) = false → key_leb f x y = true → key_leb f y z = true →
            key_leb f x z = true).
  { intros x y z _ _ _. apply cell_leb_trans. }
  apply StronglySorted_app_2.
  - intros a b _ Hb. rewrite Forall_forall in Hna.
    unfold na_last_leb. by rewrite (Hna b Hb).
  - destruct ascending.
    + pose proof (sort_by_sorted (key_leb f) _ Htot Htr nn Hnn) as Hs.
      assert (Hp : Forall (λ r, isna (f r) = false) (sort_by (key_leb f) nn))
        by (by rewrite sort_by_Permutation).
      revert Hp. induction Hs as [|a s Hs IH Ha]; [constructor|].
      rewrite Forall_cons. intros [Hfa Hfs]. constructor; [by apply IH|].
      rewrite Forall_forall in Ha, Hfs. apply Forall_forall. intros b Hb.
      unfold na_last_leb. rewrite Hfa, (Hfs b Hb). cbn. by apply Ha.
    + pose proof (sort_by_desc_sorted (key_leb f) _ Htot Htr nn Hnn) as Hs.
      assert (Hp : Forall (λ r, isna (f r) = false)
                     (reverse (sort_by (key_leb f) (reverse nn))))
        by (by rewrite sort_by_desc_Permutation).
      revert Hp. induction Hs as [|a s Hs IH Ha]; [constructor|].
      rewrite Forall_cons. intros [Hfa Hfs]. constructor; [by apply IH|].
      rewrite Forall_forall in Ha, Hfs. apply Forall_forall. intros b Hb.
      unfold na_last_leb. rewrite Hfa, (Hfs b Hb). cbn. by apply Ha.
  - induction Hna as [|a s Ha Hs IH]; constructor; [done|].
    eapply Forall_impl; [exact Hs|]. intros b Hb. cbn in Hb.
    unfold na_last_leb. by rewrite Hb.
Qed.
End sort_rows_facts.

(** ** Ranking *)

Lemma StronglySorted_take {A} (R : A → A → Prop) (n : nat) (l : list A) :
  StronglySorted R l → StronglySorted R (take n l).
Proof.
  intros Hs. rewrite <- (take_drop n l) in Hs.
  by apply StronglySorted_app_1_l in Hs.
Qed.

(** C8.  For a summary and a column of numbers in it, [get_top_bottom]
    returns the first n rows of the summary sorted by that column,
    descending for the top and ascending for the bottom (rows whose cell is
    empty come last in both): each slice has min(n, number of rows) rows, so
    an n beyond the row count returns every row; every returned row is a row
    of the summary itself, none taken twice, under the summary's own columns;
    n is 20 when left out.  The function only builds new frames: the
    summary it is given is never assigned to. *)
Theorem get_top_bottom_slices (summary : DataFrame) (field : string) (top_n : option nat) :
  field ∈ columns summary →
  (∀ r, r ∈ rows summary → is_num (cell_of r field)) →
  ∃ top bottom by_desc by_asc,
    get_top_bottom summary field top_n = Ok (top, bottom)
    ∧ sort_values summary field false = Ok by_desc
    ∧ sort_values summary field true = Ok by_asc
    ∧ rows by_desc ≡ₚ rows summary ∧ rows by_asc ≡ₚ rows summary
    ∧ rows top = take (default 20%nat top_n) (rows by_desc)
    ∧ rows bottom = take (default 20%nat top_n) (rows by_asc)
    ∧ StronglySorted
        (λ a b, na_last_leb false (cell_of a field) (cell_of b field) = true) (rows top)
    ∧ StronglySorted
        (λ a b, na_last_leb true (cell_of a field) (cell_of b field) = true) (rows bottom)
    ∧ length (rows top) = (default 20%nat top_n `min` length (rows summary))%nat
    ∧ length (rows bottom) = (default 20%nat top_n `min` length (rows summary))%nat
    ∧ rows top ⊆+ rows summary ∧ rows bottom ⊆+ rows summary
    ∧ columns top = columns summary ∧ columns bottom = columns summary.
Proof.
  intros Hc Hnum. unfold get_top_bottom.
  rewrite !sort_values_rows by done. cbn [mbind result_bind].
  set (f := λ r : row, cell_of r field). set (n := default top_n_default top_n).
  eexists _, _, _, _. split; [done|]. split; [done|]. split; [done|].
  cbn [rows columns df_head]. change (default 20%nat top_n) with n.
  pose proof (sort_rows_Permutation f false (rows summary)) as Hpd.
  pose proof (sort_rows_Permutation f true (rows summary)) as Hpa.
  pose proof (sort_rows_sorted f false (rows summary)) as Hsd.
  pose proof (sort_rows_sorted f true (rows summary)) as Hsa.
  repeat split; try done.
  - by apply StronglySorted_take.
  - by apply StronglySorted_take.
  - by rewrite length_take, Hpd.
  - by rewrite length_take, Hpa.
  - rewrite <- Hpd at 2. apply submseteq_take.
  - rewrite <- Hpa at 2. apply submseteq_take.
Qed.

Lemma get_top_bottom_slices_witness :
  "Margin %" ∈ columns ranked_example
  ∧ (∀ r, r ∈ rows ranked_example → is_num (cell_of r "Margin %"))
  ∧ ∃ top bottom,
      get_top_bottom ranked_example "Margin %" (Some 3%nat) = Ok (top, bottom)
      ∧ length (rows top) = 3%nat
      ∧ rows top ⊆+ rows ranked_example.
Proof.
  assert (H1 : "Margin %" ∈ columns ranked_example)
    by (apply (bool_decide_unpack _); vm_compute; exact I).
  assert (H2 : ∀ r, r ∈ rows ranked_example → is_num (cell_of r "Margin %")).
  { apply Forall_forall. apply (bool_decide_unpack _). vm_compute. exact I. }
  split; [exact H1|]. split; [exact H2|].
  destruct (get_top_bottom_slices ranked_example "Margin %" (Some 3%nat) H1 H2)
    as (top & bottom & d & a & Hg & _ & _ & _ & _ & _ & _ & _ & _ & Hl & _ & Hs & _).
  exists top, bottom. split; [exact Hg|]. split; [exact Hl | exact Hs].
Defined.

(** ** Sums *)

Lemma sum_from_amounts {A} (f : A → cell) (q : A → Qc) (a : Qc) (l : list A) :
  (∀ x, x ∈ l → f x = money (q x)) →
  sum_from (Finite a) (f <$> l) = Ok (Finite (a + qsum (q <$> l))).
Proof.
  revert a. induction l as [|x l IH]; intros a Hf; cbn.
  - by rewrite Qcplus_0_r.
  - rewrite (Hf x) by left. cbn. rewrite IH by (intros; apply Hf; by right).
    by rewrite Qcplus_assoc.
Qed.

Lemma series_sum_amounts {A} (f : A → cell) (q : A → Qc) (l : list A) :
  (∀ x, x ∈ l → f x = money (q x)) →
  series_sum (f <$> l) = Ok (Finite (qsum (q <$> l))).
Proof.
  intros Hf. unfold series_sum. change (Q2Qc 0) with 0.
  rewrite (sum_from_amounts f q) by done. by rewrite Qcplus_0_l.
Qed.

Lemma series_sum_money (l : list Qc) :
  series_sum (money <$> l) = Ok (Finite (qsum l)).
Proof.
  rewrite (series_sum_amounts money id) by done. by rewrite list_fmap_id.
Qed.

Lemma cumsum_from_amounts {A} (f : A → cell) (q : A → Qc) (a : Qc) (l : list A) :
  (∀ x, x ∈ l → f x = money (q x)) →
  cumsum_from (Finite a) (f <$> l) = Ok (money <$> running_from a (q <$> l)).
Proof.
  revert a. induction l as [|x l IH]; intros a Hf; cbn; [done|].
  rewrite (Hf x) by left. cbn. by rewrite IH by (intros; apply Hf; by right).
Qed.

Lemma running_from_length (a : Qc) (l : list Qc) :
  length (running_from a l) = length l.
Proof. revert a. induction l; intros; cbn; [done | by f_equal]. Qed.

Lemma setitem_length_min (df : DataFrame) (c : string) (v : list cell) :
  length (rows (setitem df c v)) = (length (rows df) `min` length v)%nat.
Proof. cbn. apply length_zip_with. Qed.

Lemma cell_finite_amount (r : row) (c : string) :
  cell_finite (cell_of r c) → cell_of r c = money (amount c r).
Proof. unfold amount, money. by destruct (cell_of r c) as [[| | |]|]. Qed.

(** ** Grouping *)

Section summary_facts.
Context (df : DataFrame) (g : string).
Hypothesis Hen : enriched df g.

Lemma group_label_fresh : ∀ c, c ∈ summary_value_cols → g ≠ c.
Proof using Hen.
  intros c Hc ->. by apply (group_not_written _ _ Hen).
Qed.

Lemma cell_of_group_record (k : cell) :
  cell_of (group_record df g k) g = k
  ∧ cell_of (group_record df g k) "Net Sales $"
    = money (qsum (amount "Net Sales $" <$> members df g k))
  ∧ cell_of (group_record df g k) "Gross Margin $"
    = money (qsum (amount "Gross Margin $" <$> members df g k)).
Proof using Hen.
  assert (g ≠ "Net Sales $") by (apply group_label_fresh; set_solver).
  assert (g ≠ "Gross Margin $") by (apply group_label_fresh; set_solver).
  unfold group_record. rewrite !cell_of_insert.
  rewrite (decide_True (P := g = g)) by done.
  rewrite !(decide_False (P := g = _)) by done.
  rewrite (decide_True (P := "Net Sales $" = "Net Sales $")) by done.
  rewrite (decide_False (P := "Net Sales $" = "Gross Margin $")) by done.
  by rewrite (decide_True (P := "Gross Margin $" = "Gross Margin $")) by done.
Qed.

Lemma group_row_ok (k : cell) :
  group_row df g "Net Sales $" "Gross Margin $" k = Ok (group_record df g k).
Proof using Hen.
  unfold group_row.
  assert (Hm : ∀ r, r ∈ members df g k → r ∈ rows df).
  { intros r Hr. unfold members in Hr. by apply list_elem_of_filter in Hr as [_ ?]. }
  rewrite (series_sum_amounts (λ r, cell_of r "Net Sales $") (amount "Net Sales $"));
    cycle 1.
  { intros r Hr. apply cell_finite_amount, (net_finite _ _ Hen), Hm, Hr. }
  cbn [mbind result_bind].
  rewrite (series_sum_amounts (λ r, cell_of r "Gross Margin $")
             (amount "Gross Margin $")); cycle 1.
  { intros r Hr. apply cell_finite_amount, (margin_finite _ _ Hen), Hm, Hr. }
  done.
Qed.

Lemma groupby_sum_ok :
  groupby_sum df g "Net Sales $" "Gross Margin $"
  = Ok {| columns := [g; "Net Sales $"; "Gross Margin $"]; rows := groups df g |}.
Proof using Hen.
  unfold groupby_sum. rewrite (getitem_Ok df g) by apply (has_group _ _ Hen).
  cbn [mbind result_bind].
  rewrite (getitem_Ok df "Net Sales $") by apply (has_net _ _ Hen).
  rewrite (getitem_Ok df "Gross Margin $") by apply (has_margin _ _ Hen).
  cbn [mbind result_bind].
  rewrite (traverse_id_fmap _ (group_record df g)) by (intros; apply group_row_ok).
  cbn [mbind result_bind]. rewrite decide_False; [done|].
  intros [->| ->]; apply (group_not_written _ _ Hen); set_solver.
Qed.

Lemma elem_of_groups (r : row) :
  r ∈ groups df g → ∃ k, r = group_record df g k.
Proof. unfold groups. rewrite list_elem_of_fmap. naive_solver. Qed.

Lemma elem_of_sorted_groups (r : row) :
  r ∈ sorted_groups df g →
  cell_of r "Net Sales $" = money (amount "Net Sales $" r)
  ∧ cell_of r "Gross Margin $" = money (amount "Gross Margin $" r).
Proof using Hen.
  unfold sorted_groups. rewrite sort_rows_Permutation.
  intros [k ->]%elem_of_groups.
  destruct (cell_of_group_record k) as (_ & Hn & Hm).
  split; by apply cell_finite_amount; rewrite ?Hn, ?Hm.
Qed.

Lemma sort_groups_ok :
  sort_values {| columns := [g; "Net Sales $"; "Gross Margin $"];
                 rows := groups df g |} "Gross Margin $" false
  = Ok {| columns := [g; "Net Sales $"; "Gross Margin $"];
          rows := sorted_groups df g |}.
Proof using Hen.
  rewrite sort_values_rows; [done| |].
  - cbn. set_solver.
  - cbn [rows]. intros r [k ->]%elem_of_groups.
    destruct (cell_of_group_record k) as (_ & _ & ->). done.
Qed.
End summary_facts.

(** ** The summary, column by column *)

Section summary_columns.
Context (df : DataFrame) (g : string).
Hypothesis Hen : enriched df g.

Local Ltac len F :=
  rewrite ?setitem_length_min; unfold F; cbn [rows];
  rewrite ?length_fmap, ?running_from_length, ?length_fmap; lia.

Local Ltac fresh_label :=
  apply (group_label_fresh df g Hen); unfold summary_value_cols;
  rewrite !elem_of_cons; tauto.

(** Reading a column back through the assignments made so far. *)
Local Ltac read F :=
  repeat (rewrite getitem_setitem by len F;
          first [ rewrite (decide_False (P := g = _)) by fresh_label
                | case_decide; [try discriminate | try done] ]).

Lemma setitem_columns_new (F : DataFrame) (c : string) (v : list cell) :
  c ∉ columns F → columns (setitem F c v) = columns F ++ [c].
Proof. intros Hc. cbn. by rewrite decide_False. Qed.

Local Ltac new_label H :=
  rewrite setitem_columns_new; rewrite H; [done|];
  rewrite !not_elem_of_cons; repeat split; try done;
  [ apply not_eq_sym; fresh_label | apply not_elem_of_nil ].

Lemma generate_summary_ok :
  ∃ summary, generate_summary df g = Ok summary ∧ summarises df g summary.
Proof using Hen.
  set (S := sorted_groups df g).
  set (T := qsum (amount "Net Sales $" <$> rows df)).
  set (F0 := {| columns := [g; "Net Sales $"; "Gross Margin $"]; rows := S |}).
  assert (HS : ∀ r, r ∈ S →
            cell_of r "Net Sales $" = money (amount "Net Sales $" r)
            ∧ cell_of r "Gross Margin $" = money (amount "Gross Margin $" r)).
  { intros r Hr. by apply (elem_of_sorted_groups df g Hen). }
  assert (Hnet0 : getitem F0 "Net Sales $"
                  = Ok (money <$> (amount "Net Sales $" <$> S))).
  { rewrite getitem_Ok by (cbn; set_solver). cbn [rows F0]. f_equal.
    rewrite <- list_fmap_compose. apply list_fmap_ext.
    intros i r Hr. apply HS. by eapply list_elem_of_lookup_2. }
  assert (Hgm0 : getitem F0 "Gross Margin $"
                 = Ok (money <$> (amount "Gross Margin $" <$> S))).
  { rewrite getitem_Ok by (cbn; set_solver). cbn [rows F0]. f_equal.
    rewrite <- list_fmap_compose. apply list_fmap_ext.
    intros i r Hr. apply HS. by eapply list_elem_of_lookup_2. }
  assert (Hkey0 : getitem F0 g = Ok ((λ r, cell_of r g) <$> S)).
  { rewrite getitem_Ok by (cbn; set_solver). done. }
  unfold generate_summary.
  rewrite (getitem_Ok df "Net Sales $") by apply (has_net _ _ Hen).
  cbn [mbind result_bind].
  rewrite (series_sum_amounts (λ r, cell_of r "Net Sales $") (amount "Net Sales $"));
    cycle 1.
  { intros r Hr. by apply cell_finite_amount, (net_finite _ _ Hen). }
  cbn [mbind result_bind]. fold T.
  rewrite (groupby_sum_ok df g Hen). cbn [mbind result_bind].
  rewrite (sort_groups_ok df g Hen). cbn [mbind result_bind]. fold S. fold F0.
  (* % of Sales *)
  rewrite Hnet0. cbn [mbind result_bind]. unfold series_pct_scalar.
  rewrite <- (list_fmap_compose (amount "Net Sales $") money).
  rewrite (traverse_fmap _ _ (λ r, pct (amount "Net Sales $" r) T)) by done.
  cbn [mbind result_bind].
  set (F1 := setitem F0 "% of Sales" _).
  (* Cumulative Sales $ *)
  assert (Hnet1 : getitem F1 "Net Sales $"
                  = Ok (money <$> (amount "Net Sales $" <$> S))).
  { unfold F1. by read F0. }
  rewrite Hnet1. cbn [mbind result_bind]. unfold cumsum.
  change (Q2Qc 0) with 0.
  rewrite (cumsum_from_amounts money id) by done. rewrite list_fmap_id.
  cbn [mbind result_bind].
  set (F2 := setitem F1 "Cumulative Sales $" _).
  (* Cumulative Sales % *)
  assert (Hcs2 : getitem F2 "Cumulative Sales $"
            = Ok (money <$> running_from 0 (amount "Net Sales $" <$> S))).
  { unfold F2, F1. by read F0. }
  rewrite Hcs2. cbn [mbind result_bind].
  rewrite (traverse_fmap _ _ (λ c, pct c T)) by done.
  cbn [mbind result_bind].
  set (F3 := setitem F2 "Cumulative Sales %" _).
  (* Margin % *)
  assert (Hgm3 : getitem F3 "Gross Margin $"
                 = Ok (money <$> (amount "Gross Margin $" <$> S))).
  { unfold F3, F2, F1. by read F0. }
  assert (Hnet3 : getitem F3 "Net Sales $"
                  = Ok (money <$> (amount "Net Sales $" <$> S))).
  { unfold F3, F2, F1. by read F0. }
  rewrite Hgm3, Hnet3. cbn [mbind result_bind]. unfold series_pct.
  rewrite <- !list_fmap_compose, zip_fmap_same.
  rewrite (traverse_fmap _ _
    (λ r, pct (amount "Gross Margin $" r) (amount "Net Sales $" r))) by done.
  cbn [mbind result_bind].
  set (F4 := setitem F3 "Margin %" _).
  (* Cumulative Margin $ *)
  assert (Hgm4 : getitem F4 "Gross Margin $"
                 = Ok (money <$> (amount "Gross Margin $" <$> S))).
  { unfold F4, F3, F2, F1. by read F0. }
  rewrite Hgm4. cbn [mbind result_bind].
  rewrite (cumsum_from_amounts money id) by done. rewrite list_fmap_id.
  cbn [mbind result_bind].
  set (F5 := setitem F4 "Cumulative Margin $" _).
  (* Cumulative Profit % *)
  assert (Hcm5 : getitem F5 "Cumulative Margin $"
            = Ok (money <$> running_from 0 (amount "Gross Margin $" <$> S))).
  { unfold F5, F4, F3, F2, F1. by read F0. }
  assert (Hgm5 : getitem F5 "Gross Margin $"
                 = Ok (money <$> (amount "Gross Margin $" <$> S))).
  { unfold F5, F4, F3, F2, F1. by read F0. }
  rewrite Hcm5, Hgm5. cbn [mbind result_bind].
  rewrite (series_sum_amounts money id) by done. rewrite list_fmap_id.
  cbn [mbind result_bind].
  rewrite (traverse_fmap _ _
    (λ c, pct c (qsum (amount "Gross Margin $" <$> S)))) by done.
  cbn [mbind result_bind].
  eexists. split; [done|].
  split; [|unfold F5, F4, F3, F2, F1; read F0; by rewrite <- ?list_fmap_compose..].
  assert (Hc0 : columns F0 = [g; "Net Sales $"; "Gross Margin $"]) by done.
  assert (Hc1 : columns F1 = [g; "Net Sales $"; "Gross Margin $"; "% of Sales"]).
  { unfold F1. new_label Hc0. }
  assert (Hc2 : columns F2 = [g; "Net Sales $"; "Gross Margin $"; "% of Sales";
                              "Cumulative Sales $"]).
  { unfold F2. new_label Hc1. }
  assert (Hc3 : columns F3 = [g; "Net Sales $"; "Gross Margin $"; "% of Sales";
                              "Cumulative Sales $"; "Cumulative Sales %"]).
  { unfold F3. new_label Hc2. }
  assert (Hc4 : columns F4 = [g; "Net Sales $"; "Gross Margin $"; "% of Sales";
                              "Cumulative Sales $"; "Cumulative Sales %";
                              "Margin %"]).
  { unfold F4. new_label Hc3. }
  assert (Hc5 : columns F5 = [g; "Net Sales $"; "Gross Margin $"; "% of Sales";
                              "Cumulative Sales $"; "Cumulative Sales %";
                              "Margin %"; "Cumulative Margin $"]).
  { unfold F5. new_label Hc4. }
  new_label Hc5.
Qed.
End summary_columns.

(** ** Totals *)

Lemma qsum_nil : qsum [] = 0.
Proof. done. Qed.

Lemma qsum_cons (x : Qc) (l : list Qc) : qsum (x :: l) = x + qsum l.
Proof. done. Qed.

Lemma qsum_Permutation (l1 l2 : list Qc) : l1 ≡ₚ l2 → qsum l1 = qsum l2.
Proof.
  induction 1 as [|x l1 l2 _ IH|x y l|l1 l2 l3 _ IH1 _ IH2];
    rewrite ?qsum_cons.
  - done.
  - by rewrite IH.
  - rewrite !Qcplus_assoc. f_equal. apply Qcplus_comm.
  - by rewrite IH1.
Qed.

Lemma qsum_fmap_plus {A} (u v : A → Qc) (l : list A) :
  qsum ((λ x, u x + v x) <$> l) = qsum (u <$> l) + qsum (v <$> l).
Proof.
  induction l as [|x l IH]; rewrite ?fmap_cons, ?qsum_cons.
  - by rewrite Qcplus_0_l.
  - rewrite IH. ring.
Qed.

Lemma qsum_indicator {A} `{EqDecision A} (x : A) (a : Qc) (ks : list A) :
  NoDup ks → x ∈ ks →
  qsum ((λ k, if decide (x = k) then a else 0) <$> ks) = a.
Proof.
  induction 1 as [|k ks Hk Hnd IH]; [by intros ?%elem_of_nil|].
  intros Hx. rewrite fmap_cons, qsum_cons. destruct (decide (x = k)) as [->|Hne].
  - assert (qsum ((λ k0, if decide (k = k0) then a else 0) <$> ks) = 0) as ->.
    { clear IH Hx Hnd. induction ks as [|k' ks IH]; [done|].
      rewrite fmap_cons, qsum_cons.
      apply not_elem_of_cons in Hk as [Hne Hk].
      rewrite decide_False by done. rewrite IH by done. apply Qcplus_0_l. }
    apply Qcplus_0_r.
  - apply elem_of_cons in Hx as [?|Hx]; [done|].
    rewrite IH by done. apply Qcplus_0_l.
Qed.

(** Summing group by group is summing over all the rows. *)
Lemma qsum_by_group {A K} `{EqDecision K} (f : A → K) (q : A → Qc)
    (ks : list K) (l : list A) :
  NoDup ks → (∀ x, x ∈ l → f x ∈ ks) →
  qsum ((λ k, qsum (q <$> filter (λ x, f x = k) l)) <$> ks) = qsum (q <$> l).
Proof.
  intros Hnd. induction l as [|x l IH]; intros Hin.
  - clear Hin. induction ks as [|k ks IHk]; [done|]. rewrite fmap_cons, qsum_cons.
    apply NoDup_cons in Hnd as [_ Hnd]. rewrite IHk by done. apply Qcplus_0_l.
  - assert (Heq : (λ k, qsum (q <$> filter (λ y, f y = k) (x :: l))) <$> ks
             = (λ k, (if decide (f x = k) then q x else 0)
                     + qsum (q <$> filter (λ y, f y = k) l)) <$> ks).
    { apply list_fmap_ext. intros i k _. rewrite filter_cons.
      destruct (decide (f x = k)); [done|]. by rewrite Qcplus_0_l. }
    rewrite Heq, qsum_fmap_plus, IH by (intros; apply Hin; by right).
    rewrite qsum_indicator; [done|done|]. apply Hin. by left.
Qed.

Lemma running_from_last (a : Qc) (l : list Qc) :
  l ≠ [] → last (running_from a l) = Some (a + qsum l).
Proof.
  revert a. induction l as [|x l IH]; intros a Hl; [done|].
  destruct l as [|y l].
  - cbn [running_from last]. by rewrite qsum_cons, qsum_nil, Qcplus_0_r.
  - change (running_from a (x :: y :: l))
      with ((a + x) :: running_from (a + x) (y :: l)).
    change (running_from (a + x) (y :: l))
      with ((a + x + y) :: running_from (a + x + y) l).
    rewrite last_cons_cons.
    change ((a + x + y) :: running_from (a + x + y) l)
      with (running_from (a + x) (y :: l)).
    rewrite IH by done. by rewrite (qsum_cons x), Qcplus_assoc.
Qed.

Lemma pct_nonzero (a t : Qc) : t ≠ 0 → pct a t = money (Zq 100 * a / t).
Proof. intros Ht. unfold pct, money. cbn. by rewrite decide_False. Qed.

Lemma pct_zero (a : Qc) : pct a 0 = over_zero a.
Proof.
  unfold pct, over_zero. cbn. rewrite decide_True by done.
  assert (H100 : (0 < Zq 100)%Qc) by done.
  destruct (decide (a = 0)) as [->|Hne].
  - rewrite decide_True; [done|]. apply Qcmult_0_r.
  - rewrite decide_False; cycle 1.
    { intros H. apply Qcmult_integral in H as [H|H]; [|done].
      rewrite H in H100. by apply Qclt_not_eq in H100. }
    destruct (decide (0 < a)) as [Hpos|Hneg].
    + rewrite decide_True; [done|]. by apply Qcmult_pos_pos.
    + rewrite decide_False; [done|]. intros H. apply Hneg.
      apply (Qcmult_lt_mono_pos_l 0 a (Zq 100)); [done|].
      by rewrite Qcmult_0_r.
Qed.

Section summary_totals.
Context (df : DataFrame) (g : string).
Hypothesis Hen : enriched df g.

Lemma group_keys_spec :
  NoDup (group_keys ((λ r, cell_of r g) <$> rows df))
  ∧ ∀ r, r ∈ rows df → cell_of r g ∈ group_keys ((λ r, cell_of r g) <$> rows df).
Proof using Hen.
  unfold group_keys. split.
  - rewrite sort_by_Permutation. apply NoDup_remove_dups.
  - intros r Hr. rewrite sort_by_Permutation, elem_of_remove_dups.
    apply list_elem_of_filter. split; [by apply (group_present _ _ Hen)|].
    apply list_elem_of_fmap. eauto.
Qed.

Lemma amount_group_record (c : string) (k : cell) :
  c = "Net Sales $" ∨ c = "Gross Margin $" →
  amount c (group_record df g k) = qsum (amount c <$> members df g k).
Proof using Hen.
  destruct (cell_of_group_record df g Hen k) as (_ & Hn & Hm).
  unfold amount at 1. by intros [-> | ->]; rewrite ?Hn, ?Hm.
Qed.

Lemma sorted_groups_total (c : string) :
  c = "Net Sales $" ∨ c = "Gross Margin $" →
  qsum (amount c <$> sorted_groups df g) = qsum (amount c <$> rows df).
Proof using Hen.
  intros Hc. unfold sorted_groups.
  rewrite (qsum_Permutation _ (amount c <$> groups df g))
    by (by rewrite sort_rows_Permutation).
  unfold groups. rewrite <- list_fmap_compose.
  destruct group_keys_spec as [Hnd Hin].
  rewrite <- (qsum_by_group (λ r, cell_of r g) (amount c) _ (rows df) Hnd Hin).
  f_equal. apply list_fmap_ext. intros i k _. cbn.
  by apply amount_group_record.
Qed.
End summary_totals.

Lemma enrichedb_sound (df : DataFrame) (g : string) :
  enrichedb df g = true → enriched df g.
Proof.
  unfold enrichedb. rewrite !andb_true_iff, !forallb_forall.
  intros ((((((H1 & H2) & H3) & H4) & H5) & H6) & H7).
  apply bool_decide_eq_true in H1, H2, H3, H4. split; try done.
  - intros r Hr. apply list_elem_of_In, H5 in Hr. by apply Is_true_true.
  - intros r Hr. apply list_elem_of_In, H6 in Hr. by apply Is_true_true.
  - intros r Hr. apply list_elem_of_In, H7 in Hr. by apply negb_true_iff.
Qed.

Lemma StronglySorted_impl_elem {A} (R1 R2 : A → A → Prop) (l : list A) :
  (∀ x y, x ∈ l → y ∈ l → R1 x y → R2 x y) →
  StronglySorted R1 l → StronglySorted R2 l.
Proof.
  intros HR Hs. induction Hs as [|x l Hs IH Hx]; constructor.
  - apply IH. intros a b Ha Hb. apply HR; by right.
  - rewrite Forall_forall in Hx. apply Forall_forall. intros y Hy.
    apply HR; [by left | by right | by apply Hx].
Qed.

(** What comes out of [merge_data] is what [generate_summary] expects, for
    any grouping label taken from the sales sheet. *)
Lemma merge_data_enriched (sales cost : DataFrame) (g : string) :
  sheets_ok sales cost →
  g ∈ columns sales → g ∉ summary_value_cols → g ∉ derived_cols →
  ∃ merged, merge_data sales cost = Ok merged ∧ enriched merged g.
Proof.
  intros Hok Hg Hgs Hgd.
  destruct (merge_data_enriches sales cost Hok) as (merged & Hm & Hall & Hcols).
  exists merged. split; [done|].
  assert (Hrow : ∀ m, m ∈ rows merged →
            ∃ p, p ∈ joined sales cost ∧ enriches sales cost p m).
  { intros m Hin. apply list_elem_of_lookup in Hin as [i Hi].
    destruct (Forall2_lookup_r _ _ _ i m Hall Hi) as (p & Hp & He).
    exists p. split; [by eapply list_elem_of_lookup_2 | done]. }
  split; try done.
  - apply Hcols. left. apply (sales_has_net _ _ Hok).
  - apply Hcols. do 2 right. unfold derived_cols. set_solver.
  - apply Hcols. by left.
  - intros m (p & Hp & He)%Hrow.
    rewrite (keeps_sales _ _ _ _ He);
      [|apply (sales_has_net _ _ Hok)|unfold derived_cols; set_solver].
    rewrite fill0_decimal; [done|].
    apply (net_decimal _ _ Hok). by apply (elem_of_joined sales cost p).
  - intros m (p & Hp & He)%Hrow. by rewrite (margin_derived _ _ _ _ He).
  - intros m (p & Hp & He)%Hrow. rewrite (keeps_sales _ _ _ _ He) by done.
    apply isna_fill0.
Qed.

(** ** The summary *)

Lemma share_of_total (t : Qc) : t ≠ 0 → Zq 100 * t / t = Zq 100.
Proof. intros Ht. by apply Qcdiv_mult_l. Qed.

Lemma share_step (t a x : Qc) :
  0 ≤ x / t → Zq 100 * a / t ≤ Zq 100 * (a + x) / t.
Proof.
  intros Hx.
  assert (Zq 100 * (a + x) / t = Zq 100 * a / t + Zq 100 * (x / t)) as ->
    by (unfold Qcdiv; ring).
  rewrite <- (Qcplus_0_r (Zq 100 * a / t)) at 1.
  apply Qcplus_le_mono_l. by apply Qcmult_nonneg_nonneg.
Qed.

Lemma running_shares_bounded (t a : Qc) (l : list Qc) :
  (∀ x, x ∈ l → 0 ≤ x / t) →
  Forall (λ y, Zq 100 * a / t ≤ y) ((λ c, Zq 100 * c / t) <$> running_from a l).
Proof.
  revert a. induction l as [|x l IH]; intros a Hl; [constructor|].
  cbn [running_from]. rewrite fmap_cons.
  assert (Hx : Zq 100 * a / t ≤ Zq 100 * (a + x) / t)
    by (apply share_step, Hl; left).
  constructor; [done|].
  eapply Forall_impl; [apply IH; intros; apply Hl; by right|].
  intros y Hy. cbn in Hy. by etrans.
Qed.

Lemma running_shares_sorted (t a : Qc) (l : list Qc) :
  (∀ x, x ∈ l → 0 ≤ x / t) →
  StronglySorted Qcle ((λ c, Zq 100 * c / t) <$> running_from a l).
Proof.
  revert a. induction l as [|x l IH]; intros a Hl; [constructor|].
  cbn [running_from]. rewrite fmap_cons. constructor.
  - apply IH. intros; apply Hl; by right.
  - apply running_shares_bounded. intros; apply Hl; by right.
Qed.

Lemma cumulative_pct_sorted (t : Qc) (l : list Qc) :
  t ≠ 0 → (∀ x, x ∈ l → 0 ≤ x / t) →
  StronglySorted (λ a b, cell_leb a b = true) ((λ c, pct c t) <$> running_from 0 l).
Proof.
  intros Ht Hl.
  assert ((λ c, pct c t) <$> running_from 0 l
          = money <$> ((λ c, Zq 100 * c / t) <$> running_from 0 l)) as ->.
  { rewrite <- list_fmap_compose. apply list_fmap_ext. intros i c _.
    by apply pct_nonzero. }
  eapply (StronglySorted_fmap _ Qcle); [|by apply running_shares_sorted].
  intros x y Hxy. cbn. by apply bool_decide_eq_true.
Qed.

Lemma cumulative_pct_last (t : Qc) (l : list Qc) :
  t ≠ 0 → qsum l = t →
  last ((λ c, pct c t) <$> running_from 0 l) = Some (num 100).
Proof.
  intros Ht Hl. assert (l ≠ []) by (intros ->; by apply Ht).
  rewrite fmap_last, running_from_last by done. cbn [fmap option_fmap option_map].
  rewrite Qcplus_0_l, Hl, pct_nonzero by done. by rewrite share_of_total.
Qed.




Lemma over_zero_not_finite (a : Qc) :
  cell_finite (over_zero a) = false ∧ (over_zero a = Num NaN ↔ a = 0).
Proof.
  unfold over_zero. destruct (decide (a = 0)); [done|].
  by destruct (decide (0 < a)).
Qed.




(** ** Ties *)

Lemma StronglySorted_sublist {A} (R : A → A → Prop) (l1 l2 : list A) :
  l1 `sublist_of` l2 → StronglySorted R l2 → StronglySorted R l1.
Proof.
  induction 1 as [|x l1 l2 Hsub IH|x l1 l2 Hsub IH]; intros Hs.
  - constructor.
  - apply StronglySorted_inv in Hs as [Hs Hx]. constructor; [by apply IH|].
    rewrite Forall_forall in Hx. apply Forall_forall. intros y Hy.
    apply Hx. by eapply elem_of_sublist.
  - apply StronglySorted_inv in Hs as [Hs _]. by apply IH.
Qed.

Lemma sublist_pair_lookup {A} (l : list A) (i j : nat) (x y : A) :
  (i < j)%nat → l !! i = Some x → l !! j = Some y → [x; y] `sublist_of` l.
Proof.
  intros Hij Hi Hj. rewrite <- (take_drop_middle l i x Hi).
  apply sublist_inserts_l. constructor. apply singleton_sublist_l.
  apply list_elem_of_lookup. exists (j - S i)%nat.
  rewrite lookup_drop. rewrite <- Hj. f_equal. lia.
Qed.

Lemma StronglySorted_lookup_lt {A} (R : A → A → Prop) (l : list A) (i j : nat) (x y : A) :
  StronglySorted R l → (i < j)%nat → l !! i = Some x → l !! j = Some y → R x y.
Proof.
  intros Hs Hij Hi Hj.
  pose proof (StronglySorted_sublist R _ _ (sublist_pair_lookup l i j x y Hij Hi Hj) Hs)
    as H.
  inversion H as [|? ? _ Hall]; subst. by inversion Hall.
Qed.

Lemma StronglySorted_strict {A} (R : A → A → Prop) (l : list A) :
  NoDup l → StronglySorted R l → StronglySorted (λ a b, R a b ∧ a ≠ b) l.
Proof.
  intros Hnd Hs. induction Hs as [|x l Hs IH Hx].
  - constructor.
  - apply NoDup_cons in Hnd as [Hx' Hnd]. constructor; [by apply IH|].
    rewrite Forall_forall in Hx. apply Forall_forall. intros y Hy.
    split; [by apply Hx|]. by intros ->.
Qed.

Lemma group_keys_ascending (ks : list cell) :
  StronglySorted (λ a b, cell_ltb a b = true) (group_keys ks).
Proof.
  unfold group_keys. set (l := remove_dups _).
  assert (Hl : Forall (λ c, isna c = false) l).
  { apply Forall_forall. intros c. unfold l. rewrite elem_of_remove_dups.
    by intros [? _]%list_elem_of_filter. }
  assert (Hs : StronglySorted (λ a b, cell_leb a b = true) (sort_by cell_leb l)).
  { apply (sort_by_sorted cell_leb (λ c, isna c = false)); [|by intros; eapply cell_leb_trans|done].
    intros. by apply cell_leb_total. }
  assert (Hnd : NoDup (sort_by cell_leb l)).
  { rewrite sort_by_Permutation. apply NoDup_remove_dups. }
  eapply StronglySorted_impl_elem; [|apply (StronglySorted_strict _ _ Hnd Hs)].
  intros a b _ _ [Hab Hne]. unfold cell_ltb. rewrite Hab. cbn.
  by rewrite bool_decide_eq_false_2.
Qed.

Section ties.
Context (df : DataFrame) (g : string).
Hypothesis Hen : enriched df g.

Lemma groups_ascending :
  StronglySorted (λ a b, cell_ltb (cell_of a g) (cell_of b g) = true) (groups df g).
Proof using Hen.
  unfold groups.
  eapply (StronglySorted_fmap _ (λ a b, cell_ltb a b = true));
    [|apply group_keys_ascending].
  intros a b Hab.
  destruct (cell_of_group_record df g Hen a) as (-> & _).
  by destruct (cell_of_group_record df g Hen b) as (-> & _).
Qed.

End ties.




(** ** A whole run *)

Lemma traverse_total {A B} (f : A → result B) (l : list A) :
  (∀ x, x ∈ l → ∃ y, f x = Ok y) →
  ∃ ys, traverse f l = Ok ys ∧ length ys = length l.
Proof.
  induction l as [|x l IH]; intros Hf.
  - by exists [].
  - destruct (Hf x) as [y Hy]; [by left|].
    destruct IH as (ys & Hys & Hlen); [intros; apply Hf; by right|].
    exists (y :: ys). cbn. rewrite Hy. cbn. rewrite Hys. cbn.
    split; [done | by f_equal].
Qed.

Lemma column_cells (df : DataFrame) (c : string) (s : list cell) (r : row) :
  getitem df c = Ok s → r ∈ rows df → cell_of r c ∈ s.
Proof.
  intros [_ ->]%getitem_Ok_inv Hr. apply list_elem_of_fmap. eauto.
Qed.

Lemma get_top_bottom_total (summary : DataFrame) (field : string) (top_n : option nat) :
  field ∈ columns summary →
  (∀ r, r ∈ rows summary → is_num (cell_of r field)) →
  ∃ slices, get_top_bottom summary field top_n = Ok slices.
Proof.
  intros Hc Hnum. unfold get_top_bottom.
  rewrite !sort_values_rows by done. cbn [mbind result_bind]. eauto.
Qed.

Lemma build_view_total (df : DataFrame) (d : string * string) :
  enriched df d.2 → ∃ v, build_view df d = Ok v.
Proof.
  intros Hen. unfold build_view.
  destruct (generate_summary_ok df d.2 Hen) as (summary & -> & Hcols).
  cbn [mbind result_bind].
  assert (Hin : ∀ c, c ∈ summary_value_cols → c ∈ columns summary).
  { intros c Hc. rewrite (sum_columns _ _ _ Hcols). by right. }
  destruct (get_top_bottom_total summary "Net Sales $" None) as [s1 ->].
  { apply Hin. unfold summary_value_cols. set_solver. }
  { intros r Hr.
    pose proof (column_cells _ _ _ r (sum_net _ _ _ Hcols) Hr) as Hcell.
    rewrite <- list_fmap_compose in Hcell.
    by apply list_elem_of_fmap in Hcell as (x & -> & _). }
  cbn [mbind result_bind].
  destruct (get_top_bottom_total summary "Margin %" None) as [s2 ->].
  { apply Hin. unfold summary_value_cols. set_solver. }
  { intros r Hr.
    pose proof (column_cells _ _ _ r (sum_margin_pct _ _ _ Hcols) Hr) as Hcell.
    by apply list_elem_of_fmap in Hcell as (x & -> & _). }
  cbn [mbind result_bind]. eauto.
Qed.

(** Two sheets that pass the column checks and hold what the pipeline reads
    are analysed to the end: one view per dimension. *)
Lemma main_completes (sales cost : DataFrame) :
  has_columns sales_required_cols sales = true →
  sheets_ok sales cost →
  ∃ notices views,
    main (Some (Sheet sales)) (Some (Sheet cost)) = (notices, Some (Ok views))
    ∧ length views = 4%nat.
Proof.
  intros Hs Hok. unfold main, load_sales_data, load_cost_data. rewrite Hs.
  assert (has_columns cost_required_cols cost = true) as ->.
  { unfold has_columns, cost_required_cols. cbn.
    rewrite bool_decide_eq_true_2; [done|]. apply (cost_has_key _ _ Hok). }
  destruct (merge_data_enriches sales cost Hok) as (merged & Hm & _ & _).
  rewrite Hm. cbn [mbind result_bind].
  destruct (traverse_total (build_view merged) dimensions) as (views & -> & Hlen).
  { intros d Hd. apply build_view_total.
    assert (Hcol : d.2 ∈ sales_required_cols ∧ (d.2 ∉ summary_value_cols)
                   ∧ (d.2 ∉ derived_cols)).
    { unfold dimensions in Hd. rewrite !elem_of_cons, elem_of_nil in Hd.
      destruct Hd as [->|[->|[->|[->|[]]]]]; cbn;
        (split; [set_solver|]); split;
        apply (bool_decide_unpack _); vm_compute; exact I. }
    destruct Hcol as (Hreq & Hnv & Hnd).
    destruct (merge_data_enriched sales cost d.2 Hok) as (merged' & Hm' & Hen);
      try done.
    - unfold has_columns in Hs. rewrite forallb_forall in Hs.
      apply list_elem_of_In, Hs in Hreq. by apply bool_decide_eq_true in Hreq.
    - congruence. }
  eauto.
Qed.

(** The end-to-end example of the specification, with a cost sheet that has
    all five cost columns: one sale of 12000 against a standard total cost of
    7200. *)
Example end_to_end_example :
  column_of "Gross Margin $" (merge_data one_sale sample_cost) = Ok [num 4800]
  ∧ column_of "% of Sales" (summary_of one_sale sample_cost "Customer ID")
    = Ok [num 100]
  ∧ column_of "Margin %" (summary_of one_sale sample_cost "Customer ID")
    = Ok [num 40]
  ∧ column_of "Cumulative Profit %" (summary_of one_sale sample_cost "Customer ID")
    = Ok [num 100].
Proof. repeat split; apply (bool_decide_unpack _); vm_compute; exact I. Qed.

(** * Further properties of the program *)

(** ** The run as a whole *)

Lemma has_columns_true (required : list string) (df : DataFrame) :
  has_columns required df = true ↔ ∀ c, c ∈ required → c ∈ columns df.
Proof.
  unfold has_columns. rewrite forallb_forall. split.
  - intros H c Hc. apply list_elem_of_In, H in Hc. by apply bool_decide_eq_true in Hc.
  - intros H c Hc. apply bool_decide_eq_true, H. by apply list_elem_of_In.
Qed.

(** X1.  The analysis is attempted exactly when both files were uploaded,
    both could be read, the sales sheet has the five labels and the cost
    sheet has Product ID.  With a file missing nothing is loaded and the only
    notice asks for both files.  Otherwise both files are loaded, whatever
    happens to the first: the notices of a run that stops are those of the
    sales file followed by those of the cost file, an unreadable file being
    reported by its own notice. *)
Theorem run_attempted_iff (sales_file cost_file : option upload) :
  ((main sales_file cost_file).2 ≠ None
     ↔ ∃ sales cost,
         sales_file = Some (Sheet sales) ∧ cost_file = Some (Sheet cost)
         ∧ (∀ c, c ∈ ["Customer ID"; "Product ID"; "Net Sales $"; "Salesperson";
                      "Region"] → c ∈ columns sales)
         ∧ "Product ID" ∈ columns cost)
  ∧ (sales_file = None ∨ cost_file = None →
       main sales_file cost_file = ([UploadBothInfo], None))
  ∧ (∀ sf cf, sales_file = Some sf → cost_file = Some cf →
       (main sales_file cost_file).2 = None →
       (main sales_file cost_file).1 = (load_sales_data sf).2 ++ (load_cost_data cf).2
       ∧ (sf = Unreadable → SalesReadError ∈ (main sales_file cost_file).1)
       ∧ (cf = Unreadable → CostReadError ∈ (main sales_file cost_file).1)).
Proof.
  assert (Hcost : ∀ cost, has_columns cost_required_cols cost = true
                          ↔ "Product ID" ∈ columns cost).
  { intros cost. rewrite has_columns_true. unfold cost_required_cols. split.
    - intros H. apply H. by left.
    - by intros H c ->%list_elem_of_singleton. }
  split; [|split].
  - destruct sales_file as [[|sales]|], cost_file as [[|cost]|]; cbn;
      try (split; [done | by intros (? & ? & ? & ? & _)]).
    + destruct (has_columns cost_required_cols cost); cbn;
        (split; [done | by intros (? & ? & ? & ? & _)]).
    + destruct (has_columns sales_required_cols sales); cbn;
        (split; [done | by intros (? & ? & ? & ? & _)]).
    + destruct (has_columns sales_required_cols sales) eqn:Hs,
        (has_columns cost_required_cols cost) eqn:Hc; cbn.
      * split; [|done]. intros _. exists sales, cost.
        rewrite has_columns_true in Hs. apply Hcost in Hc. done.
      * split; [done|]. intros (s & c & [= <-] & [= <-] & _ & Hk).
        apply Hcost in Hk. congruence.
      * split; [done|]. intros (s & c & [= <-] & [= <-] & Hk & _).
        rewrite <- (has_columns_true sales_required_cols) in Hk. congruence.
      * split; [done|]. intros (s & c & [= <-] & [= <-] & Hk & _).
        rewrite <- (has_columns_true sales_required_cols) in Hk. congruence.
  - intros [-> | ->]; [done|]. by destruct sales_file.
  - intros sf cf -> ->. destruct sf as [|sales], cf as [|cost]; cbn.
    + intros _. split; [done|]. split; intros _; set_solver.
    + destruct (has_columns cost_required_cols cost); cbn;
        intros _; (split; [done|]); split; (done || intros _; set_solver).
    + destruct (has_columns sales_required_cols sales); cbn;
        intros _; (split; [done|]); split; (done || intros _; set_solver).
    + destruct (has_columns sales_required_cols sales),
        (has_columns cost_required_cols cost); cbn; try done;
        intros _; (split; [done|]); split; done.
Qed.

(** X2.  The slow-file warnings appear only on a run that is attempted, one
    per sheet, exactly when that sheet has more than 10000 rows; a sheet of
    exactly 10000 rows is not warned about, and a warning changes nothing
    else. *)
Theorem row_warnings_iff (sales cost : DataFrame) :
  (SalesRowsWarning ∈ (main (Some (Sheet sales)) (Some (Sheet cost))).1
     ↔ has_columns sales_required_cols sales = true
       ∧ has_columns cost_required_cols cost = true
       ∧ (10000 < Z.of_nat (length (rows sales)))%Z)
  ∧ (CostRowsWarning ∈ (main (Some (Sheet sales)) (Some (Sheet cost))).1
     ↔ has_columns sales_required_cols sales = true
       ∧ has_columns cost_required_cols cost = true
       ∧ (10000 < Z.of_nat (length (rows cost)))%Z)
  ∧ (has_columns sales_required_cols sales = true →
     has_columns cost_required_cols cost = true →
     (main (Some (Sheet sales)) (Some (Sheet cost))).1
     = (if bool_decide (10000 < Z.of_nat (length (rows sales)))%Z
        then [SalesRowsWarning] else [])
       ++ (if bool_decide (10000 < Z.of_nat (length (rows cost)))%Z
           then [CostRowsWarning] else [])).
Proof.
  cbn. unfold row_warning.
  destruct (has_columns sales_required_cols sales),
    (has_columns cost_required_cols cost); cbn;
    repeat case_bool_decide; cbn;
    rewrite ?elem_of_cons, ?elem_of_nil; naive_solver.
Qed.

Lemma traverse_Ok_inv {A B} (f : A → result B) (l : list A) (ys : list B) :
  traverse f l = Ok ys → Forall2 (λ x y, f x = Ok y) l ys.
Proof.
  revert ys. induction l as [|x l IH]; intros ys H; cbn in H.
  - inversion H. constructor.
  - apply bind_Ok_inv in H as (y & Hy & H).
    apply bind_Ok_inv in H as (ys' & Hys & H). inversion H; subst.
    constructor; [done | by apply IH].
Qed.

(** Whenever [sort_values] returns, it returns the rows sorted by their own
    cell of the column. *)
Lemma sort_values_Ok_inv (df df' : DataFrame) (c : string) (ascending : bool) :
  sort_values df c ascending = Ok df' →
  c ∈ columns df
  ∧ df' = {| columns := columns df;
             rows := sort_rows ascending (λ r, cell_of r c) (rows df) |}.
Proof.
  unfold sort_values, getitem. case_decide as Hc; [|discriminate].
  cbn [mbind result_bind]. rewrite zip_fmap_self, !filter_fmap_pairs.
  destruct (_ || _); [|discriminate]. intros [= <-]. split; [done|].
  f_equal. unfold sort_rows. rewrite fmap_app, snd_fmap_pairs. f_equal.
  destruct ascending.
  - rewrite (sort_by_fmap _ (key_leb (λ r, cell_of r c))) by done.
    apply snd_fmap_pairs.
  - rewrite <- fmap_reverse.
    rewrite (sort_by_fmap _ (key_leb (λ r, cell_of r c))) by done.
    rewrite <- fmap_reverse. apply snd_fmap_pairs.
Qed.

Lemma get_top_bottom_Ok_inv (summary top bottom : DataFrame) (field : string)
    (top_n : option nat) :
  get_top_bottom summary field top_n = Ok (top, bottom) →
  field ∈ columns summary
  ∧ top = df_head (default 20%nat top_n)
            {| columns := columns summary;
               rows := sort_rows false (λ r, cell_of r field) (rows summary) |}
  ∧ bottom = df_head (default 20%nat top_n)
               {| columns := columns summary;
                  rows := sort_rows true (λ r, cell_of r field) (rows summary) |}.
Proof.
  unfold get_top_bottom. intros H.
  apply bind_Ok_inv in H as (d & Hd & H). apply bind_Ok_inv in H as (a & Ha & H).
  apply sort_values_Ok_inv in Hd as [Hc ->]. apply sort_values_Ok_inv in Ha as [_ ->].
  by inversion H.
Qed.

Lemma slice_facts (summary : DataFrame) (f : row → cell) (ascending : bool) (n : nat) :
  let slice := df_head n {| columns := columns summary;
                            rows := sort_rows ascending f (rows summary) |} in
  columns slice = columns summary
  ∧ length (rows slice) = (n `min` length (rows summary))%nat
  ∧ rows slice ⊆+ rows summary
  ∧ ((length (rows summary) ≤ n)%nat → rows slice ≡ₚ rows summary).
Proof.
  cbn. pose proof (sort_rows_Permutation f ascending (rows summary)) as Hp.
  split; [done|]. split; [by rewrite length_take, Hp|]. split.
  - rewrite <- Hp at 2. apply submseteq_take.
  - intros Hn. rewrite take_ge; [done|]. by rewrite Hp.
Qed.

(** X3.  Whenever a run produces its views, there are four of them, named
    Customer, Product, Salesperson and Region in this order, each built from
    the summary of the same merged frame by its own dimension.  The three
    slices shown with a view have the columns of its summary and at most 20
    rows, all of them rows of that summary, none repeated; a summary of 20
    rows or fewer is shown whole in each slice. *)
Theorem views_shape (sales_file cost_file : option upload) (notices : list message)
    (views : list view) :
  main sales_file cost_file = (notices, Some (Ok views)) →
  view_name <$> views = ["Customer"; "Product"; "Salesperson"; "Region"]
  ∧ (∃ sales cost merged,
       sales_file = Some (Sheet sales) ∧ cost_file = Some (Sheet cost)
       ∧ merge_data sales cost = Ok merged
       ∧ Forall2 (λ field v, generate_summary merged field = Ok (view_summary v))
           ["Customer ID"; "Product ID"; "Salesperson"; "Region"] views)
  ∧ Forall (λ v, ∀ slice, slice ∈ [top_sales v; top_margin v; bottom_margin v] →
       columns slice = columns (view_summary v)
       ∧ length (rows slice) = (20 `min` length (rows (view_summary v)))%nat
       ∧ rows slice ⊆+ rows (view_summary v)
       ∧ ((length (rows (view_summary v)) ≤ 20)%nat → rows slice ≡ₚ rows (view_summary v)))
      views.
Proof.
  intros Hmain.
  assert (Hrun : ∃ sales cost merged,
            sales_file = Some (Sheet sales) ∧ cost_file = Some (Sheet cost)
            ∧ merge_data sales cost = Ok merged
            ∧ traverse (build_view merged) dimensions = Ok views).
  { destruct sales_file as [[|sales]|], cost_file as [[|cost]|]; cbn in Hmain;
      try discriminate.
    - by destruct (has_columns cost_required_cols cost).
    - by destruct (has_columns sales_required_cols sales).
    - destruct (has_columns sales_required_cols sales),
        (has_columns cost_required_cols cost); cbn in Hmain; try discriminate.
      injection Hmain as _ Hviews.
      apply bind_Ok_inv in Hviews as (merged & Hm & Hv). eauto 10. }
  destruct Hrun as (sales & cost & merged & -> & -> & Hm & Hv).
  apply traverse_Ok_inv in Hv.
  assert (Hview : Forall2 (λ d v,
            view_name v = d.1
            ∧ generate_summary merged d.2 = Ok (view_summary v)
            ∧ ∀ slice, slice ∈ [top_sales v; top_margin v; bottom_margin v] →
                columns slice = columns (view_summary v)
                ∧ length (rows slice) = (20 `min` length (rows (view_summary v)))%nat
                ∧ rows slice ⊆+ rows (view_summary v)
                ∧ ((length (rows (view_summary v)) ≤ 20)%nat
                   → rows slice ≡ₚ rows (view_summary v))) dimensions views).
  { eapply Forall2_impl; [exact Hv|]. intros d v Hb. unfold build_view in Hb.
    apply bind_Ok_inv in Hb as (summary & Hs & Hb).
    apply bind_Ok_inv in Hb as ([t1 b1] & H1 & Hb).
    apply bind_Ok_inv in Hb as ([t2 b2] & H2 & Hb).
    inversion Hb; subst; clear Hb. cbn [view_name view_summary top_sales top_margin
      bottom_margin fst snd].
    apply get_top_bottom_Ok_inv in H1 as (_ & -> & _).
    apply get_top_bottom_Ok_inv in H2 as (_ & -> & ->).
    split; [done|]. split; [done|].
    intros slice Hin. rewrite !elem_of_cons, elem_of_nil in Hin.
    destruct Hin as [->|[->|[->|[]]]]; apply slice_facts. }
  unfold dimensions in Hview.
  repeat (apply Forall2_cons_inv_l in Hview as (? & ? & (? & ? & ?) & Hview & ->)).
  apply Forall2_nil_inv_l in Hview as ->. clear Hmain Hv. cbn [fst snd] in *.
  split; [cbn; by repeat f_equal|]. split.
  - exists sales, cost, merged. split; [done|]. split; [done|]. split; [done|].
    do 4 (constructor; [done|]). constructor.
  - do 4 (constructor; [done|]). constructor.
Qed.

Lemma views_shape_witness :
  ∃ notices views,
    main (Some (Sheet sample_sales)) (Some (Sheet sample_cost))
    = (notices, Some (Ok views))
    ∧ view_name <$> views = ["Customer"; "Product"; "Salesperson"; "Region"].
Proof.
  assert (H : ∃ notices views,
            main (Some (Sheet sample_sales)) (Some (Sheet sample_cost))
            = (notices, Some (Ok views)))
    by (vm_compute; eexists _, _; reflexivity).
  destruct H as (notices & views & Hmain).
  exists notices, views. split; [exact Hmain|].
  exact (proj1 (views_shape _ _ _ _ Hmain)).
Defined.



(** ** How [merge_data] fails *)

Lemma bind_Raise_inv {A B} (m : result A) (f : A → result B) (e : exn) :
  m ≫= f = Raise e → m = Raise e ∨ ∃ a, m = Ok a ∧ f a = Raise e.
Proof. destruct m as [a|e']; intros H; [right; eauto | left; cbn in H; by simplify_eq]. Qed.

Lemma getitem_Raise_inv (df : DataFrame) (c : string) (e : exn) :
  getitem df c = Raise e → e = KeyError c ∧ c ∉ columns df.
Proof. unfold getitem. case_decide; [discriminate|]. by inversion 1. Qed.

Lemma traverse_Raise_inv {A B} (f : A → result B) (l : list A) (e : exn) :
  traverse f l = Raise e → ∃ x, x ∈ l ∧ f x = Raise e.
Proof.
  induction l as [|x l IH]; cbn; [discriminate|]. intros H.
  apply bind_Raise_inv in H as [H | (b & Hb & H)].
  - exists x. split; [left | done].
  - apply bind_Raise_inv in H as [H | (bs & _ & H)]; [|discriminate].
    destruct (IH H) as (y & Hy & Hfy). exists y. split; [by right | done].
Qed.

Lemma traverse_elem_of {A B} (f : A → result B) (l : list A) (ys : list B) (y : B) :
  traverse f l = Ok ys → y ∈ ys → ∃ x, x ∈ l ∧ f x = Ok y.
Proof.
  intros H Hy. apply traverse_Ok_inv in H.
  apply list_elem_of_lookup in Hy as [i Hi].
  destruct (Forall2_lookup_r _ _ _ _ _ H Hi) as (x & Hx & Hfx).
  exists x. split; [by eapply list_elem_of_lookup_2 | done].
Qed.

Lemma merge_Ok_inv (left right merged : DataFrame) (key : string) :
  merge left right key = Ok merged →
  key ∈ columns left ∧ key ∈ columns right
  ∧ keys_refused ((λ r, cell_of r key) <$> rows left)
      ((λ r, cell_of r key) <$> rows right) = false
  ∧ suffix_clash key (columns left) (columns right) = false
  ∧ merged = {| columns := merge_columns key (columns left) (columns right);
                rows := rows left ≫= join_row key left right |}.
Proof.
  unfold merge. repeat case_decide; try discriminate.
  destruct (keys_refused _ _); [discriminate|].
  destruct (suffix_clash _ _ _); [discriminate|]. by inversion 1.
Qed.

Lemma merge_Raise_inv (left right : DataFrame) (key : string) (e : exn) :
  merge left right key = Raise e →
  (e = KeyError key ∧ (key ∉ columns left ∨ key ∉ columns right))
  ∨ (e = ValueError ∧ key ∈ columns left ∧ key ∈ columns right
     ∧ (keys_refused ((λ r, cell_of r key) <$> rows left)
          ((λ r, cell_of r key) <$> rows right) = true
        ∨ suffix_clash key (columns left) (columns right) = true)).
Proof.
  unfold merge. repeat case_decide; try (inversion 1; left; tauto).
  destruct (keys_refused _ _); [inversion 1; right; tauto|].
  destruct (suffix_clash _ _ _); [|discriminate]. inversion 1. right. tauto.
Qed.

(** The key test is left out for a sheet without rows, and colliding
    suffixes stop the merge. *)
Example merge_data_header_only_sales :
  keys_incompatible
    (key_kind_of ((λ r, cell_of r "Product ID") <$> rows header_only_sales))
    (key_kind_of ((λ r, cell_of r "Product ID") <$> rows float_key_cost)) = true
  ∧ ∃ merged, merge_data header_only_sales float_key_cost = Ok merged
      ∧ rows merged = [].
Proof. split; [vm_compute; reflexivity|]. vm_compute. eexists. split; reflexivity. Qed.

Example merge_data_suffix_clash :
  suffix_clash "Product ID" (columns clash_sales) (columns clash_cost) = true
  ∧ merge_data clash_sales clash_cost = Raise ValueError.
Proof. split; vm_compute; reflexivity. Qed.

(** Text in a sum comes from text in both terms. *)
Lemma series_add_str (s t u : list cell) (x : cell) :
  series_add s t = Ok u → x ∈ u → is_str x →
  (∃ a, a ∈ s ∧ is_str a) ∧ (∃ b, b ∈ t ∧ is_str b).
Proof.
  intros H Hx Hs. destruct (traverse_elem_of _ _ _ _ H Hx) as ([a b] & Hp & Hadd).
  destruct a, b; cbn in Hadd; try discriminate; inversion Hadd; subst; try done.
  split; eexists; (split; [|shelve]).
  - eapply elem_of_zip_l, Hp.
  - eapply elem_of_zip_r, Hp.
  Unshelve. all: done.
Qed.

Lemma elem_of_np_where (cond : list bool) (a b : list cell) (x : cell) :
  x ∈ np_where cond a b → x ∈ a ∨ x ∈ b.
Proof.
  unfold np_where. intros H.
  apply list_elem_of_lookup in H as [i Hi].
  apply lookup_zip_with_Some in Hi as (c & [y z] & -> & _ & Hz).
  destruct c; cbn; [left; by eapply elem_of_zip_l, list_elem_of_lookup_2
                   | right; by eapply elem_of_zip_r, list_elem_of_lookup_2].
Qed.

Lemma elem_of_getitem (df : DataFrame) (c : string) (s : list cell) (x : cell) :
  getitem df c = Ok s → x ∈ s → ∃ r, r ∈ rows df ∧ cell_of r c = x.
Proof.
  intros H Hx. apply getitem_Ok_inv in H as [_ ->].
  apply list_elem_of_fmap in Hx as (r & -> & Hr). eauto.
Qed.

Lemma elem_of_setitem_rows (df : DataFrame) (c : string) (v : list cell) (r' : row) :
  r' ∈ rows (setitem df c v) → ∃ r x, r ∈ rows df ∧ r' = <[c := x]> r.
Proof.
  cbn. intros H. apply list_elem_of_lookup in H as [i Hi].
  apply lookup_zip_with_Some in Hi as (r & x & -> & Hr & _).
  exists r, x. split; [by eapply list_elem_of_lookup_2 | done].
Qed.

(** Text under a label without suffix, in a joined row, is text under that
    label in the transaction or in the cost record. *)
Lemma join_row_str (sales cost : DataFrame) (l jr : row) (c : string) :
  (∀ c', c ≠ c' +:+ "_x") → (∀ c', c ≠ c' +:+ "_y") →
  jr ∈ join_row "Product ID" sales cost l →
  is_str (cell_of jr c) →
  is_str (cell_of l c) ∨ ∃ k, k ∈ rows cost ∧ is_str (cell_of k c).
Proof.
  intros Hx Hy Hjr Hs.
  assert (Hl : ∀ v, left_part "Product ID" (columns sales) (columns cost) l !! c = Some v →
                    v = cell_of l c).
  { intros v Hv. apply elem_of_list_to_map_2 in Hv.
    apply list_elem_of_fmap in Hv as (c' & Heq & _). injection Heq as Hc Hv.
    unfold suffix_x in Hc. case_decide; [by destruct (Hx c')|]. by subst. }
  assert (Hr : ∀ k v, right_part "Product ID" (columns sales) (columns cost) k !! c = Some v →
                      v = cell_of k c).
  { intros k v Hv. apply elem_of_list_to_map_2 in Hv.
    apply list_elem_of_fmap in Hv as (c' & Heq & _). injection Heq as Hc Hv.
    unfold suffix_y in Hc. case_decide; [by destruct (Hy c')|]. by subst. }
  assert (Hcases : jr = left_part "Product ID" (columns sales) (columns cost) l
            ∨ ∃ k, k ∈ rows cost
                ∧ jr = left_part "Product ID" (columns sales) (columns cost) l
                       ∪ right_part "Product ID" (columns sales) (columns cost) k).
  { unfold join_row in Hjr. cbn zeta in Hjr.
    destruct (matches "Product ID" cost l) as [|k0 ms] eqn:Hm.
    - left. by apply list_elem_of_singleton in Hjr.
    - right. apply list_elem_of_fmap in Hjr as (k & -> & Hk).
      exists k. split; [|done]. rewrite <- Hm in Hk.
      unfold matches in Hk. by apply list_elem_of_filter in Hk as [_ ?]. }
  unfold cell_of in Hs at 1.
  destruct (jr !! c) as [v|] eqn:Hv; [|done]. cbn in Hs.
  destruct Hcases as [-> | (k & Hk & ->)].
  - left. by rewrite <- (Hl v Hv).
  - apply lookup_union_Some_raw in Hv as [Hv | [_ Hv]].
    + left. by rewrite <- (Hl v Hv).
    + right. exists k. split; [done|]. by rewrite <- (Hr k v Hv).
Qed.

Lemma fill_row_str (v : cell) (cols : list string) (r : row) (c : string) :
  is_str v = false → is_str (cell_of (fill_row v cols r) c) → is_str (cell_of r c).
Proof.
  intros Hv. rewrite cell_of_fill_row. case_decide; [|done].
  destruct (isna (cell_of r c)); [by rewrite Hv | done].
Qed.


Lemma merge_data_Ok_inv (sales cost merged : DataFrame) :
  merge_data sales cost = Ok merged →
  "Product ID" ∈ columns sales ∧ "Product ID" ∈ columns cost
  ∧ keys_refused ((λ r, cell_of r "Product ID") <$> rows sales)
      ((λ r, cell_of r "Product ID") <$> rows cost) = false
  ∧ suffix_clash "Product ID" (columns sales) (columns cost) = false
  ∧ (∀ c, c ∈ "Net Sales $" :: cost_cols →
          c ∈ merge_columns "Product ID" (columns sales) (columns cost))
  ∧ length (rows merged) = length (rows sales ≫= join_row "Product ID" sales cost).
Proof.
  intros H. unfold merge_data in H.
  apply bind_Ok_inv in H as (m0 & Hm & H).
  apply merge_Ok_inv in Hm as (Hks & Hkc & Hcompat & Hclash & ->).
  set (F := fillna _ _) in H.
  apply bind_Ok_inv in H as (stc & Hstc & H).
  apply bind_Ok_inv in H as (cond & Hcond & H).
  apply bind_Ok_inv in H as (material & Hmat & H).
  apply bind_Ok_inv in H as (labor & Hlab & H).
  apply bind_Ok_inv in H as (s1 & Hs1 & H).
  apply bind_Ok_inv in H as (overhead & Hov & H).
  apply bind_Ok_inv in H as (s2 & Hs2 & H).
  apply bind_Ok_inv in H as (service & Hsv & H).
  apply bind_Ok_inv in H as (s3 & Hs3 & H).
  cbn zeta in H. set (M2 := setitem F "Unit Cost" _) in H.
  apply bind_Ok_inv in H as (net & Hnet & H).
  apply bind_Ok_inv in H as (unit & Hunit & H).
  apply bind_Ok_inv in H as (margin & Hmargin & H).
  inversion H as [Hmerged]. clear H.
  apply traverse_length in Hcond, Hs1, Hs2, Hs3, Hmargin.
  rewrite length_zip_with in Hs1, Hs2, Hs3, Hmargin.
  apply getitem_Ok_inv in Hstc as [Hc1 ->], Hmat as [Hc2 ->], Hlab as [Hc3 ->],
    Hov as [Hc4 ->], Hsv as [Hc5 ->], Hnet as [Hc6 ->], Hunit as [_ ->].
  rewrite !length_fmap in *.
  split_and!; try done.
  - intros c. unfold cost_cols. rewrite !elem_of_cons, elem_of_nil.
    apply elem_of_setitem_columns in Hc6 as [?|Hc6]; [done|].
    intros [->|[->|[->|[->|[->|[->|[]]]]]]]; done.
  - cbn [rows setitem]. rewrite length_zip_with. unfold M2 in *.
    cbn [rows setitem] in *. rewrite !length_zip_with in *.
    unfold np_where in *. rewrite !length_zip_with in *.
    unfold F in *. cbn [rows fillna] in *. rewrite !length_fmap in *. lia.
Qed.

(** X5.  [merge_data] returns a frame only for sheets that both have the
    label Product ID, whose key columns pass the test of the merge
    ([keys_refused]: no test when exactly one of the sheets has no rows),
    whose labels do not collide once the suffixes are added
    ([suffix_clash]), and in which Net Sales $ and each of the five cost
    labels is a label of exactly one of the two sheets: a label that both
    sheets carry is renamed by the merge (suffixes _x and _y) and is then not
    found. *)
Theorem merge_data_needs_columns (sales cost merged : DataFrame) :
  merge_data sales cost = Ok merged →
  "Product ID" ∈ columns sales ∧ "Product ID" ∈ columns cost
  ∧ keys_refused ((λ r, cell_of r "Product ID") <$> rows sales)
      ((λ r, cell_of r "Product ID") <$> rows cost) = false
  ∧ suffix_clash "Product ID" (columns sales) (columns cost) = false
  ∧ ∀ c, c ∈ "Net Sales $" :: cost_cols →
      (c ∈ columns sales ∧ (c ∉ columns cost))
      ∨ (c ∈ columns cost ∧ (c ∉ columns sales)).
Proof.
  intros H.
  apply merge_data_Ok_inv in H as (Hks & Hkc & Hcompat & Hclash & Hcols & _).
  split_and!; try done. intros c Hc.
  destruct (amount_labels_plain c Hc) as (Hx & Hy & Hk).
  by apply (elem_of_merge_columns "Product ID" c _ _ Hx Hy Hk), Hcols.
Qed.

Lemma merge_data_needs_columns_witness :
  ∃ merged, merge_data sample_sales sample_cost = Ok merged
    ∧ "Product ID" ∈ columns sample_sales ∧ "Product ID" ∈ columns sample_cost.
Proof.
  assert (H : ∃ merged, merge_data sample_sales sample_cost = Ok merged)
    by (vm_compute; eexists; reflexivity).
  destruct H as [merged H]. exists merged. split; [exact H|].
  destruct (merge_data_needs_columns _ _ _ H) as (H1 & H2 & _). by split.
Defined.

(** X6.  The merged frame has as many rows as the transactions call for:
    each transaction counts once per cost record with the same Product ID (an
    empty key matching an empty key), and once when there is none; so the
    frame never has fewer rows than the sales sheet. *)
Theorem merge_data_row_count (sales cost merged : DataFrame) :
  merge_data sales cost = Ok merged →
  length (rows merged)
  = sum_list_with (λ l, (1 `max` length (matches "Product ID" cost l))%nat) (rows sales)
  ∧ (length (rows sales) ≤ length (rows merged))%nat.
Proof.
  intros H. apply merge_data_Ok_inv in H as (_ & _ & _ & _ & _ & ->).
  assert (Hlen : ∀ L : list row,
    length (L ≫= join_row "Product ID" sales cost)
    = sum_list_with (λ l, (1 `max` length (matches "Product ID" cost l))%nat) L).
  { induction L as [|l L IH]; [done|].
    rewrite bind_cons, length_app, IH. cbn [sum_list_with]. f_equal.
    unfold join_row. cbn zeta.
    destruct (matches "Product ID" cost l); [done|].
    rewrite length_fmap. cbn. lia. }
  rewrite Hlen. split; [done|].
  induction (rows sales) as [|l L IH]; cbn; lia.
Qed.

Lemma merge_data_row_count_witness :
  ∃ merged, merge_data one_sale twice_costed = Ok merged
    ∧ length (rows merged) = 2%nat.
Proof.
  assert (H : ∃ merged, merge_data one_sale twice_costed = Ok merged)
    by (vm_compute; eexists; reflexivity).
  destruct H as [merged H]. exists merged. split; [exact H|].
  rewrite (proj1 (merge_data_row_count _ _ _ H)). reflexivity.
Defined.

Lemma cell_gt0_Raise (c : cell) (e : exn) :
  cell_gt0 c = Raise e → e = TypeError ∧ is_str c.
Proof. destruct c; cbn; [discriminate|]. by inversion 1. Qed.

Lemma cell_add_Raise (a b : cell) (e : exn) :
  cell_add (a, b) = Raise e → e = TypeError ∧ (is_str a ∨ is_str b).
Proof. destruct a, b; cbn; try discriminate; inversion 1; split; auto. Qed.

Lemma cell_sub_Raise (a b : cell) (e : exn) :
  cell_sub (a, b) = Raise e → e = TypeError ∧ (is_str a ∨ is_str b).
Proof. destruct a, b; cbn; try discriminate; inversion 1; split; auto. Qed.

Lemma elem_of_setitem_rows_val (df : DataFrame) (c : string) (v : list cell) (r' : row) :
  r' ∈ rows (setitem df c v) → ∃ r x, r ∈ rows df ∧ x ∈ v ∧ r' = <[c := x]> r.
Proof.
  cbn. intros H. apply list_elem_of_lookup in H as [i Hi].
  apply lookup_zip_with_Some in Hi as (r & x & -> & Hr & Hx).
  exists r, x. split_and!; [by eapply list_elem_of_lookup_2.. | done].
Qed.

(** Text under an amount label of the filled merged frame is text under that
    label in one of the two sheets. *)
Lemma merged_text_source (sales cost : DataFrame) (c : string) (s : list cell) (x : cell) :
  c ∈ "Net Sales $" :: cost_cols →
  getitem (fillna (Num (Finite 0))
             {| columns := merge_columns "Product ID" (columns sales) (columns cost);
                rows := rows sales ≫= join_row "Product ID" sales cost |}) c = Ok s →
  x ∈ s → is_str x →
  ∃ r c, (r ∈ rows sales ∨ r ∈ rows cost) ∧ c ∈ "Net Sales $" :: cost_cols
         ∧ is_str (cell_of r c).
Proof.
  intros Hc Hs Hx Hstr.
  destruct (amount_labels_plain c Hc) as (Hpx & Hpy & _).
  destruct (elem_of_getitem _ _ _ _ Hs Hx) as (r & Hr & <-).
  cbn [rows fillna] in Hr. apply list_elem_of_fmap in Hr as (jr & -> & Hjr).
  apply fill_row_str in Hstr; [|done].
  apply list_elem_of_bind in Hjr as (l & Hjr & Hl).
  destruct (join_row_str sales cost l jr c Hpx Hpy Hjr Hstr) as [H | (k & Hk & H)].
  - exists l, c. auto.
  - exists k, c. auto.
Qed.



(** ** The join *)

Lemma elem_of_matches (cost : DataFrame) (l k : row) :
  k ∈ matches "Product ID" cost l
  ↔ k ∈ rows cost ∧ cell_of k "Product ID" = cell_of l "Product ID".
Proof. unfold matches. rewrite list_elem_of_filter. tauto. Qed.

Lemma elem_of_joined_iff (sales cost : DataFrame) (l : row) (ko : option row) :
  (l, ko) ∈ joined sales cost
  ↔ l ∈ rows sales
    ∧ match ko with
      | None => matches "Product ID" cost l = []
      | Some k => k ∈ matches "Product ID" cost l
      end.
Proof.
  unfold joined. rewrite list_elem_of_bind. split.
  - intros (l' & Hin & Hl'). split.
    + destruct (matches "Product ID" cost l') eqn:Hm.
      * apply list_elem_of_singleton in Hin. by simplify_eq.
      * apply list_elem_of_fmap in Hin as (k & ? & _). by simplify_eq.
    + destruct (matches "Product ID" cost l') eqn:Hm.
      * apply list_elem_of_singleton in Hin. by simplify_eq.
      * apply list_elem_of_fmap in Hin as (k & ? & Hk). simplify_eq.
        by rewrite Hm.
  - intros [Hl Hko]. exists l. split; [|done].
    destruct ko as [k|].
    + destruct (matches "Product ID" cost l) eqn:Hm; [by apply elem_of_nil in Hko|].
      apply list_elem_of_fmap. eauto.
    + rewrite Hko. by apply list_elem_of_singleton.
Qed.



(** ** The groups of a summary *)

Lemma elem_of_group_keys (ks : list cell) (k : cell) :
  k ∈ group_keys ks ↔ k ∈ ks ∧ isna k = false.
Proof.
  unfold group_keys. rewrite sort_by_Permutation, elem_of_remove_dups.
  by rewrite list_elem_of_filter, (comm and).
Qed.

Lemma group_keys_length (ks : list cell) : (length (group_keys ks) ≤ length ks)%nat.
Proof.
  unfold group_keys. rewrite sort_by_Permutation.
  apply submseteq_length, NoDup_submseteq; [apply NoDup_remove_dups|].
  intros k. rewrite elem_of_remove_dups, list_elem_of_filter. tauto.
Qed.

Lemma sorted_groups_Permutation (df : DataFrame) (g : string) :
  sorted_groups df g ≡ₚ groups df g.
Proof. apply sort_rows_Permutation. Qed.

Lemma group_keys_of_groups (df : DataFrame) (g : string) :
  enriched df g →
  (λ r, cell_of r g) <$> groups df g = group_keys ((λ r, cell_of r g) <$> rows df).
Proof.
  intros Hen. unfold groups. rewrite <- list_fmap_compose.
  rewrite <- (list_fmap_id (group_keys _)) at 2.
  apply list_fmap_ext. intros i k _. cbn.
  apply (cell_of_group_record df g Hen k).
Qed.

(** The row of rank [i] is the group record of its own key. *)
Lemma sorted_groups_lookup (df : DataFrame) (g : string) (i : nat) (r : row) :
  enriched df g →
  sorted_groups df g !! i = Some r →
  r = group_record df g (cell_of r g)
  ∧ cell_of r g ∈ group_keys ((λ r, cell_of r g) <$> rows df).
Proof.
  intros Hen Hi. apply list_elem_of_lookup_2 in Hi.
  rewrite sorted_groups_Permutation in Hi.
  unfold groups in Hi. apply list_elem_of_fmap in Hi as (k & -> & Hk).
  destruct (cell_of_group_record df g Hen k) as (-> & _). done.
Qed.

Lemma summary_length (df : DataFrame) (g : string) (summary : DataFrame) :
  summarises df g summary → length (rows summary) = length (sorted_groups df g).
Proof.
  intros Hs. pose proof (sum_key _ _ _ Hs) as H.
  apply getitem_Ok_inv in H as [_ H].
  apply (f_equal length) in H. by rewrite !length_fmap in H.
Qed.

(** X9.  The summary has one row per distinct value of the grouping column:
    its key column has no duplicates, holds exactly the values found in that
    column of the enriched records, and the summary has the key column
    followed by the eight value columns. *)
Theorem summary_one_row_per_group (df : DataFrame) (g : string) :
  enriched df g →
  ∃ summary keys,
    generate_summary df g = Ok summary
    ∧ columns summary = g :: summary_value_cols
    ∧ getitem summary g = Ok keys
    ∧ NoDup keys
    ∧ (∀ k, k ∈ keys ↔ ∃ r, r ∈ rows df ∧ cell_of r g = k)
    ∧ length (rows summary) = length keys
    ∧ (length (rows summary) ≤ length (rows df))%nat.
Proof.
  intros Hen. destruct (generate_summary_ok df g Hen) as (summary & Hsum & Hs).
  exists summary, ((λ r, cell_of r g) <$> sorted_groups df g).
  assert (Hperm : (λ r, cell_of r g) <$> sorted_groups df g
                  ≡ₚ group_keys ((λ r, cell_of r g) <$> rows df)).
  { rewrite sorted_groups_Permutation. by rewrite group_keys_of_groups. }
  split_and!.
  - done.
  - apply (sum_columns _ _ _ Hs).
  - apply (sum_key _ _ _ Hs).
  - rewrite Hperm. apply (group_keys_spec df g Hen).
  - intros k. rewrite Hperm, elem_of_group_keys, list_elem_of_fmap. split.
    + intros [(r & -> & Hr) _]. eauto.
    + intros (r & Hr & <-). split; [eauto|]. by apply (group_present _ _ Hen).
  - rewrite (summary_length _ _ _ Hs). by rewrite length_fmap.
  - rewrite (summary_length _ _ _ Hs).
    rewrite <- (length_fmap (λ r, cell_of r g) (sorted_groups df g)), Hperm.
    etrans; [apply group_keys_length|]. by rewrite length_fmap.
Qed.

Lemma summary_one_row_per_group_witness :
  enriched enriched_example "Customer ID"
  ∧ ∃ summary keys,
      generate_summary enriched_example "Customer ID" = Ok summary
      ∧ getitem summary "Customer ID" = Ok keys
      ∧ NoDup keys.
Proof.
  assert (Hen : enriched enriched_example "Customer ID")
    by (apply enrichedb_sound; vm_compute; reflexivity).
  split; [exact Hen|].
  destruct (summary_one_row_per_group _ _ Hen)
    as (summary & keys & Hsum & _ & Hkeys & Hnd & _).
  exists summary, keys. by split_and!.
Defined.

(** X10.  The row of the summary with key [k] holds the sums over the
    enriched records whose grouping cell is [k]: their net sales, their gross
    margins, and from these the margin percentage [100 * margin / net sales]
    and the share [100 * net sales / total net sales]. *)
Theorem summary_row_values (df : DataFrame) (g : string) :
  enriched df g →
  ∃ summary keys nets margins pcts margin_pct,
    generate_summary df g = Ok summary
    ∧ getitem summary g = Ok keys
    ∧ getitem summary "Net Sales $" = Ok nets
    ∧ getitem summary "Gross Margin $" = Ok margins
    ∧ getitem summary "% of Sales" = Ok pcts
    ∧ getitem summary "Margin %" = Ok margin_pct
    ∧ ∀ i k, keys !! i = Some k →
        let n := qsum (amount "Net Sales $" <$> members df g k) in
        let m := qsum (amount "Gross Margin $" <$> members df g k) in
        members df g k ≠ []
        ∧ nets !! i = Some (money n)
        ∧ margins !! i = Some (money m)
        ∧ pcts !! i = Some (pct n (total_net_sales df))
        ∧ margin_pct !! i = Some (pct m n).
Proof.
  intros Hen. destruct (generate_summary_ok df g Hen) as (summary & Hsum & Hs).
  eexists summary, _, _, _, _, _. split; [done|].
  split; [apply (sum_key _ _ _ Hs)|].
  split; [apply (sum_net _ _ _ Hs)|].
  split; [apply (sum_margin _ _ _ Hs)|].
  split; [apply (sum_pct_sales _ _ _ Hs)|].
  split; [apply (sum_margin_pct _ _ _ Hs)|].
  intros i k Hk. cbn zeta.
  apply list_lookup_fmap_Some in Hk as (r & -> & Hr).
  destruct (sorted_groups_lookup df g i r Hen Hr) as [Hrec Hkey].
  pose proof (amount_group_record df g Hen "Net Sales $" (cell_of r g) (or_introl eq_refl))
    as Hn.
  pose proof (amount_group_record df g Hen "Gross Margin $" (cell_of r g)
                (or_intror eq_refl)) as Hm.
  rewrite <- Hrec in Hn, Hm.
  rewrite !list_lookup_fmap, Hr. cbn. rewrite <- Hn, <- Hm. split_and!; try done.
  apply elem_of_group_keys in Hkey as [Hkey _].
  apply list_elem_of_fmap in Hkey as (r0 & Heq & Hr0).
  intros Hnil. assert (r0 ∈ members df g (cell_of r g)) as Hmem.
  { unfold members. apply list_elem_of_filter. done. }
  rewrite Hnil in Hmem. by apply elem_of_nil in Hmem.
Qed.

Lemma summary_row_values_witness :
  enriched enriched_example "Customer ID"
  ∧ ∃ summary keys nets,
      generate_summary enriched_example "Customer ID" = Ok summary
      ∧ getitem summary "Customer ID" = Ok keys
      ∧ getitem summary "Net Sales $" = Ok nets
      ∧ ∀ i k, keys !! i = Some k →
          nets !! i
          = Some (money (qsum (amount "Net Sales $"
                                 <$> members enriched_example "Customer ID" k))).
Proof.
  assert (Hen : enriched enriched_example "Customer ID")
    by (apply enrichedb_sound; vm_compute; reflexivity).
  split; [exact Hen|].
  destruct (summary_row_values _ _ Hen)
    as (summary & keys & nets & margins & pcts & margin_pct
        & Hsum & Hkeys & Hnets & _ & _ & _ & Hrows).
  exists summary, keys, nets. split_and!; [done..|].
  intros i k Hk. apply (Hrows i k Hk).
Defined.

(** ** Totals and running totals of a summary *)

Lemma qsum_app (l1 l2 : list Qc) : qsum (l1 ++ l2) = qsum l1 + qsum l2.
Proof.
  induction l1 as [|x l1 IH]; [by rewrite app_nil_l, qsum_nil, Qcplus_0_l|].
  rewrite <- app_comm_cons, !qsum_cons, IH. ring.
Qed.

Lemma running_from_lookup (a : Qc) (l : list Qc) (i : nat) :
  running_from a l !! i = (λ _, a + qsum (take (S i) l)) <$> l !! i.
Proof.
  revert a i. induction l as [|x l IH]; intros a [|i]; try done.
  - change (Some (a + x) = Some (a + qsum (x :: []))).
    rewrite qsum_cons, qsum_nil. f_equal. ring.
  - change (running_from (a + x) l !! i
            = (λ _, a + qsum (x :: take (S i) l)) <$> l !! i).
    rewrite IH. destruct (l !! i) as [y|]; [|done]. cbn [fmap option_fmap option_map].
    f_equal. rewrite qsum_cons. ring.
Qed.

(** X11.  Grouping moves no money.  For whole-number amounts that float64
    adds without rounding ([exact_amounts]), and whatever the grouping column,
    the Net Sales $ column of the summary adds up to the total net sales of
    the enriched records, and the Gross Margin $ column to their total gross
    margin.  (With rounding, the two sides add the same amounts in different
    orders and may differ in the last digits.) *)
Theorem summary_totals_conserved (df : DataFrame) (g : string) :
  enriched df g →
  ∃ summary nets margins,
    generate_summary df g = Ok summary
    ∧ getitem summary "Net Sales $" = Ok nets
    ∧ getitem summary "Gross Margin $" = Ok margins
    ∧ (exact_amounts "Net Sales $" df →
       series_sum nets = Ok (Finite (total_net_sales df)))
    ∧ (exact_amounts "Gross Margin $" df →
       series_sum margins = Ok (Finite (total_gross_margin df))).
Proof.
  intros Hen. destruct (generate_summary_ok df g Hen) as (summary & Hsum & Hs).
  eexists summary, _, _. split; [done|].
  split; [apply (sum_net _ _ _ Hs)|].
  split; [apply (sum_margin _ _ _ Hs)|].
  rewrite !series_sum_money.
  rewrite (sorted_groups_total df g Hen "Net Sales $") by auto.
  rewrite (sorted_groups_total df g Hen "Gross Margin $") by auto.
  done.
Qed.

Lemma summary_totals_conserved_witness :
  enriched enriched_example "Customer ID"
  ∧ exact_amounts "Net Sales $" enriched_example
  ∧ ∃ summary nets,
      generate_summary enriched_example "Customer ID" = Ok summary
      ∧ getitem summary "Net Sales $" = Ok nets
      ∧ series_sum nets = Ok (Finite (total_net_sales enriched_example)).
Proof.
  assert (Hen : enriched enriched_example "Customer ID")
    by (apply enrichedb_sound; vm_compute; reflexivity).
  assert (Hex : exact_amounts "Net Sales $" enriched_example)
    by (unfold exact_amounts; apply (bool_decide_unpack _); vm_compute; exact I).
  split; [exact Hen|]. split; [exact Hex|].
  destruct (summary_totals_conserved _ _ Hen)
    as (summary & nets & margins & Hsum & Hnets & _ & Htotal & _).
  exists summary, nets. split_and!; [done..|]. by apply Htotal.
Defined.

Lemma total_sales_ok (df : DataFrame) (g : string) :
  enriched df g →
  getitem df "Net Sales $" ≫= series_sum = Ok (Finite (total_net_sales df)).
Proof.
  intros Hen. rewrite (getitem_Ok df "Net Sales $") by apply (has_net _ _ Hen).
  cbn [mbind result_bind].
  rewrite (series_sum_amounts (λ r, cell_of r "Net Sales $") (amount "Net Sales $"));
    [done|].
  intros r Hr. by apply cell_finite_amount, (net_finite _ _ Hen).
Qed.

Lemma running_from_head (l : list Qc) :
  (money <$> running_from 0 l) !! 0%nat = (money <$> l) !! 0%nat.
Proof. destruct l as [|x l]; [done|]. cbn. by rewrite Qcplus_0_l. Qed.

Lemma running_from_step (a : Qc) (l : list Qc) (i : nat) (c n : Qc) :
  running_from a l !! i = Some c → l !! S i = Some n →
  running_from a l !! S i = Some (c + n).
Proof.
  revert a i. induction l as [|x l IH]; intros a i Hc Hn; [done|].
  destruct i as [|i].
  - destruct l as [|y l]; [done|]. cbn in *. by simplify_eq.
  - apply (IH (a + x) i Hc Hn).
Qed.

(** A column of running totals, as [cumsum] computes it: the first row is
    the first entry, each further row is the row before plus the next
    entry. *)
Lemma running_totals_step (l : list Qc) :
  (money <$> running_from 0 l) !! 0%nat = (money <$> l) !! 0%nat
  ∧ length (money <$> running_from 0 l) = length (money <$> l)
  ∧ ∀ i c n, (money <$> running_from 0 l) !! i = Some c →
      (money <$> l) !! S i = Some n →
      ∃ c', (money <$> running_from 0 l) !! S i = Some c' ∧ cell_add (c, n) = Ok c'.
Proof.
  split; [apply running_from_head|]. split.
  { rewrite !length_fmap. generalize (0 : Qc).
    induction l as [|x l IH]; intros a; [done|]. cbn. by rewrite IH. }
  intros i c n Hc Hn.
  apply list_lookup_fmap_Some in Hc as (a & -> & Ha).
  apply list_lookup_fmap_Some in Hn as (b & -> & Hb).
  exists (money (a + b)). split; [|done].
  by rewrite list_lookup_fmap, (running_from_step 0 l i a b Ha Hb).
Qed.

(** X12.  The cumulative columns are running totals down the rows of the
    summary, computed as [cumsum] does: the first row of Cumulative Sales $
    is the first row of Net Sales $, and each further row is the row before
    plus the Net Sales $ of that row; Cumulative Sales % is, row by row,
    [100 * Cumulative Sales $ / total_sales], the total being the sum of
    Net Sales $ over the enriched records.  Likewise Cumulative Margin $ for
    Gross Margin $, and Cumulative Profit % is
    [100 * Cumulative Margin $ / total], the total being the sum of the Gross
    Margin $ column of the summary. *)
Theorem cumulative_columns_are_prefix_sums (df : DataFrame) (g : string) :
  enriched df g →
  ∃ summary nets cum_sales cum_sales_pct margins cum_margin cum_profit_pct
    total_sales total_margin,
    generate_summary df g = Ok summary
    ∧ getitem summary "Net Sales $" = Ok nets
    ∧ getitem summary "Cumulative Sales $" = Ok cum_sales
    ∧ getitem summary "Cumulative Sales %" = Ok cum_sales_pct
    ∧ getitem summary "Gross Margin $" = Ok margins
    ∧ getitem summary "Cumulative Margin $" = Ok cum_margin
    ∧ getitem summary "Cumulative Profit %" = Ok cum_profit_pct
    ∧ (getitem df "Net Sales $" ≫= series_sum) = Ok total_sales
    ∧ series_sum margins = Ok total_margin
    ∧ cum_sales !! 0%nat = nets !! 0%nat
    ∧ length cum_sales = length nets
    ∧ (∀ i c n, cum_sales !! i = Some c → nets !! S i = Some n →
         ∃ c', cum_sales !! S i = Some c' ∧ cell_add (c, n) = Ok c')
    ∧ length cum_sales_pct = length cum_sales
    ∧ (∀ i c, cum_sales !! i = Some c →
         ∃ p, cum_sales_pct !! i = Some p ∧ cell_pct (c, Num total_sales) = Ok p)
    ∧ cum_margin !! 0%nat = margins !! 0%nat
    ∧ length cum_margin = length margins
    ∧ (∀ i c m, cum_margin !! i = Some c → margins !! S i = Some m →
         ∃ c', cum_margin !! S i = Some c' ∧ cell_add (c, m) = Ok c')
    ∧ length cum_profit_pct = length cum_margin
    ∧ (∀ i c, cum_margin !! i = Some c →
         ∃ p, cum_profit_pct !! i = Some p ∧ cell_pct (c, Num total_margin) = Ok p).
Proof.
  intros Hen. destruct (generate_summary_ok df g Hen) as (summary & Hsum & Hs).
  eexists summary, _, _, _, _, _, _, _, _. split; [done|].
  split; [apply (sum_net _ _ _ Hs)|].
  split; [apply (sum_cum_sales _ _ _ Hs)|].
  split; [apply (sum_cum_sales_pct _ _ _ Hs)|].
  split; [apply (sum_margin _ _ _ Hs)|].
  split; [apply (sum_cum_margin _ _ _ Hs)|].
  split; [apply (sum_cum_profit_pct _ _ _ Hs)|].
  split; [apply (total_sales_ok df g Hen)|].
  split; [apply series_sum_money|].
  assert (Hpct : ∀ (l : list Qc) (t : Qc),
            length ((λ c, pct c t) <$> running_from 0 l)
            = length (money <$> running_from 0 l)
            ∧ ∀ i c, (money <$> running_from 0 l) !! i = Some c →
                ∃ p, ((λ c, pct c t) <$> running_from 0 l) !! i = Some p
                     ∧ cell_pct (c, Num (Finite t)) = Ok p).
  { intros l t. split; [by rewrite !length_fmap|]. intros i c Hc.
    apply list_lookup_fmap_Some in Hc as (a & -> & Ha).
    exists (pct a t). split; [|done]. by rewrite list_lookup_fmap, Ha. }
  destruct (running_totals_step (amount "Net Sales $" <$> sorted_groups df g))
    as (? & ? & ?).
  destruct (running_totals_step (amount "Gross Margin $" <$> sorted_groups df g))
    as (? & ? & ?).
  split_and!; try done; apply Hpct.
Qed.

Lemma cumulative_columns_are_prefix_sums_witness :
  enriched enriched_example "Customer ID"
  ∧ ∃ summary nets cum_sales,
      generate_summary enriched_example "Customer ID" = Ok summary
      ∧ getitem summary "Net Sales $" = Ok nets
      ∧ getitem summary "Cumulative Sales $" = Ok cum_sales
      ∧ cum_sales !! 0%nat = nets !! 0%nat
      ∧ ∀ i c n, cum_sales !! i = Some c → nets !! S i = Some n →
          ∃ c', cum_sales !! S i = Some c' ∧ cell_add (c, n) = Ok c'.
Proof.
  assert (Hen : enriched enriched_example "Customer ID")
    by (apply enrichedb_sound; vm_compute; reflexivity).
  split; [exact Hen|].
  destruct (cumulative_columns_are_prefix_sums _ _ Hen)
    as (summary & nets & cum_sales & cum_sales_pct & margins & cum_margin
        & cum_profit_pct & total_sales & total_margin
        & Hsum & Hnets & Hcum & _ & _ & _ & _ & _ & _ & Hfirst & _ & Hstep & _).
  exists summary, nets, cum_sales. by split_and!.
Defined.

(** ** The shape of the whale curve *)

Lemma sorted_margins_desc (df : DataFrame) (g : string) :
  enriched df g →
  StronglySorted (λ x y : Qc, y ≤ x) (amount "Gross Margin $" <$> sorted_groups df g).
Proof.
  intros Hen.
  apply (StronglySorted_fmap _
    (λ a b : row, amount "Gross Margin $" b ≤ amount "Gross Margin $" a)); [done|].
  eapply StronglySorted_impl_elem;
    [|apply (sort_rows_sorted (λ r, cell_of r "Gross Margin $") false)].
  intros a b Ha Hb. fold (sorted_groups df g) in Ha, Hb.
  apply (elem_of_sorted_groups df g Hen) in Ha as [_ Ha], Hb as [_ Hb].
  rewrite Ha, Hb. cbn. by rewrite bool_decide_eq_true.
Qed.

Lemma qsum_nonpos (l : list Qc) : (∀ y, y ∈ l → y ≤ 0) → qsum l ≤ 0.
Proof.
  induction l as [|x l IH]; intros Hl; [by rewrite qsum_nil|].
  rewrite qsum_cons. apply Qcplus_nonpos_nonpos; [apply Hl; left|].
  apply IH. intros y Hy. apply Hl. by right.
Qed.

Lemma qsum_nonneg (l : list Qc) : (∀ y, y ∈ l → 0 ≤ y) → 0 ≤ qsum l.
Proof.
  induction l as [|x l IH]; intros Hl; [by rewrite qsum_nil|].
  rewrite qsum_cons. apply Qcplus_nonneg_nonneg; [apply Hl; left|].
  apply IH. intros y Hy. apply Hl. by right.
Qed.

(** The running total of a later row is that of an earlier row plus the
    entries in between. *)
Lemma prefix_split (l : list Qc) (i j : nat) :
  (i ≤ j)%nat →
  qsum (take (S j) l) = qsum (take (S i) l) + qsum (drop (S i) (take (S j) l)).
Proof.
  intros Hij. rewrite <- qsum_app.
  replace (take (S i) l) with (take (S i) (take (S j) l)); [by rewrite take_drop|].
  rewrite take_take. f_equal. lia.
Qed.

(** In a descending list, the running total does not fall up to an element
    that is not negative, and does not rise after one that is not positive. *)
Lemma prefix_rises (l : list Qc) (i j : nat) (x : Qc) :
  StronglySorted (λ a b : Qc, b ≤ a) l → (i ≤ j)%nat → l !! j = Some x → 0 ≤ x →
  qsum (take (S i) l) ≤ qsum (take (S j) l).
Proof.
  intros Hs Hij Hj Hx. rewrite (prefix_split l i j Hij).
  rewrite <- (Qcplus_0_r (qsum (take (S i) l))) at 1.
  apply Qcplus_le_mono_l, qsum_nonneg.
  intros y Hy. apply list_elem_of_lookup in Hy as [k Hk].
  rewrite lookup_drop in Hk. apply lookup_take_Some in Hk as [Hk Hlt].
  destruct (decide (S i + k = j)%nat) as [Heq|Hne]; [by simplify_eq|].
  etrans; [exact Hx|].
  apply (StronglySorted_lookup_lt _ l (S i + k) j y x Hs); [lia | done..].
Qed.

Lemma prefix_falls (l : list Qc) (i j : nat) (x : Qc) :
  StronglySorted (λ a b : Qc, b ≤ a) l → (i ≤ j)%nat → l !! i = Some x → x ≤ 0 →
  qsum (take (S j) l) ≤ qsum (take (S i) l).
Proof.
  intros Hs Hij Hi Hx. rewrite (prefix_split l i j Hij).
  rewrite <- (Qcplus_0_r (qsum (take (S i) l))) at 2.
  apply Qcplus_le_mono_l, qsum_nonpos.
  intros y Hy. apply list_elem_of_lookup in Hy as [k Hk].
  rewrite lookup_drop in Hk. apply lookup_take_Some in Hk as [Hk Hlt].
  etrans; [|exact Hx].
  apply (StronglySorted_lookup_lt _ l i (S i + k) x y Hs); [lia | done..].
Qed.

Lemma prefix_nonneg (l : list Qc) (i : nat) (x : Qc) :
  StronglySorted (λ a b : Qc, b ≤ a) l → l !! i = Some x → 0 ≤ x →
  0 ≤ qsum (take (S i) l).
Proof.
  intros Hs Hi Hx. apply qsum_nonneg.
  intros y Hy. apply list_elem_of_lookup in Hy as [j Hj].
  apply lookup_take_Some in Hj as [Hj Hlt].
  destruct (decide (j = i)) as [->|Hne]; [by simplify_eq|].
  etrans; [exact Hx|].
  apply (StronglySorted_lookup_lt _ l j i y x Hs); [lia | done..].
Qed.

Lemma share_mono (t a b : Qc) :
  0 < t → a ≤ b → Zq 100 * a / t ≤ Zq 100 * b / t.
Proof.
  intros Ht Hab. unfold Qcdiv.
  apply Qcmult_le_mono_nonneg_r; [by apply Qclt_le_weak, Qcinv_pos|].
  by apply Qcmult_le_mono_nonneg_l.
Qed.

Lemma pct_leb (t a b : Qc) :
  0 < t → a ≤ b → cell_leb (pct a t) (pct b t) = true.
Proof.
  intros Ht Hab.
  assert (t ≠ 0) as Hne by (intros ->; by apply (Qclt_not_le _ _ Ht)).
  rewrite !pct_nonzero by done. cbn. apply bool_decide_eq_true.
  by apply share_mono.
Qed.



(** ** What the rankings leave out *)

(** X14.  The slices hold the extremes.  The rows of the summary that the top
    slice leaves out are, each of them, empty in the ranking column or no
    larger there than any row of the slice; those that the bottom slice
    leaves out are empty there or no smaller than any row of the slice. *)
Theorem get_top_bottom_selects_extremes (summary top bottom : DataFrame)
    (field : string) (top_n : option nat) :
  get_top_bottom summary field top_n = Ok (top, bottom) →
  ∃ rest_top rest_bottom,
    rows top ++ rest_top ≡ₚ rows summary
    ∧ rows bottom ++ rest_bottom ≡ₚ rows summary
    ∧ (∀ x y, x ∈ rows top → y ∈ rest_top →
         na_last_leb false (cell_of x field) (cell_of y field) = true)
    ∧ (∀ x y, x ∈ rows bottom → y ∈ rest_bottom →
         na_last_leb true (cell_of x field) (cell_of y field) = true).
Proof.
  intros H. apply get_top_bottom_Ok_inv in H as (_ & -> & ->).
  set (n := default 20%nat top_n). set (f := λ r : row, cell_of r field).
  assert (Hsplit : ∀ ascending x y,
            x ∈ take n (sort_rows ascending f (rows summary)) →
            y ∈ drop n (sort_rows ascending f (rows summary)) →
            na_last_leb ascending (f x) (f y) = true).
  { intros ascending x y Hx Hy.
    apply list_elem_of_lookup in Hx as [i Hi], Hy as [j Hj].
    apply lookup_take_Some in Hi as [Hi Hlt]. rewrite lookup_drop in Hj.
    apply (StronglySorted_lookup_lt _ _ i (n + j) x y
             (sort_rows_sorted f ascending (rows summary))); [lia | done..]. }
  exists (drop n (sort_rows false f (rows summary))),
         (drop n (sort_rows true f (rows summary))).
  cbn [rows df_head]. rewrite !take_drop. split_and!.
  - apply sort_rows_Permutation.
  - apply sort_rows_Permutation.
  - apply (Hsplit false).
  - apply (Hsplit true).
Qed.

Lemma get_top_bottom_selects_extremes_witness :
  ∃ top bottom rest_top,
    get_top_bottom ranked_example "Margin %" (Some 3%nat) = Ok (top, bottom)
    ∧ rows top ++ rest_top ≡ₚ rows ranked_example
    ∧ ∀ x y, x ∈ rows top → y ∈ rest_top →
        na_last_leb false (cell_of x "Margin %") (cell_of y "Margin %") = true.
Proof.
  assert (H : ∃ top bottom,
            get_top_bottom ranked_example "Margin %" (Some 3%nat) = Ok (top, bottom))
    by (vm_compute; eexists _, _; reflexivity).
  destruct H as (top & bottom & H).
  destruct (get_top_bottom_selects_extremes _ _ _ _ _ H)
    as (rest_top & rest_bottom & Hperm & _ & Htop & _).
  exists top, bottom, rest_top. by split_and!.
Defined.

(** ** Key columns of different kinds *)

Lemma key_kind_of_text (s : list cell) :
  s ≠ [] → Forall (λ c, is_str c) s → key_kind_of s = KString.
Proof.
  intros Hne Hall. destruct s as [|c s]; [done|]. unfold key_kind_of.
  assert (forallb is_str (c :: s) = true) as ->.
  { by apply Is_true_true_1, forallb_True. }
  assert (existsb is_str (c :: s) = true) as ->; [|done].
  apply Forall_cons in Hall as [Hc _]. cbn. by destruct (is_str c).
Qed.

Lemma key_kind_of_numbers (s : list cell) :
  s ≠ [] → Forall (λ c, is_num c) s →
  key_kind_of s = KInteger ∨ key_kind_of s = KFloating.
Proof.
  intros Hne Hall. destruct s as [|c s]; [done|]. unfold key_kind_of.
  assert (existsb is_str (c :: s) = false) as ->.
  { apply Is_true_false_1. intros Hex. apply existb_True in Hex.
    apply Exists_exists in Hex as (x & Hx & Hstr).
    rewrite Forall_forall in Hall. specialize (Hall x Hx).
    by destruct x. }
  destruct (forallb is_integer_cell (c :: s)); auto.
Qed.

(** X16.  Product IDs typed as text in one sheet and as numbers in the other
    stop the run: when both sheets have rows and a Product ID column, and
    one of these columns holds text only and the other numbers (or empty
    cells) only, [merge_data] raises [ValueError], whatever else the sheets
    hold. *)
Theorem merge_data_text_against_numbers (sales cost : DataFrame) :
  "Product ID" ∈ columns sales → "Product ID" ∈ columns cost →
  rows sales ≠ [] → rows cost ≠ [] →
  (Forall (λ r, is_str (cell_of r "Product ID")) (rows sales)
   ∧ Forall (λ r, is_num (cell_of r "Product ID")) (rows cost))
  ∨ (Forall (λ r, is_num (cell_of r "Product ID")) (rows sales)
     ∧ Forall (λ r, is_str (cell_of r "Product ID")) (rows cost)) →
  merge_data sales cost = Raise ValueError.
Proof.
  intros Hks Hkc Hs Hc Hkinds.
  assert (Hne : ∀ l : list row, l ≠ [] → (λ r, cell_of r "Product ID") <$> l ≠ []).
  { intros [|? ?]; done. }
  assert (Hinc : keys_incompatible
            (key_kind_of ((λ r, cell_of r "Product ID") <$> rows sales))
            (key_kind_of ((λ r, cell_of r "Product ID") <$> rows cost)) = true).
  { destruct Hkinds as [[Ht Hn] | [Hn Ht]].
    - rewrite (key_kind_of_text ((λ r, cell_of r "Product ID") <$> rows sales))
        by (auto; by apply Forall_fmap).
      destruct (key_kind_of_numbers ((λ r, cell_of r "Product ID") <$> rows cost))
        as [-> | ->]; auto; by apply Forall_fmap.
    - rewrite (key_kind_of_text ((λ r, cell_of r "Product ID") <$> rows cost))
        by (auto; by apply Forall_fmap).
      destruct (key_kind_of_numbers ((λ r, cell_of r "Product ID") <$> rows sales))
        as [-> | ->]; auto; by apply Forall_fmap. }
  assert (Href : keys_refused ((λ r, cell_of r "Product ID") <$> rows sales)
            ((λ r, cell_of r "Product ID") <$> rows cost) = true).
  { unfold keys_refused. rewrite !bool_decide_eq_false_2 by auto. by rewrite Hinc. }
  unfold merge_data, merge.
  rewrite (decide_True (P := "Product ID" ∈ columns sales)) by done.
  rewrite (decide_True (P := "Product ID" ∈ columns cost)) by done.
  by rewrite Href.
Qed.

Lemma merge_data_text_against_numbers_witness :
  merge_data sample_sales
    {| columns := all_cost_cols;
       rows := [<["Product ID" := num 101]> (costed "P101" 7200)] |}
  = Raise ValueError.
Proof.
  apply merge_data_text_against_numbers.
  - apply (bool_decide_unpack _). vm_compute. exact I.
  - apply (bool_decide_unpack _). vm_compute. exact I.
  - discriminate.
  - discriminate.
  - left. split; apply (bool_decide_unpack _); vm_compute; exact I.
Defined.

(** ** Empty grouping cells *)

Lemma joined_covers (sales cost : DataFrame) (l : row) :
  l ∈ rows sales → ∃ ko, (l, ko) ∈ joined sales cost.
Proof.
  intros Hl. destruct (matches "Product ID" cost l) as [|k ms] eqn:Hm.
  - exists None. apply elem_of_joined_iff. done.
  - exists (Some k). apply elem_of_joined_iff. split; [done|]. rewrite Hm. by left.
Qed.



(** ** What [generate_summary] needs *)

Lemma groupby_sum_Ok_inv (df grouped : DataFrame) (g c1 c2 : string) :
  groupby_sum df g c1 c2 = Ok grouped →
  g ∈ columns df ∧ c1 ∈ columns df ∧ c2 ∈ columns df
  ∧ columns grouped = [g; c1; c2].
Proof.
  unfold groupby_sum. intros H.
  apply bind_Ok_inv in H as (keys & Hk & H).
  apply bind_Ok_inv in H as (s1 & H1 & H).
  apply bind_Ok_inv in H as (s2 & H2 & H).
  apply bind_Ok_inv in H as (rs & _ & H). case_decide; [discriminate|].
  inversion H.
  apply getitem_Ok_inv in Hk as [? _], H1 as [? _], H2 as [? _]. done.
Qed.

(** X18.  [generate_summary] returns a summary only for records that have
    the labels Net Sales $, Gross Margin $ and the grouping label; the
    summary it returns has the grouping label and the eight labels the
    function writes. *)
Theorem generate_summary_needs_columns (df summary : DataFrame) (g : string) :
  generate_summary df g = Ok summary →
  "Net Sales $" ∈ columns df ∧ "Gross Margin $" ∈ columns df ∧ g ∈ columns df
  ∧ ∀ c, c ∈ g :: summary_value_cols → c ∈ columns summary.
Proof.
  intros H. unfold generate_summary in H.
  apply bind_Ok_inv in H as (net & Hnet & H).
  apply bind_Ok_inv in H as (total_sales & Htotal & H).
  apply bind_Ok_inv in H as (grouped & Hgrouped & H).
  apply bind_Ok_inv in H as (sorted & Hsorted & H).
  apply bind_Ok_inv in H as (? & _ & H). apply bind_Ok_inv in H as (? & _ & H).
  cbn zeta in H.
  apply bind_Ok_inv in H as (? & _ & H). apply bind_Ok_inv in H as (? & _ & H).
  cbn zeta in H.
  apply bind_Ok_inv in H as (? & _ & H). apply bind_Ok_inv in H as (? & _ & H).
  cbn zeta in H.
  apply bind_Ok_inv in H as (? & _ & H). apply bind_Ok_inv in H as (? & _ & H).
  apply bind_Ok_inv in H as (? & _ & H). cbn zeta in H.
  apply bind_Ok_inv in H as (? & _ & H). apply bind_Ok_inv in H as (? & _ & H).
  cbn zeta in H.
  apply bind_Ok_inv in H as (? & _ & H). apply bind_Ok_inv in H as (? & _ & H).
  apply bind_Ok_inv in H as (? & _ & H). apply bind_Ok_inv in H as (? & _ & H).
  inversion H as [Hsummary]. clear H.
  apply getitem_Ok_inv in Hnet as [Hn ->].
  apply groupby_sum_Ok_inv in Hgrouped as (Hg & _ & Hm & Hcols).
  apply sort_values_Ok_inv in Hsorted as [_ ->].
  split_and!; try done.
  intros c. unfold summary_value_cols.
  rewrite !elem_of_setitem_columns. cbn [columns]. rewrite Hcols.
  rewrite !elem_of_cons, elem_of_nil. tauto.
Qed.

Lemma generate_summary_needs_columns_witness :
  ∃ summary, generate_summary enriched_example "Customer ID" = Ok summary
    ∧ "Net Sales $" ∈ columns enriched_example.
Proof.
  assert (H : ∃ summary, generate_summary enriched_example "Customer ID" = Ok summary)
    by (vm_compute; eexists; reflexivity).
  destruct H as [summary H]. exists summary. split; [exact H|].
  exact (proj1 (generate_summary_needs_columns _ _ _ H)).
Defined.
